(** * tinygrad/spec.py: the UOp verifier, embedded and verified

    The file follows [tinygrad/spec.py]: the rule tables [buffer_spec],
    [assign_spec], [spec], [sched_spec] and [shape_spec], the helpers
    [validate_kernel], [validate_index] and [verify_sink_dims], and the
    driver [type_verify].  Every rule of a table is a definition of its own,
    named after the line of [spec.py] it stands on ([spec_l140] is the rule
    of line 140).

    What [spec.py] imports from [tinygrad.ops], [tinygrad.dtype] and
    [tinygrad.helpers] is not part of the verified source; those parts are
    modelled here and marked as such. *)

From Stdlib Require Import String.
From Stdlib Require Import List ZArith Bool Lia Permutation Sorted.
Import ListNotations.
Local Open Scope string_scope.
Local Open Scope list_scope.
Local Open Scope Z_scope.

(* ================================================================== *)
(** * Operators *)

(** Modelled from the spec: the closed enumeration of operator tags
    ([tinygrad.ops.Ops] is not under src/).  It holds every operator that
    [spec.py] names and the members of the groups it uses. *)
Inductive Ops : Set :=
  | SINK | CONTIGUOUS | CONTIGUOUS_BACKWARD | DETACH | KERNEL | UNIQUE
  | EMPTY | COPY | BUFFER_VIEW
  | BLOCK | BLOCKSTART | BLOCKEND | BLOCKFORK
  | RESHAPE | PERMUTE | EXPAND | PAD | SHRINK | FLIP
  | UNROLL | CONTRACT | VIEW | DEFINE_GLOBAL | BUFFER | DEFINE_VAR
  | DEFINE_LOCAL | DEFINE_ACC | VALID | SPECIAL | NOOP
  | REDUCE_AXIS | GEP | VECTORIZE | CAT
  | CAST | BITCAST | EXP2 | LOG2 | SIN | SQRT | RECIP | NEG
  | LOAD | STORE | INDEX | WMMA
  | ADD | MUL | IDIV | MAX | MOD | CMPLT | CMPNE | XOR
  | SHL | SHR | OR | AND | THREEFRY | SUB | FDIV | POW
  | WHERE | MULACC
  | ASSIGN | BIND
  | BARRIER | RANGE | IF | ENDRANGE | ENDIF
  | VCONST | CONST
  | DEVICE | MULTI | CUSTOM | CUSTOMI | FUSE.

Scheme Equality for Ops.

Definition Ops_eqb : Ops -> Ops -> bool := Ops_beq.

(** [o in ops] for a tuple or set of operators. *)
Definition op_in (o : Ops) (ops : list Ops) : bool := existsb (Ops_eqb o) ops.

(** Modelled from the spec: the operator groups ([tinygrad.ops.GroupOp] is
    not under src/): the ALU group, the movement group, and all operators. *)
Module GroupOp.
Definition Unary : list Ops := [EXP2; LOG2; SIN; SQRT; RECIP; NEG].
Definition Binary : list Ops :=
    [ADD; MUL; IDIV; MAX; MOD; CMPLT; CMPNE; XOR; SHL; SHR; OR; AND;
     THREEFRY; SUB; FDIV; POW].
Definition Ternary : list Ops := [WHERE; MULACC].
Definition ALU : list Ops := Unary ++ Binary ++ Ternary.
Definition Movement : list Ops := [RESHAPE; EXPAND; PERMUTE; PAD; SHRINK; FLIP].
Definition All : list Ops :=
    [SINK; CONTIGUOUS; CONTIGUOUS_BACKWARD; DETACH; KERNEL; UNIQUE;
     EMPTY; COPY; BUFFER_VIEW;
     BLOCK; BLOCKSTART; BLOCKEND; BLOCKFORK;
     RESHAPE; PERMUTE; EXPAND; PAD; SHRINK; FLIP;
     UNROLL; CONTRACT; VIEW; DEFINE_GLOBAL; BUFFER; DEFINE_VAR;
     DEFINE_LOCAL; DEFINE_ACC; VALID; SPECIAL; NOOP;
     REDUCE_AXIS; GEP; VECTORIZE; CAT;
     CAST; BITCAST; EXP2; LOG2; SIN; SQRT; RECIP; NEG;
     LOAD; STORE; INDEX; WMMA;
     ADD; MUL; IDIV; MAX; MOD; CMPLT; CMPNE; XOR;
     SHL; SHR; OR; AND; THREEFRY; SUB; FDIV; POW;
     WHERE; MULACC;
     ASSIGN; BIND;
     BARRIER; RANGE; IF; ENDRANGE; ENDIF;
     VCONST; CONST;
     DEVICE; MULTI; CUSTOM; CUSTOMI; FUSE].
(** [GroupOp.All - {...}] *)
Definition All_minus (excl : list Ops) : list Ops :=
    filter (fun o => negb (op_in o excl)) All.
End GroupOp.

(* ================================================================== *)
(** * Value types *)

Inductive ScalarName : Set :=
  | n_void | n_bool
  | n_int8 | n_uint8 | n_int16 | n_uint16 | n_int32 | n_uint32
  | n_int64 | n_uint64
  | n_float16 | n_bfloat16 | n_float32 | n_float64.

Scheme Equality for ScalarName.

(** Modelled from the spec: the value type of a node ([tinygrad.dtype] is
    not under src/): a plain data type with a lane count, or a pointer or
    image variant that carries the element type and the addressing metadata
    (locality, vector width, declared element count with -1 for unbounded,
    and the image shape). *)
Inductive DType : Type :=
  | DT (name : ScalarName) (count : Z)
  | PtrDT (base : DType) (local : bool) (v : Z) (size : Z)
  | ImageDT (base : DType) (local : bool) (v : Z) (size : Z) (shape : list Z).

Fixpoint Zlist_eqb (a b : list Z) : bool :=
  match a, b with
  | [], [] => true
  | x :: a', y :: b' => (x =? y) && Zlist_eqb a' b'
  | _, _ => false
  end.

Fixpoint DType_eqb (a b : DType) : bool :=
  match a, b with
  | DT n1 c1, DT n2 c2 => ScalarName_beq n1 n2 && (c1 =? c2)
  | PtrDT b1 l1 v1 s1, PtrDT b2 l2 v2 s2 =>
      DType_eqb b1 b2 && Bool.eqb l1 l2 && (v1 =? v2) && (s1 =? s2)
  | ImageDT b1 l1 v1 s1 h1, ImageDT b2 l2 v2 s2 h2 =>
      DType_eqb b1 b2 && Bool.eqb l1 l2 && (v1 =? v2) && (s1 =? s2)
      && Zlist_eqb h1 h2
  | _, _ => false
  end.

(** [d in dts] for a tuple of value types. *)
Definition dtype_in (d : DType) (dts : list DType) : bool :=
  existsb (DType_eqb d) dts.

(** [isinstance(d, PtrDType)]: [ImageDType] derives from [PtrDType]. *)
Definition is_PtrDType (d : DType) : bool :=
  match d with DT _ _ => false | _ => true end.

(** [isinstance(d, ImageDType)] *)
Definition is_ImageDType (d : DType) : bool :=
  match d with ImageDT _ _ _ _ _ => true | _ => false end.

(** [isinstance(d, DType)]: every value type derives from [DType]. *)
Definition is_DType (d : DType) : bool := true.

(** Modelled from the spec: the attributes of a value type that [spec.py]
    reads ([tinygrad.dtype] is not under src/): [base], [count], [scalar()],
    and further down [local], [size] and [vec]. *)

(** [d.base] *)
Definition dtype_base (d : DType) : DType :=
  match d with
  | DT _ _ => d
  | PtrDT b _ _ _ => b
  | ImageDT b _ _ _ _ => b
  end.

(** [d.count] *)
Fixpoint dtype_count (d : DType) : Z :=
  match d with
  | DT _ c => c
  | PtrDT b _ _ _ => dtype_count b
  | ImageDT b _ _ _ _ => dtype_count b
  end.

(** [d.scalar()]: the one-lane type a vector type was made from.  A vector
    type is made by [vec] only, and [vec] returns void unchanged (see
    [dtype_vec] below): void has no vector form, and a value type named
    void is its own scalar. *)
Definition dtype_scalar (d : DType) : DType :=
  match d with
  | DT n _ => if ScalarName_beq n n_void then d else DT n 1
  | PtrDT b l _ s => PtrDT b l 1 s
  | ImageDT b l _ s h => ImageDT b l 1 s h
  end.

(** The value-type test of a pattern,
    [d in dts or d.scalar() in dts]: a vector type passes where its scalar
    is asked for. *)
Definition dtype_match (d : DType) (dts : list DType) : bool :=
  dtype_in d dts || dtype_in (dtype_scalar d) dts.

Arguments dtype_match : simpl never.

(** Modelled from the spec: the value types by name and the tests on them
    ([tinygrad.dtype.dtypes] is not under src/); [int] is the 32-bit signed
    and [uint] the 32-bit unsigned integer type. *)
Module dtypes.
Definition void := DT n_void 1.
Definition int8 := DT n_int8 1.
Definition uint8 := DT n_uint8 1.
Definition int16 := DT n_int16 1.
Definition uint16 := DT n_uint16 1.
Definition int32 := DT n_int32 1.
Definition uint32 := DT n_uint32 1.
Definition int64 := DT n_int64 1.
Definition uint64 := DT n_uint64 1.
Definition float16 := DT n_float16 1.
Definition bfloat16 := DT n_bfloat16 1.
Definition float32 := DT n_float32 1.
Definition float64 := DT n_float64 1.
Definition int := int32.
Definition uint := uint32.
Definition uints : list DType := [uint8; uint16; uint32; uint64].
Definition sints : list DType := [int8; int16; int32; int64].
Definition ints : list DType := uints ++ sints.
Definition floats : list DType := [float16; bfloat16; float32; float64].
(** [dtypes.is_int(d)] *)
Definition is_int (d : DType) : Datatypes.bool := dtype_in (dtype_scalar d) ints.
(** [dtypes.is_unsigned(d)] *)
Definition is_unsigned (d : DType) : Datatypes.bool := dtype_in (dtype_scalar d) uints.
(** [dtypes.is_float(d)] *)
Definition is_float (d : DType) : Datatypes.bool := dtype_in (dtype_scalar d) floats.
Definition bool := DT n_bool 1.
End dtypes.

(* ================================================================== *)
(** * Nodes *)

Local Unset Elimination Schemes.

(** Modelled from the spec: a node ([tinygrad.ops.UOp] is not under
    src/).  It has an operator tag, a value type, its ordered sources and an
    operator-specific argument.  The argument is a Python value: [None],
    an [int], a [bool], a [str], a [float], a tuple, an operator, a node,
    or the program descriptor of a KERNEL with its root node [ast].
    Nodes are hash-consed in tinygrad, so the identity test of Python is
    structural equality here. *)
Inductive UOp : Type :=
  | mkUOp (op : Ops) (dtype : DType) (src : list UOp) (arg : Arg)
with Arg : Type :=
  | ANone
  | AInt (z : Z)
  | ABool (b : bool)
  | AStr (s : string)
  | AFloat (repr : string)
  | ATuple (items : list Arg)
  | AOps (o : Ops)
  | AUOp (u : UOp)
  | AKernel (ast : UOp).

Local Set Elimination Schemes.

Definition op (u : UOp) : Ops := let 'mkUOp o _ _ _ := u in o.
Definition dtype (u : UOp) : DType := let 'mkUOp _ d _ _ := u in d.
Definition src (u : UOp) : list UOp := let 'mkUOp _ _ s _ := u in s.
Definition arg (u : UOp) : Arg := let 'mkUOp _ _ _ a := u in a.

Fixpoint UOp_eqb (a b : UOp) {struct a} : bool :=
  match a, b with
  | mkUOp o1 d1 s1 a1, mkUOp o2 d2 s2 a2 =>
      Ops_eqb o1 o2 && DType_eqb d1 d2
      && (fix srcs (l1 l2 : list UOp) {struct l1} : bool :=
            match l1, l2 with
            | [], [] => true
            | x :: l1', y :: l2' => UOp_eqb x y && srcs l1' l2'
            | _, _ => false
            end) s1 s2
      && Arg_eqb a1 a2
  end
with Arg_eqb (a b : Arg) {struct a} : bool :=
  match a, b with
  | ANone, ANone => true
  | AInt x, AInt y => x =? y
  | ABool x, ABool y => Bool.eqb x y
  | AStr x, AStr y => String.eqb x y
  | AFloat x, AFloat y => String.eqb x y
  | ATuple l1, ATuple l2 =>
      (fix items (l1 l2 : list Arg) {struct l1} : bool :=
         match l1, l2 with
         | [], [] => true
         | x :: l1', y :: l2' => Arg_eqb x y && items l1' l2'
         | _, _ => false
         end) l1 l2
  | AOps x, AOps y => Ops_eqb x y
  | AUOp x, AUOp y => UOp_eqb x y
  | AKernel x, AKernel y => UOp_eqb x y
  | _, _ => false
  end.

(** [isinstance(a, int)]: a Python [bool] is an [int]. *)
Definition isinstance_int (a : Arg) : bool :=
  match a with AInt _ | ABool _ => true | _ => false end.

Definition isinstance_bool (a : Arg) : bool :=
  match a with ABool _ => true | _ => false end.

Definition isinstance_str (a : Arg) : bool :=
  match a with AStr _ => true | _ => false end.

Definition isinstance_tuple (a : Arg) : bool :=
  match a with ATuple _ => true | _ => false end.

Definition isinstance_UOp (a : Arg) : bool :=
  match a with AUOp _ => true | _ => false end.

Definition is_None (a : Arg) : bool :=
  match a with ANone => true | _ => false end.

(** Modelled from the spec: the full dependency set of a node
    ([UOp.toposort] of [tinygrad.ops] is not under src/): the node and
    everything it reaches through sources, sources before the node.  A
    shared node is listed once per path; [spec.py] only asks whether some
    member satisfies a test and removes duplicates from what it collects,
    so the multiplicity is immaterial. *)
Fixpoint toposort (u : UOp) : list UOp :=
  match u with
  | mkUOp _ _ s _ =>
      (fix parents (l : list UOp) : list UOp :=
         match l with
         | [] => []
         | p :: l' => toposort p ++ parents l'
         end) s ++ [u]
  end.

(* ================================================================== *)
(** * Effects: printing and exceptions *)

(** What [type_verify] reports about the failing node (line 179): its
    position, operator, value type, number of sources, the operators of the
    sources and the argument. *)
Record Failure : Type := mkFailure {
  f_index : nat;
  f_op : Ops;
  f_dtype : DType;
  f_nsrc : nat;
  f_src_ops : list Ops;
  f_arg : Arg
}.

Inductive Exn : Type :=
  | AssertionError (msg : string) (payload : Arg)
  | RuntimeError (f : Failure)
  | AttributeError (attr : string)
  | IndexError
  | TypeError.

(** A line written by [print]. *)
Inductive Output : Type :=
  | OutOfBounds (lo hi sz : Z) (rendered : string)
  | PrintUops (uops : list UOp).

Inductive Outcome (A : Type) : Type :=
  | Ret (a : A)
  | Raise (e : Exn).

Arguments Ret {A} a.
Arguments Raise {A} e.

(** A computation prints some lines and then returns or raises. *)
Definition M (A : Type) : Type := (list Output * Outcome A)%type.

Definition ret {A} (a : A) : M A := ([], Ret a).
Definition raise {A} (e : Exn) : M A := ([], Raise e).
Definition print (o : Output) : M unit := ([o], Ret tt).

Definition bind {A B} (m : M A) (f : A -> M B) : M B :=
  match m with
  | (out, Ret a) => let '(out', r) := f a in (out ++ out', r)
  | (out, Raise e) => (out, Raise e)
  end.

Notation "x <- m ;; k" := (bind m (fun x => k))
  (at level 61, m at next level, right associativity).
Notation "m ;;; k" := (bind m (fun _ => k))
  (at level 61, right associativity).

(** [assert c, msg] *)
Definition assert (c : bool) (msg : string) (payload : Arg) : M unit :=
  if c then ret tt else raise (AssertionError msg payload).

(** [all(f(x) for x in l)]: stops at the first false element. *)
Fixpoint allM {A} (f : A -> M bool) (l : list A) : M bool :=
  match l with
  | [] => ret true
  | x :: l' => b <- f x ;; if b then allM f l' else ret false
  end.

(** [any(f(x) for x in l)]: stops at the first true element. *)
Fixpoint anyM {A} (f : A -> M bool) (l : list A) : M bool :=
  match l with
  | [] => ret false
  | x :: l' => b <- f x ;; if b then ret true else anyM f l'
  end.

(** [[f(x) for x in l]] *)
Fixpoint mapM {A B} (f : A -> M B) (l : list A) : M (list B) :=
  match l with
  | [] => ret []
  | x :: l' => y <- f x ;; ys <- mapM f l' ;; ret (y :: ys)
  end.

(** [l[i]] on a tuple or list. *)
Definition getitem {A} (l : list A) (i : nat) : M A :=
  match nth_error l i with
  | Some x => ret x
  | None => raise IndexError
  end.

(** [a[i]] on an argument: a tuple gives its element, a string the
    one-character string, anything else is not subscriptable. *)
Definition arg_getitem (a : Arg) (i : nat) : M Arg :=
  match a with
  | ATuple l => getitem l i
  | AStr s =>
      match String.get i s with
      | Some c => ret (AStr (String c EmptyString))
      | None => raise IndexError
      end
  | _ => raise TypeError
  end.

(* ================================================================== *)
(** * Environment and derived facts *)

(** Modelled from the spec: the process-wide flags read through [getenv]
    and [DEBUG] ([tinygrad.helpers] is not under src/): the bounds-check
    override and the debug verbosity. *)
Record Env : Type := mkEnv {
  IGNORE_OOB : Z;
  DEBUG : Z
}.

(** Modelled from the spec: a shape descriptor ([ShapeTracker] is not
    under src/), as far as [spec.py] reads it: the per-dimension sizes and
    the total element count. *)
Record ShapeTracker : Type := mkShapeTracker {
  shape : list Z;
  size : Z
}.

(** Modelled from the spec: the derived read-only facts that a node
    exposes to the rules (properties of [tinygrad.ops.UOp], not under
    src/): the value-range estimate [vmin]/[vmax], the rendering of an
    expression, the shape descriptor [st] ([None] for an unshaped node), the
    shape descriptor argument [st_arg], and the [base] a node resolves to.
    The record holds the values of these properties on a graph on which
    they have one: [UOp.st] and [st_arg] raise an assertion error on some
    graphs ([st] when the shaped sources of a node disagree), and a graph
    on which they do is not described by a [Facts]. *)
Record Facts : Type := mkFacts {
  vmin : UOp -> Z;
  vmax : UOp -> Z;
  render : UOp -> string;
  st : UOp -> option ShapeTracker;
  st_arg : UOp -> ShapeTracker;
  base : UOp -> UOp
}.

(* ================================================================== *)
(** * The pattern matcher *)

Local Unset Elimination Schemes.

(** Modelled from the spec: a structural pattern ([tinygrad.ops.UPat] is
    not under src/).  It matches on the operator tag (one of a set, or any),
    the value type (one of a set, or any; a vector type also passes the test
    through its scalar type), the argument, the sources and binds the node
    to a name.  The sources are unconstrained
    ([SrcNone], no [src] given), a tuple of patterns matched position by
    position ([SrcTuple]), or one pattern that every source must match
    ([SrcRepeat], when [src] is a single pattern).  A tuple fixes the number
    of sources unless [allow_any_len] is set, in which case it is a lower
    bound. *)
Inductive UPat : Type :=
  | mkUPat (p_op : option (list Ops)) (p_dtype : option (list DType))
           (p_src : USrc) (p_arg : option Arg) (p_name : option string)
           (allow_any_len : bool)
with USrc : Type :=
  | SrcNone
  | SrcTuple (ps : list UPat)
  | SrcRepeat (p : UPat).

Local Set Elimination Schemes.

(** The named captures of a match, in binding order. *)
Definition Store : Type := list (string * UOp).

Fixpoint store_get (name : string) (s : Store) : option UOp :=
  match s with
  | [] => None
  | (n, u) :: s' => if String.eqb n name then Some u else store_get name s'
  end.

(** [store.setdefault(name, uop) is not uop] fails the match; a fresh name
    is bound. *)
Definition store_bind (name : option string) (u : UOp) (s : Store) : option Store :=
  match name with
  | None => Some s
  | Some n =>
      match store_get n s with
      | None => Some (s ++ [(n, u)])
      | Some u' => if UOp_eqb u' u then Some s else None
      end
  end.

Definition p_op_of (p : UPat) : option (list Ops) :=
  let 'mkUPat o _ _ _ _ _ := p in o.

Definition p_src_of (p : UPat) : USrc :=
  let 'mkUPat _ _ s _ _ _ := p in s.

(** The operator test of a pattern. *)
Definition upat_op_ok (p : UPat) (o : Ops) : bool :=
  match p_op_of p with
  | None => true
  | Some ops => op_in o ops
  end.

Definition required_len (s : USrc) : nat :=
  match s with
  | SrcTuple ps => length ps
  | _ => 0%nat
  end.

Definition strict_length (s : USrc) (allow_any_len : bool) : bool :=
  match s with
  | SrcTuple _ => negb allow_any_len
  | _ => false
  end.

Section SourceMatching.

Variable P : Type.
Variable matcher : P -> UOp -> Store -> list Store.

(** The loop of [UPat.match] over [zip(uop.src, patterns)]: every store
    that survived the sources so far is extended by the next source. *)
Fixpoint zip_match (ps : list P) (us : list UOp) (stores : list Store)
  {struct ps} : list Store :=
  match ps, us with
  | q :: ps', x :: us' => zip_match ps' us' (flat_map (matcher q x) stores)
  | _, _ => stores
  end.

(** The same loop when one pattern is repeated for every source. *)
Fixpoint rep_match (q : P) (us : list UOp) (stores : list Store)
  {struct us} : list Store :=
  match us with
  | x :: us' => rep_match q us' (flat_map (matcher q x) stores)
  | [] => stores
  end.

End SourceMatching.

Arguments zip_match {P} matcher ps us stores.
Arguments rep_match {P} matcher q us stores.

(** Modelled from the spec: [UPat.match] ([tinygrad.ops] is not under
    src/): the stores of the successful matches of [u] against [p], each
    extending [store].  The node must pass the operator test, bind to the
    name, pass the value-type and the argument test and have the number of
    sources the pattern asks for; then the sources are matched. *)
Fixpoint upat_match (p : UPat) (u : UOp) (store : Store) {struct p} : list Store :=
  match p with
  | mkUPat p_op p_dtype p_src p_arg p_name any_len =>
      if negb (match p_op with None => true | Some ops => op_in (op u) ops end)
      then [] else
      match store_bind p_name u store with
      | None => []
      | Some store' =>
          if negb (match p_dtype with None => true | Some dts => dtype_match (dtype u) dts end)
          then [] else
          if negb (match p_arg with None => true | Some a => Arg_eqb a (arg u) end)
          then [] else
          if (List.length (src u) <? required_len p_src)%nat then [] else
          if strict_length p_src any_len
             && negb (List.length (src u) =? required_len p_src)%nat then [] else
          match p_src with
          | SrcNone => [store']
          | SrcTuple ps => zip_match upat_match ps (src u) [store']
          | SrcRepeat q => rep_match upat_match q (src u) [store']
          end
      end
  end.

(** A rule: a pattern and the predicate called with the named captures.
    The predicate answers [True], [False] or [None]. *)
Definition Rule : Type := (UPat * (Store -> M (option bool)))%type.

(** A rule set.  [a + b] on rule sets is [a ++ b]. *)
Definition PatternMatcher : Type := list Rule.

(** The predicate applied to the matches of one rule, first result that
    is not [None]. *)
Fixpoint first_result (fxn : Store -> M (option bool)) (matches : list Store)
  : M (option bool) :=
  match matches with
  | [] => ret None
  | m :: ms =>
      r <- fxn m ;;
      match r with
      | Some b => ret (Some b)
      | None => first_result fxn ms
      end
  end.

(** Modelled from the spec: the early-reject set of a pattern
    ([tinygrad.ops] is not under src/): the operators of the source patterns
    that name exactly one operator, taken from the tuple of source patterns
    or from the repeated source pattern. *)
Definition early_reject (p : UPat) : list Ops :=
  flat_map (fun q => match p_op_of q with Some [o] => [o] | _ => [] end)
           (match p_src_of p with
            | SrcNone => []
            | SrcTuple ps => ps
            | SrcRepeat q => [q]
            end).

(** [early_reject.issubset({x.op for x in u.src})] *)
Definition early_ok (p : UPat) (u : UOp) : bool :=
  forallb (fun o => op_in o (map op (src u))) (early_reject p).

(** Modelled from the spec: [PatternMatcher.rewrite] ([tinygrad.ops] is
    not under src/): the rules are tried top to bottom and the first result
    that is not an abstention wins; if every rule abstains, the set has no
    opinion ([None]).  Only the rules filed under the operator of the node
    are looked at, and such a rule is skipped without being matched when an
    operator of its early-reject set does not occur among the sources of
    the node.  An exception of a predicate is not caught. *)
Fixpoint rewrite (pm : PatternMatcher) (u : UOp) : M (option bool) :=
  match pm with
  | [] => ret None
  | (p, fxn) :: pm' =>
      if negb (upat_op_ok p (op u)) then rewrite pm' u else
      if negb (early_ok p u) then rewrite pm' u else
      r <- first_result fxn (upat_match p u []) ;;
      match r with
      | Some b => ret (Some b)
      | None => rewrite pm' u
      end
  end.

(** The early-reject test of a pattern adds nothing to its match unless
    the pattern repeats one single-operator pattern over the sources. *)
Definition reject_redundant (p : UPat) : bool :=
  match p_src_of p with
  | SrcRepeat _ => match early_reject p with [] => true | _ => false end
  | _ => true
  end.

(** Pattern constructors, as [spec.py] calls [UPat]. *)
Definition UPat_ (ops : list Ops) : UPat :=
  mkUPat (Some ops) None SrcNone None None false.
Definition UPat_any : UPat :=
  mkUPat None None SrcNone None None false.
Definition UPat_var (name : string) : UPat :=
  mkUPat None None SrcNone None (Some name) false.
Definition UPat_dtype (dt : DType) : UPat :=
  mkUPat None (Some [dt]) SrcNone None None false.

(** A captured node, by the parameter name of the predicate. *)
Definition capture (s : Store) (name : string) : M UOp :=
  match store_get name s with
  | Some u => ret u
  | None => raise TypeError
  end.

(** [lambda: b] *)
Definition const_rule (b : bool) : Store -> M (option bool) :=
  fun _ => ret (Some b).

(** The predicate [lambda name: f(name)] returning a [bool]. *)
Definition on1 (name : string) (f : UOp -> M bool) : Store -> M (option bool) :=
  fun s => x <- capture s name ;; b <- f x ;; ret (Some b).

Definition on2 (n1 n2 : string) (f : UOp -> UOp -> M bool)
  : Store -> M (option bool) :=
  fun s => x <- capture s n1 ;; y <- capture s n2 ;; b <- f x y ;; ret (Some b).

Definition on3 (n1 n2 n3 : string) (f : UOp -> UOp -> UOp -> M bool)
  : Store -> M (option bool) :=
  fun s => x <- capture s n1 ;; y <- capture s n2 ;; z <- capture s n3 ;;
           b <- f x y z ;; ret (Some b).

(* ================================================================== *)
(** * Helpers of [tinygrad.helpers] and [tinygrad.dtype] *)

(** Modelled from the spec: the helpers [all_same], [dedup] and [prod]
    ([tinygrad.helpers] is not under src/). *)

(** [all_same(items)]: [all(x == items[0] for x in items)] *)
Definition all_same {A} (eqb : A -> A -> bool) (items : list A) : bool :=
  match items with
  | [] => true
  | x0 :: _ => forallb (fun x => eqb x x0) items
  end.

(** [dedup(x)]: [list(dict.fromkeys(x))], the first occurrences in order. *)
Fixpoint dedup (l : list Z) : list Z :=
  match l with
  | [] => []
  | x :: l' => x :: filter (fun y => negb (y =? x)) (dedup l')
  end.

Fixpoint insert_sorted (x : Z) (l : list Z) : list Z :=
  match l with
  | [] => [x]
  | y :: l' => if x <=? y then x :: l else y :: insert_sorted x l'
  end.

(** [sorted(l)] on integers, ascending. *)
Fixpoint sorted (l : list Z) : list Z :=
  match l with
  | [] => []
  | x :: l' => insert_sorted x (sorted l')
  end.

(** [zip] applied to the unpacked list [ls]: the tuples of the i-th
    elements, as long as every list has an i-th element; no list gives no
    tuple. *)
Fixpoint zip_star {A} (ls : list (list A)) : list (list A) :=
  match ls with
  | [] => []
  | l :: ls' =>
      match ls' with
      | [] => map (fun x => [x]) l
      | _ => map (fun xt => fst xt :: snd xt) (combine l (zip_star ls'))
      end
  end.

(** [prod(l)] *)
Definition prod (l : list Z) : Z := fold_left Z.mul l 1.

(** An argument used as a number. *)
Definition arg_int (a : Arg) : M Z :=
  match a with
  | AInt z => ret z
  | ABool b => ret (if b then 1 else 0)
  | _ => raise TypeError
  end.

(** The elements of an argument that is iterated over. *)
Definition arg_items (a : Arg) : M (list Arg) :=
  match a with
  | ATuple l => ret l
  | _ => raise TypeError
  end.

(** [len(a)] *)
Definition arg_len (a : Arg) : M nat :=
  match a with
  | ATuple l => ret (List.length l)
  | AStr s => ret (String.length s)
  | _ => raise TypeError
  end.

(** [a[1:]], as the sequence of its elements. *)
Definition arg_tail (a : Arg) : M (list Arg) :=
  match a with
  | ATuple l => ret (tl l)
  | AStr s => ret (map (fun c => AStr (String c EmptyString)) (tl (list_ascii_of_string s)))
  | _ => raise TypeError
  end.

(** [a.ast] *)
Definition arg_ast (a : Arg) : M UOp :=
  match a with
  | AKernel ast => ret ast
  | _ => raise (AttributeError "ast")
  end.

(** [d.local] *)
Definition dtype_local (d : DType) : M bool :=
  match d with
  | DT _ _ => raise (AttributeError "local")
  | PtrDT _ l _ _ => ret l
  | ImageDT _ l _ _ _ => ret l
  end.

(** [d.size]: the declared element count of a pointer, -1 when unbounded.
    [cast(PtrDType, d)] does nothing at run time. *)
Definition dtype_size (d : DType) : M Z :=
  match d with
  | DT _ _ => raise (AttributeError "size")
  | PtrDT _ _ _ s => ret s
  | ImageDT _ _ _ s _ => ret s
  end.

(** [d.vec(sz)] *)
Definition dtype_vec (d : DType) (sz : Z) : M DType :=
  match d with
  | DT n c =>
      assert (c =? 1) "can't vectorize" ANone ;;;
      ret (if (sz =? 1) || DType_eqb d dtypes.void then d else DT n sz)
  | PtrDT b l v s =>
      assert (v =? 1) "can't vectorize ptr" ANone ;;;
      ret (if sz =? 1 then d else PtrDT b l sz s)
  | ImageDT b l v s h =>
      assert (v =? 1) "can't vectorize ptr" ANone ;;;
      ret (if sz =? 1 then d else ImageDT b l sz s h)
  end.

Inductive PyType : Set :=
  | T_int | T_float | T_bool | T_tuple | T_str | T_NoneType | T_Ops | T_UOp | T_Kernel.

Scheme Equality for PyType.

(** [type(a)] *)
Definition type_of (a : Arg) : PyType :=
  match a with
  | ANone => T_NoneType
  | AInt _ => T_int
  | ABool _ => T_bool
  | AStr _ => T_str
  | AFloat _ => T_float
  | ATuple _ => T_tuple
  | AOps _ => T_Ops
  | AUOp _ => T_UOp
  | AKernel _ => T_Kernel
  end.

(** Modelled from the spec: the runtime kind of what the constant coercion
    of a value type produces ([dtypes.as_const] is not under src/): a tuple
    for a tuple of as many elements as the type has lanes, otherwise an
    [int] for an integer type, a [float] for a floating type and a [bool]
    for the rest; only a number is coerced to a number. *)
Definition as_const_type (a : Arg) (d : DType) : M PyType :=
  match a with
  | ATuple l =>
      assert (Z.of_nat (List.length l) =? dtype_count d) "as_const" ANone ;;;
      ret T_tuple
  | AInt _ | ABool _ | AFloat _ =>
      ret (if dtypes.is_int d then T_int
           else if dtypes.is_float d then T_float else T_bool)
  | _ =>
      if dtypes.is_int d || dtypes.is_float d then raise TypeError else ret T_bool
  end.

(* ================================================================== *)
(** * The rule tables of [spec.py] *)

Section Spec.

Variable env : Env.
Variable F : Facts.

(** [x.shape], read where [x.st is not None]. *)
Definition shapes_of (l : list UOp) : list (list Z) :=
  flat_map (fun x => match st F x with Some t => [shape t] | None => [] end) l.

(** ** [buffer_spec] (lines 6-13) *)

Definition buffer_spec_l7 : Rule :=
  (mkUPat (Some [UNIQUE]) (Some [dtypes.void]) (SrcTuple []) None None false,
   const_rule true).

Definition buffer_spec_l8 : Rule :=
  (mkUPat (Some [DEVICE]) (Some [dtypes.void]) (SrcTuple []) None (Some "device") false,
   on1 "device" (fun device => ret (isinstance_str (arg device)))).

Definition buffer_spec_l9 : Rule :=
  (mkUPat (Some [BUFFER]) None (SrcTuple [UPat_ [DEVICE]; UPat_ [UNIQUE]]) None
          (Some "buf") false,
   on1 "buf" (fun buf =>
     ret (isinstance_int (arg buf)
          && (is_DType (dtype buf) || is_ImageDType (dtype buf))))).

Definition buffer_spec_l11 : Rule :=
  (mkUPat (Some [BUFFER_VIEW]) None (SrcTuple [UPat_ [BUFFER]]) None
          (Some "buf_view") false,
   on1 "buf_view" (fun buf_view =>
     ret (match arg buf_view with
          | ATuple items =>
              (List.length items =? 2)%nat
              && forallb (fun a => isinstance_int a || isinstance_UOp a) items
          | _ => false
          end))).

Definition buffer_spec : PatternMatcher :=
  [buffer_spec_l7; buffer_spec_l8; buffer_spec_l9; buffer_spec_l11].

(** ** [validate_kernel] (lines 15-18) *)

Definition validate_kernel (k : UOp) : M bool :=
  ast <- arg_ast (arg k) ;;
  assert (op_in (op ast) [COPY; BUFFER_VIEW; SINK])
         "must end with SINK/COPY/BUFFER_VIEW" (arg k) ;;;
  (if Ops_eqb (op ast) SINK
   then assert (forallb (fun s => Ops_eqb (op s) STORE) (src ast))
               "SINK must end with STORE" (AUOp ast)
   else ret tt) ;;;
  ret true.

(** ** [assign_spec] (lines 20-27) *)

Definition assign_spec_l22 : Rule :=
  (mkUPat (Some [KERNEL]) None (SrcRepeat (UPat_ [BUFFER; BUFFER_VIEW; ASSIGN])) None
          (Some "k") false,
   on1 "k" validate_kernel).

Definition assign_spec_l25 : Rule :=
  (mkUPat (Some [ASSIGN]) None SrcNone None (Some "x") false,
   on1 "x" (fun x =>
     x0 <- getitem (src x) 0 ;;
     ret (op_in (op (base F x0)) [BUFFER; BUFFER_VIEW]
          && ((List.length (src x) =? 2)%nat
              || forallb (fun s => Ops_eqb (op s) ASSIGN) (skipn 2 (src x)))))).

Definition assign_spec : PatternMatcher := [assign_spec_l22; assign_spec_l25].

(** ** [validate_index] (lines 59-70) *)

(** The test of line 64 on one member of the dependency set. *)
Definition not_statically_bounded (x : UOp) : M bool :=
  if op_in (op x) [DEFINE_VAR; BITCAST] then ret true
  else if Ops_eqb (op x) SPECIAL
       then ys <- arg_tail (arg x) ;;
            ret (existsb (fun y => negb (isinstance_int y)) ys)
       else ret false.

Definition validate_index (idx : UOp) (mask : option UOp) : M bool :=
  if negb (IGNORE_OOB env =? 0) then ret true else
  if (match mask with None => true | Some _ => false end)
     && negb (is_ImageDType (dtype idx))
  then
    dyn <- anyM not_statically_bounded (toposort idx) ;;
    if dyn then ret true else
    off <- getitem (src idx) 1 ;;
    buf <- getitem (src idx) 0 ;;
    sz <- dtype_size (dtype buf) ;;
    if negb (sz =? -1) && ((vmin F off <? 0) || (vmax F off >=? sz))
    then
      (if DEBUG env >=? 1
       then print (OutOfBounds (vmin F off) (vmax F off) sz (render F off))
       else ret tt) ;;;
      ret false
    else ret true
  else ret true.

(** ** [spec] (lines 74-150) *)

Definition DEFINES : list Ops := [DEFINE_GLOBAL; DEFINE_LOCAL].
Definition INDEX_CAST : list Ops := [INDEX; CAST].

Definition spec_l75 : Rule :=
  (mkUPat (Some [DEFINE_GLOBAL]) None SrcNone None (Some "x") false,
   on1 "x" (fun x =>
     if is_PtrDType (dtype x) || is_ImageDType (dtype x)
     then l <- dtype_local (dtype x) ;; ret (negb l)
     else ret false)).

Definition spec_l76 : Rule :=
  (mkUPat (Some [DEFINE_LOCAL]) None SrcNone None (Some "x") false,
   on1 "x" (fun x =>
     if is_PtrDType (dtype x) then dtype_local (dtype x) else ret false)).

Definition spec_l77 : Rule :=
  (mkUPat (Some [DEFINE_ACC]) None (SrcTuple [UPat_var "c"]) None (Some "x") true,
   on2 "x" "c" (fun x c =>
     ret (forallb (fun y => Ops_eqb (op y) RANGE) (skipn 1 (src x))
          && DType_eqb (dtype c) (dtype x)))).

Definition spec_l79 : Rule :=
  (mkUPat (Some [DEFINE_VAR]) None SrcNone None (Some "x") false,
   on1 "x" (fun x =>
     a1 <- arg_getitem (arg x) 1 ;;
     if isinstance_int a1
     then a2 <- arg_getitem (arg x) 2 ;; ret (isinstance_int a2)
     else ret false)).

Definition spec_l81 : Rule :=
  (mkUPat (Some [RANGE]) None (SrcTuple [UPat_var "x"; UPat_var "y"]) None
          (Some "rng") false,
   on3 "rng" "x" "y" (fun rng x y =>
     ret (DType_eqb (dtype rng) (dtype x) && DType_eqb (dtype x) (dtype y)
          && isinstance_int (arg rng)))).

Definition spec_l82 : Rule :=
  (mkUPat (Some [SPECIAL]) None (SrcTuple []) None None false, const_rule true).

Definition spec_l85 : Rule :=
  (mkUPat (Some [VIEW]) (Some [dtypes.void]) (SrcTuple []) None None false,
   const_rule true).

Definition spec_l86 : Rule :=
  (mkUPat (Some [VIEW]) None (SrcTuple [UPat_var "src"]) None (Some "x") false,
   on2 "x" "src" (fun x s =>
     ret (negb (Ops_eqb (op s) STORE)
          && DType_eqb (dtype_base (dtype x)) (dtype_base (dtype s))))).

Definition spec_l88 : Rule :=
  (mkUPat (Some [VALID]) (Some [dtypes.bool]) (SrcTuple [UPat_ [VIEW]]) None None false,
   const_rule true).

Definition spec_l89 : Rule :=
  (mkUPat (Some [CONST]) None SrcNone None (Some "x") false,
   on1 "x" (fun x =>
     t <- as_const_type (arg x) (dtype x) ;;
     ret (PyType_beq (type_of (arg x)) t))).

Definition spec_l92 : Rule :=
  (mkUPat (Some [LOAD]) None (SrcTuple [UPat_ DEFINES; UPat_ [VIEW]]) None None false,
   const_rule true).

Definition spec_l93 : Rule :=
  (mkUPat (Some [LOAD]) None (SrcTuple [UPat_ DEFINES; UPat_ [VIEW]; UPat_ [STORE]])
          None None false,
   const_rule true).

Definition spec_l96 : Rule :=
  (mkUPat (Some [STORE]) None (SrcTuple [UPat_ DEFINES; UPat_ [VIEW]; UPat_any])
          None None false,
   const_rule true).

Definition spec_l102 : Rule :=
  (mkUPat (Some [INDEX]) None (SrcTuple [UPat_ DEFINES; UPat_any]) None
          (Some "idx") false,
   on1 "idx" (fun idx => validate_index idx None)).

Definition spec_l103 : Rule :=
  (mkUPat (Some [INDEX]) None
          (SrcTuple [UPat_ DEFINES; UPat_any;
                     mkUPat None (Some [dtypes.bool]) SrcNone None (Some "mask") false])
          None (Some "idx") false,
   on2 "idx" "mask" (fun idx mask => validate_index idx (Some mask))).

Definition spec_l106 : Rule :=
  (mkUPat (Some [LOAD]) None (SrcTuple [UPat_ INDEX_CAST]) None None false,
   const_rule true).

Definition spec_l107 : Rule :=
  (mkUPat (Some [LOAD]) None (SrcTuple [UPat_ INDEX_CAST; UPat_ [IF; BARRIER]])
          None None false,
   const_rule true).

Definition spec_l108 : Rule :=
  (mkUPat (Some [LOAD]) None (SrcTuple [UPat_ INDEX_CAST; UPat_var "alt"]) None
          (Some "ld") false,
   on2 "ld" "alt" (fun ld alt => ret (DType_eqb (dtype ld) (dtype alt)))).

Definition spec_l111 : Rule :=
  (mkUPat (Some [STORE]) (Some [dtypes.void]) (SrcTuple [UPat_ INDEX_CAST; UPat_any])
          None None false,
   const_rule true).

Definition spec_l112 : Rule :=
  (mkUPat (Some [STORE]) (Some [dtypes.void])
          (SrcTuple [UPat_ INDEX_CAST; UPat_any; UPat_dtype dtypes.bool])
          None None false,
   const_rule true).

Definition spec_l113 : Rule :=
  (mkUPat (Some [STORE]) (Some [dtypes.void])
          (SrcTuple [UPat_ INDEX_CAST; UPat_any; UPat_ [IF]])
          None None false,
   const_rule true).

Definition spec_l116 : Rule :=
  (mkUPat (Some [WHERE]) None
          (SrcTuple [UPat_dtype dtypes.bool; UPat_var "x"; UPat_var "y"])
          None (Some "w") false,
   on3 "w" "x" "y" (fun w x y =>
     ret (DType_eqb (dtype w) (dtype x) && DType_eqb (dtype x) (dtype y)))).

Definition spec_l117 : Rule :=
  (mkUPat (Some [CMPLT; CMPNE]) (Some [dtypes.bool])
          (SrcTuple [UPat_var "x"; UPat_var "y"]) None None false,
   on2 "x" "y" (fun x y =>
     ret (DType_eqb (dtype_base (dtype x)) (dtype_base (dtype y))))).

Definition spec_l119 : Rule :=
  (mkUPat (Some [SHL; SHR]) None (SrcTuple [UPat_var "x"; UPat_var "y"]) None
          (Some "a") false,
   on3 "a" "x" "y" (fun a x y =>
     ret (DType_eqb (dtype a) (dtype x)
          && dtype_in (dtype y) [dtype x; dtypes.uint]))).

Definition spec_l120 : Rule :=
  (mkUPat (Some [IDIV; MOD]) None SrcNone None (Some "x") false,
   fun s => x <- capture s "x" ;;
            ret (if dtypes.is_int (dtype x) then None else Some false)).

Definition spec_l121 : Rule :=
  (mkUPat (Some GroupOp.ALU) None SrcNone None (Some "x") false,
   on1 "x" (fun x =>
     ret (forallb (fun y => DType_eqb (dtype_base (dtype x)) (dtype_base (dtype y)))
                  (src x)))).

Definition spec_l123 : Rule :=
  (mkUPat (Some [ASSIGN]) None (SrcTuple [UPat_ [DEFINE_ACC; DEFINE_GLOBAL]; UPat_any])
          None None false,
   const_rule true).

Definition spec_l124 : Rule :=
  (mkUPat (Some [ENDRANGE]) (Some [dtypes.void]) (SrcTuple [UPat_ [RANGE]]) None None false,
   const_rule true).

Definition spec_l127 : Rule :=
  (mkUPat (Some [WMMA]) None (SrcTuple [UPat_any; UPat_any; UPat_any]) None
          (Some "x") false,
   on1 "x" (fun x =>
     ret (match arg x with
          | ATuple items => (List.length items =? 8)%nat
          | _ => false
          end))).

(** [prod(y[1] for y in a)] *)
Definition prod_of_counts (a : Arg) : M Z :=
  ys <- arg_items a ;;
  cs <- mapM (fun y => c <- arg_getitem y 1 ;; arg_int c) ys ;;
  ret (prod cs).

Definition spec_l128 : Rule :=
  (mkUPat (Some [CONTRACT]) None SrcNone None (Some "x") false,
   on1 "x" (fun x =>
     p <- prod_of_counts (arg x) ;; ret (dtype_count (dtype x) =? p))).

Definition spec_l129 : Rule :=
  (mkUPat (Some [UNROLL]) None SrcNone None (Some "x") false,
   on1 "x" (fun x =>
     x0 <- getitem (src x) 0 ;;
     p <- prod_of_counts (arg x) ;; ret (dtype_count (dtype x0) =? p))).

Definition spec_l132 : Rule :=
  (mkUPat (Some [IF]) (Some [dtypes.void]) (SrcTuple [UPat_any]) None None false,
   const_rule true).

Definition spec_l133 : Rule :=
  (mkUPat (Some [IF]) (Some [dtypes.void]) (SrcTuple [UPat_any; UPat_ [BARRIER]])
          None None false,
   const_rule true).

Definition spec_l134 : Rule :=
  (mkUPat (Some [ENDIF]) (Some [dtypes.void]) (SrcTuple [UPat_ [IF]]) None None false,
   const_rule true).

Definition spec_l136 : Rule :=
  (mkUPat (Some [REDUCE_AXIS]) None SrcNone None (Some "x") false,
   on1 "x" (fun x =>
     ret (match arg x with
          | ATuple items =>
              (2 <=? List.length items)%nat
              && match items with
                 | AOps o :: _ => op_in o [ADD; MUL; MAX]
                 | _ => false
                 end
          | _ => false
          end))).

Definition spec_l137 : Rule :=
  (mkUPat (Some [GEP]) None (SrcTuple [UPat_var "src"]) None (Some "gep") false,
   on2 "gep" "src" (fun gep s =>
     ret (DType_eqb (dtype gep) (dtype_scalar (dtype s))))).

Definition spec_l138 : Rule :=
  (mkUPat (Some [VECTORIZE]) None SrcNone None (Some "x") false,
   on1 "x" (fun x =>
     let n := List.length (src x) in
     if (1 <? n)%nat && (Z.of_nat n =? dtype_count (dtype x))
     then allM (fun y => v <- dtype_vec (dtype y) (Z.of_nat n) ;;
                         ret (DType_eqb (dtype x) v)) (src x)
     else ret false)).

Definition spec_l139 : Rule :=
  (mkUPat (Some [BITCAST; CAST]) None (SrcTuple [UPat_any]) None (Some "x") false,
   on1 "x" (fun x => ret (is_None (arg x)))).

Definition spec_l140 : Rule :=
  (mkUPat (Some [BARRIER]) (Some [dtypes.void])
          (SrcRepeat (mkUPat (Some [STORE]) None SrcNone None None true))
          None None false,
   const_rule true).

Definition spec_l141 : Rule :=
  (mkUPat (Some [BARRIER]) (Some [dtypes.void]) SrcNone None None false,
   const_rule true).

Definition spec_l145 : Rule :=
  (mkUPat (Some [SINK]) (Some [dtypes.void]) SrcNone None None false,
   const_rule true).

Definition spec_l146 : Rule :=
  (UPat_ [NOOP; CUSTOMI; CUSTOM], const_rule true).

Definition spec_l149 : Rule :=
  (mkUPat (Some [LOAD; STORE]) None (SrcTuple [UPat_dtype dtypes.int64]) None None true,
   const_rule true).

Definition spec : PatternMatcher :=
  [spec_l75; spec_l76; spec_l77; spec_l79; spec_l81; spec_l82; spec_l85;
   spec_l86; spec_l88; spec_l89; spec_l92; spec_l93; spec_l96; spec_l102;
   spec_l103; spec_l106; spec_l107; spec_l108; spec_l111; spec_l112;
   spec_l113; spec_l116; spec_l117; spec_l119; spec_l120; spec_l121;
   spec_l123; spec_l124; spec_l127; spec_l128; spec_l129; spec_l132;
   spec_l133; spec_l134; spec_l136; spec_l137; spec_l138; spec_l139;
   spec_l140; spec_l141; spec_l145; spec_l146; spec_l149].

(** ** [sched_spec] (lines 154-156) *)

Definition sched_spec_l155 : Rule :=
  (UPat_ (GroupOp.All_minus [SINK]), const_rule false).

Definition sched_spec : PatternMatcher :=
  buffer_spec ++ assign_spec ++ [sched_spec_l155].

(** ** [verify_sink_dims] and [shape_spec] (lines 160-169) *)

(** [[x.shape for x in sink.toposort if x.op is not Ops.SINK and x.st is not None]] *)
Definition sink_shapes (sink : UOp) : list (list Z) :=
  shapes_of (filter (fun x => negb (Ops_eqb (op x) SINK)) (toposort sink)).

Definition verify_sink_dims (sink : UOp) : bool :=
  let shape_dims :=
    map (fun dims => sorted (dedup dims)) (zip_star (sink_shapes sink)) in
  all_same Z.eqb (map (fun x => size (st_arg F x)) (src sink))
  && forallb (fun x => (List.length x =? 1)%nat
                       || ((List.length x =? 2)%nat
                           && match x with x0 :: _ => x0 =? 1 | [] => false end))
             shape_dims.

Definition shape_spec_l166 : Rule :=
  (mkUPat (Some [SINK]) None (SrcRepeat (UPat_ [STORE])) None (Some "sink") false,
   on1 "sink" (fun sink => ret (verify_sink_dims sink))).

Definition shape_spec_l168 : Rule :=
  (mkUPat (Some (GroupOp.All_minus [SINK])) None SrcNone None (Some "root") false,
   on1 "root" (fun root => ret (all_same Zlist_eqb (shapes_of (src root))))).

Definition shape_spec : PatternMatcher := [shape_spec_l166; shape_spec_l168].

(** ** [type_verify] (lines 173-179) *)

Definition is_False (ret : option bool) : bool :=
  match ret with Some false => true | _ => false end.

Definition is_abstain (ret : option bool) : bool :=
  match ret with None => true | _ => false end.

(** What line 179 reports about node [u] at position [i]. *)
Definition failure_of (i : nat) (u : UOp) : Failure :=
  mkFailure i (op u) (dtype u) (List.length (src u)) (map op (src u)) (arg u).

(** The loop of [type_verify] over the nodes from position [i] on. *)
Fixpoint type_verify_from (specs : list PatternMatcher) (uops : list UOp)
    (i : nat) (rest : list UOp) : M unit :=
  match rest with
  | [] => ret tt
  | u :: rest' =>
      spec_ret <- mapM (fun s => rewrite s u) specs ;;
      if existsb is_False spec_ret || forallb is_abstain spec_ret
      then
        (if DEBUG env >=? 3 then print (PrintUops uops) else ret tt) ;;;
        raise (RuntimeError (failure_of i u))
      else type_verify_from specs uops (S i) rest'
  end.

Definition type_verify (uops : list UOp) (extra_specs : list PatternMatcher) : M unit :=
  type_verify_from (spec :: extra_specs) uops 0 uops.

End Spec.

(* ================================================================== *)
(** * The tensor-level rule table of [spec.py] *)

(** Modelled from the spec: one layer of a shape descriptor (a [View] of
    tinygrad's shape tracker, not under src/), as far as line 45 reads it:
    the strides and the mask, [None] when the layer is unmasked. *)
Record View : Type := mkView {
  strides : list Z;
  mask : option (list (Z * Z))
}.

Section TensorSpec.

Variable F : Facts.

(** Modelled from the spec: the layers [st.st.views] of the shape
    descriptor of a VIEW node (a property of [tinygrad.ops.UOp], not under
    src/). *)
Variable st_views : UOp -> list View.

(** Modelled from the spec: the pattern [UPat.cvar(dtype=dtypes.int)] of an
    integer constant ([tinygrad.ops], not under src/), taken as it comes. *)
Variable cvar_int : UPat.

(** ** [tensor_uop_spec] (lines 31-55) *)

Definition tensor_uop_spec_l32 : Rule :=
  (mkUPat (Some GroupOp.Movement) None (SrcTuple [UPat_var "x"]) None (Some "mv") false,
   on2 "mv" "x" (fun mv x =>
     ret ((isinstance_tuple (arg mv) && DType_eqb (dtype mv) (dtype x))
          || ((is_ImageDType (dtype mv) || is_ImageDType (dtype x))
              && DType_eqb (dtype_base (dtype x)) (dtype_base (dtype mv))
              && Ops_eqb (op (base F x)) BUFFER)))).

Definition tensor_uop_spec_l38 : Rule :=
  (mkUPat (Some [VIEW]) None
          (SrcTuple [UPat_ (GroupOp.All_minus [BUFFER; BUFFER_VIEW; ASSIGN; CONST; DEVICE])])
          None None false,
   const_rule false).

Definition tensor_uop_spec_l41 : Rule :=
  (mkUPat (Some [BIND]) (Some [dtypes.int]) (SrcTuple [UPat_ [DEFINE_VAR]; cvar_int])
          None None false,
   const_rule true).

Definition tensor_uop_spec_l44 : Rule :=
  (mkUPat (Some [CONST]) None
          (SrcTuple [mkUPat (Some [VIEW]) None (SrcTuple [UPat_ [DEVICE]]) None
                            (Some "st") false])
          None None false,
   on1 "st" (fun st =>
     v0 <- getitem (st_views st) 0 ;;
     ret ((match mask v0 with None => true | Some _ => false end)
          && (List.length (st_views st) =? 1)%nat
          && forallb (fun s => s =? 0) (strides v0)))).

Definition tensor_uop_spec_l49 : Rule :=
  (mkUPat (Some [DETACH; CONTIGUOUS; CONTIGUOUS_BACKWARD; FUSE]) None
          (SrcTuple [UPat_var "x"]) None (Some "root") false,
   on2 "root" "x" (fun root x => ret (DType_eqb (dtype root) (dtype x)))).

Definition tensor_uop_spec_l54 : Rule :=
  (mkUPat (Some [COPY]) None (SrcTuple [UPat_ [DEVICE]; UPat_var "x"]) None
          (Some "copy") false,
   on2 "copy" "x" (fun copy x =>
     ret (isinstance_bool (arg copy) && DType_eqb (dtype copy) (dtype x)))).

Definition tensor_uop_spec : PatternMatcher :=
  buffer_spec ++ assign_spec F
  ++ [tensor_uop_spec_l32; tensor_uop_spec_l38; tensor_uop_spec_l41;
      tensor_uop_spec_l44; tensor_uop_spec_l49; tensor_uop_spec_l54].

End TensorSpec.

(* ================================================================== *)
(** * Vocabulary of the statements *)

(** The rules of a table whose pattern allows operator [o]. *)
Definition rules_for (o : Ops) (pm : PatternMatcher) : PatternMatcher :=
  filter (fun r => upat_op_ok (fst r) o) pm.

(** Rule set [s] returns the verdict [v] on node [u]: accept is
    [Some true], reject is [Some false], abstain is [None]. *)
Definition verdict (s : PatternMatcher) (u : UOp) (v : option bool) : Prop :=
  snd (rewrite s u) = Ret v.

Definition accepts (s : PatternMatcher) (u : UOp) : Prop := verdict s u (Some true).
Definition rejects (s : PatternMatcher) (u : UOp) : Prop := verdict s u (Some false).
Definition abstains (s : PatternMatcher) (u : UOp) : Prop := verdict s u None.

(** The operators that the scheduler-graph rule set can accept. *)
Definition sched_accepted_ops : list Ops :=
  [UNIQUE; DEVICE; BUFFER; BUFFER_VIEW; KERNEL; ASSIGN].

(** The argument of a BUFFER_VIEW that line 12 asks for: a tuple of two
    elements, each an [int] or a node. *)
Definition is_pair_of_int_or_node (a : Arg) : bool :=
  match a with
  | ATuple [x; y] =>
      (isinstance_int x || isinstance_UOp x) && (isinstance_int y || isinstance_UOp y)
  | _ => false
  end.

(** The one case in which a LOAD whose first source is an INDEX or CAST is
    turned down by line 108: exactly two sources, the second neither IF nor
    BARRIER, and of another value type than the LOAD. *)
Definition load_alt_mismatch (u : UOp) : bool :=
  match op u, src u with
  | LOAD, [s0; alt] =>
      op_in (op s0) INDEX_CAST
      && negb (op_in (op alt) [IF; BARRIER])
      && negb (DType_eqb (dtype u) (dtype alt))
  | _, _ => false
  end.

(** The kernel descriptor passes both assertions of [validate_kernel]. *)
Definition kernel_root_ok (ast : UOp) : Prop :=
  In (op ast) [COPY; BUFFER_VIEW; SINK].

Definition kernel_stores_ok (ast : UOp) : Prop :=
  op ast = SINK -> Forall (fun s => op s = STORE) (src ast).

(** A member of a dependency set that keeps the bounds check of line 64
    from bounding the offset: a DEFINE_VAR, a BITCAST, or a SPECIAL whose
    argument has a component after the first that is not an [int]. *)
Definition dynamic_dep (x : UOp) : Prop :=
  op x = DEFINE_VAR \/ op x = BITCAST
  \/ (op x = SPECIAL
      /\ exists items y, arg x = ATuple items /\ In y (tl items)
                         /\ isinstance_int y = false).

Definition dynamic_depb (x : UOp) : bool :=
  op_in (op x) [DEFINE_VAR; BITCAST]
  || (Ops_eqb (op x) SPECIAL
      && match arg x with
         | ATuple items => existsb (fun y => negb (isinstance_int y)) (tl items)
         | _ => false
         end).

(** Every SPECIAL node of the dependency set carries a tuple argument (its
    name and its extent), so that line 64 can slice it. *)
Definition special_args_are_tuples (idx : UOp) : Prop :=
  forall x, In x (toposort idx) -> op x = SPECIAL ->
            exists items, arg x = ATuple items.

(** A node fails under the active rule sets: some set rejects it, or every
    set abstains on it. *)
Definition node_fails (specs : list PatternMatcher) (u : UOp) : Prop :=
  (exists s, In s specs /\ rejects s u)
  \/ (forall s, In s specs -> abstains s u).

(** [i] is the first position of the list whose node fails. *)
Definition first_failure (specs : list PatternMatcher) (uops : list UOp)
    (i : nat) : Prop :=
  exists u, nth_error uops i = Some u
            /\ node_fails specs u
            /\ forall j v, (j < i)%nat -> nth_error uops j = Some v ->
                           ~ node_fails specs v.

(** Every active rule set returns a verdict on every node of the list: no
    predicate raises. *)
Definition all_judged (specs : list PatternMatcher) (uops : list UOp) : Prop :=
  forall u s, In u uops -> In s specs -> exists v, verdict s u v.

(** The sizes found at dimension [k] in a list of shapes. *)
Definition sizes_at (k : nat) (shapes : list (list Z)) : list Z :=
  map (fun sh => nth k sh 0) shapes.

(** Dimension [k] exists in every shape of the list. *)
Definition common_dim (k : nat) (shapes : list (list Z)) : Prop :=
  forall sh, In sh shapes -> (k < List.length sh)%nat.

(** The sizes of a list are all the same: one distinct size. *)
Definition one_size (l : list Z) : Prop :=
  exists n, forall x, In x l -> x = n.

(** The sizes of a list are 1 and one larger size [n], both present: two
    distinct sizes, the smaller of which is 1. *)
Definition one_and_n (l : list Z) : Prop :=
  exists n, 1 < n /\ In 1 l /\ In n l /\ forall x, In x l -> x = 1 \/ x = n.

(** Every active rule set returns a verdict on each of the first [n] nodes
    of the list. *)
Definition judged_before (specs : list PatternMatcher) (uops : list UOp)
    (n : nat) : Prop :=
  forall j v s, (j < n)%nat -> nth_error uops j = Some v -> In s specs ->
                exists w, verdict s v w.

(** The operators on which a predicate of the low-level op rule set can
    raise: it indexes or iterates the argument (DEFINE_VAR, CONTRACT,
    UNROLL), indexes the sources (UNROLL, INDEX), or calls into the value
    type library (CONST, VECTORIZE, INDEX). *)
Definition spec_may_raise : list Ops :=
  [DEFINE_VAR; CONST; CONTRACT; UNROLL; VECTORIZE; INDEX].

(** A node passes under the active rule sets: some set accepts it and no
    set rejects it. *)
Definition node_passes (specs : list PatternMatcher) (u : UOp) : Prop :=
  (exists s, In s specs /\ accepts s u)
  /\ (forall s, In s specs -> ~ rejects s u).

(** The generic test of line 121: every source has the base value type of
    the node. *)
Definition alu_dtypes_agree (u : UOp) : bool :=
  forallb (fun y => DType_eqb (dtype_base (dtype u)) (dtype_base (dtype y))) (src u).

(** The argument of a CONTRACT or UNROLL: a tuple of pairs of an axis and
    a count. *)
Definition axis_arg (pairs : list (Z * Z)) : Arg :=
  ATuple (map (fun p => ATuple [AInt (fst p); AInt (snd p)]) pairs).

(* ================================================================== *)
(** * Example inputs *)

Definition env_plain : Env := mkEnv 0 0.
Definition env_debug : Env := mkEnv 0 1.
Definition env_ignore_oob : Env := mkEnv 1 0.

Definition arg_ints (items : list Arg) : list Z :=
  map (fun a => match a with AInt z => z | _ => 0 end) items.

(** Facts for the examples: a CONST ranges over its value, a SPECIAL with
    argument [(name, n)] over [0 .. n-1].  The shape descriptors are derived
    as the node properties derive them on graphs like the examples: a VIEW
    has the shape its argument lists; a LOAD, a STORE or a VALID has the
    shape descriptor of its VIEW source; any other node has the shape of its
    first shaped source, and none when no source is shaped. *)
Definition ex_vmin (u : UOp) : Z :=
  match op u, arg u with
  | CONST, AInt z => z
  | _, _ => 0
  end.

Definition ex_vmax (u : UOp) : Z :=
  match op u, arg u with
  | CONST, AInt z => z
  | SPECIAL, ATuple [_; AInt n] => n - 1
  | _, _ => 0
  end.

Definition ex_view_st (u : UOp) : option ShapeTracker :=
  match op u, arg u with
  | VIEW, ATuple dims => Some (mkShapeTracker (arg_ints dims) (prod (arg_ints dims)))
  | _, _ => None
  end.

Fixpoint ex_st (u : UOp) : option ShapeTracker :=
  match u with
  | mkUOp o _ s _ =>
      match o with
      | VIEW => ex_view_st u
      | LOAD | STORE | VALID =>
          match filter (fun x => Ops_eqb (op x) VIEW) s with
          | v :: _ => ex_view_st v
          | [] => None
          end
      | _ =>
          (fix first_shaped (l : list UOp) : option ShapeTracker :=
             match l with
             | [] => None
             | x :: l' =>
                 match ex_st x with
                 | Some t => Some t
                 | None => first_shaped l'
                 end
             end) s
      end
  end.

Definition ex_st_arg (u : UOp) : ShapeTracker :=
  match ex_st u with
  | Some t => t
  | None => mkShapeTracker [] 1
  end.

Definition ex_facts : Facts :=
  mkFacts ex_vmin ex_vmax (fun _ => "idx") ex_st ex_st_arg (fun u => u).

Definition ptr_float4 : DType := PtrDT dtypes.float32 false 1 4.

Definition ex_device : UOp := mkUOp DEVICE dtypes.void [] (AStr "cpu").
Definition ex_unique : UOp := mkUOp UNIQUE dtypes.void [] (AInt 0).
Definition ex_buffer : UOp :=
  mkUOp BUFFER dtypes.float32 [ex_device; ex_unique] (AInt 4).
Definition ex_buffer_view : UOp :=
  mkUOp BUFFER_VIEW dtypes.float32 [ex_buffer] (ATuple [AInt 2; AInt 0]).
(** A BUFFER over a device and a unique id, with a string argument. *)
Definition ex_buffer_str : UOp :=
  mkUOp BUFFER dtypes.float32 [ex_device; ex_unique] (AStr "x").
(** A BUFFER without sources and with a string argument. *)
Definition ex_bare_buffer : UOp := mkUOp BUFFER dtypes.float32 [] (AStr "x").
(** A BUFFER_VIEW without sources and with a 3-tuple argument. *)
Definition ex_bare_buffer_view : UOp :=
  mkUOp BUFFER_VIEW dtypes.float32 [] (ATuple [AInt 1; AInt 2; AInt 3]).

Definition ex_noop : UOp := mkUOp NOOP dtypes.void [] ANone.
Definition ex_add : UOp := mkUOp ADD dtypes.float32 [] ANone.
Definition ex_sink_empty : UOp := mkUOp SINK dtypes.void [] ANone.
(** A KERNEL over a buffer whose descriptor has an ADD at its root. *)
Definition ex_kernel_add : UOp :=
  mkUOp KERNEL dtypes.void [ex_buffer] (AKernel ex_add).
(** A KERNEL whose descriptor is an empty SINK. *)
Definition ex_kernel_sink : UOp :=
  mkUOp KERNEL dtypes.void [ex_buffer] (AKernel ex_sink_empty).

Definition ex_global : UOp := mkUOp DEFINE_GLOBAL ptr_float4 [] (AInt 0).
Definition ex_const5 : UOp := mkUOp CONST dtypes.int32 [] (AInt 5).
Definition ex_const2 : UOp := mkUOp CONST dtypes.int32 [] (AInt 2).
Definition ex_special : UOp :=
  mkUOp SPECIAL dtypes.int32 [] (ATuple [AStr "gidx0"; AInt 16]).
Definition ex_define_var : UOp :=
  mkUOp DEFINE_VAR dtypes.int32 [] (ATuple [AStr "n"; AInt 0; AInt 8]).
(** A DEFINE_GLOBAL that has a DEFINE_VAR among its sources. *)
Definition ex_global_dep : UOp :=
  mkUOp DEFINE_GLOBAL ptr_float4 [ex_define_var] (AInt 0).

(** Offset 5 into a buffer of 4 elements. *)
Definition ex_index_oob : UOp := mkUOp INDEX ptr_float4 [ex_global; ex_const5] ANone.
(** Offset 2 into a buffer of 4 elements. *)
Definition ex_index_ok : UOp := mkUOp INDEX ptr_float4 [ex_global; ex_const2] ANone.
(** Offset [gidx0] in [0 .. 15] into a buffer of 4 elements. *)
Definition ex_index_special : UOp :=
  mkUOp INDEX ptr_float4 [ex_global; ex_special] ANone.
(** Offset 5 into a buffer of 4 elements whose node depends on a DEFINE_VAR. *)
Definition ex_index_dep : UOp :=
  mkUOp INDEX ptr_float4 [ex_global_dep; ex_const5] ANone.

Definition ex_view (sh : list Z) : UOp :=
  mkUOp VIEW dtypes.void [] (ATuple (map AInt sh)).
Definition ex_load (sh : list Z) : UOp :=
  mkUOp LOAD dtypes.float32 [ex_global; ex_view sh] ANone.
Definition ex_store (sh : list Z) (val : UOp) : UOp :=
  mkUOp STORE dtypes.void [ex_global; ex_view sh; val] ANone.
Definition ex_sink (stores : list UOp) : UOp := mkUOp SINK dtypes.void stores ANone.

(** Shapes (4,1) and (4,3): a broadcast. *)
Definition ex_sink_broadcast : UOp := ex_sink [ex_store [4; 3] (ex_load [4; 1])].
(** Shapes (1) and (0). *)
Definition ex_sink_zero : UOp := ex_sink [ex_store [1] (ex_load [0])].
(** A STORE of shape (2,3) over a STORE of shape (2,5) over a STORE of
    shape (2): each takes its shape from its own VIEW source. *)
Definition ex_sink_ranks : UOp :=
  ex_sink [ex_store [2; 3] (ex_store [2; 5] (ex_store [2] ex_noop))].

(** A void BARRIER after a NOOP, and a float BARRIER without sources. *)
Definition ex_barrier_noop : UOp := mkUOp BARRIER dtypes.void [ex_noop] ANone.
Definition ex_barrier_float : UOp := mkUOp BARRIER dtypes.float32 [] ANone.

(** [int32 << uint8] and [int32 << uint32]. *)
Definition ex_x_int32 : UOp := mkUOp CONST dtypes.int32 [] (AInt 1).
Definition ex_y_uint8 : UOp := mkUOp CONST dtypes.uint8 [] (AInt 3).
Definition ex_y_uint32 : UOp := mkUOp CONST dtypes.uint32 [] (AInt 3).
Definition ex_shl_uint8 : UOp := mkUOp SHL dtypes.int32 [ex_x_int32; ex_y_uint8] ANone.
Definition ex_shl_uint32 : UOp := mkUOp SHL dtypes.int32 [ex_x_int32; ex_y_uint32] ANone.

(** A float LOAD through an address cast to int64, with an int32 second
    source; and a STORE through the same address. *)
Definition ex_addr : UOp := mkUOp CAST dtypes.int64 [ex_index_ok] ANone.
Definition ex_load_ptx_mismatch : UOp :=
  mkUOp LOAD dtypes.float32 [ex_addr; ex_x_int32] ANone.
Definition ex_store_ptx : UOp :=
  mkUOp STORE dtypes.float32 [ex_addr; ex_x_int32; ex_noop; ex_noop] ANone.

(** A WHERE whose branches have the value types int32 and float32. *)
Definition ex_cond : UOp := mkUOp CONST dtypes.bool [] (ABool true).
Definition ex_float : UOp := mkUOp CONST dtypes.float32 [] (AFloat "1.0").
Definition ex_where : UOp :=
  mkUOp WHERE dtypes.int32 [ex_cond; ex_x_int32; ex_float] ANone.

(** The node list of a buffer, followed by a BUFFER without sources. *)
Definition ex_uops : list UOp := [ex_device; ex_unique; ex_buffer; ex_bare_buffer].

(** Nodes on which a predicate of the low-level op rule set raises. *)
Definition ex_define_var_none : UOp := mkUOp DEFINE_VAR dtypes.int32 [] ANone.
Definition ex_const_none : UOp := mkUOp CONST dtypes.int32 [] ANone.
Definition ex_contract_none : UOp := mkUOp CONTRACT dtypes.float32 [] ANone.
Definition ex_unroll_empty : UOp := mkUOp UNROLL dtypes.float32 [] (ATuple []).
Definition ex_float2 : UOp := mkUOp NOOP (DT n_float32 2) [] ANone.
Definition ex_vectorize_vec : UOp :=
  mkUOp VECTORIZE (DT n_float32 2) [ex_float2; ex_float2] ANone.
(** A DEFINE_GLOBAL whose value type is not a pointer, and an INDEX into it. *)
Definition ex_global_plain : UOp := mkUOp DEFINE_GLOBAL dtypes.float32 [] (AInt 0).
Definition ex_index_plain : UOp :=
  mkUOp INDEX ptr_float4 [ex_global_plain; ex_const5] ANone.

(** Inputs of the per-operator statements. *)
Definition ex_assign : UOp := mkUOp ASSIGN dtypes.float32 [ex_buffer; ex_noop] ANone.
Definition ex_index_gated : UOp :=
  mkUOp INDEX ptr_float4 [ex_global; ex_const5; ex_cond] ANone.
Definition ex_index_one : UOp := mkUOp INDEX ptr_float4 [ex_global] ANone.
(** A gate of four bool lanes, and an out-of-range INDEX gated by it. *)
Definition ex_mask_vec : UOp := mkUOp NOOP (DT n_bool 4) [] ANone.
Definition ex_index_gated_vec : UOp :=
  mkUOp INDEX ptr_float4 [ex_global; ex_const5; ex_mask_vec] ANone.
Definition ex_store_two : UOp := ex_store [2] ex_noop.
Definition ex_store_three : UOp := ex_store [3] ex_noop.
Definition ex_sink_sizes : UOp := ex_sink [ex_store_two; ex_store_three].
Definition ex_cmplt : UOp := mkUOp CMPLT dtypes.bool [ex_x_int32; ex_const5] ANone.
(** Four lanes: a WHERE under a condition of four bool lanes, a comparison
    with four bool lanes, and a float STORE through two int64 addresses. *)
Definition ex_float4 : UOp := mkUOp NOOP (DT n_float32 4) [] ANone.
Definition ex_where_vec : UOp :=
  mkUOp WHERE (DT n_float32 4) [ex_mask_vec; ex_float4; ex_float4] ANone.
Definition ex_cmplt_vec : UOp :=
  mkUOp CMPLT (DT n_bool 4) [ex_float4; ex_float4] ANone.
Definition ex_addr_vec : UOp := mkUOp NOOP (DT n_int64 2) [] ANone.
Definition ex_store_addr_vec : UOp :=
  mkUOp STORE dtypes.float32 [ex_addr_vec; ex_x_int32] ANone.
Definition ex_idiv_float : UOp := mkUOp IDIV dtypes.float32 [ex_float; ex_float] ANone.
Definition ex_load_alt : UOp := mkUOp LOAD dtypes.float32 [ex_index_ok; ex_x_int32] ANone.
Definition ex_local : UOp := mkUOp DEFINE_LOCAL ptr_float4 [] (AInt 0).
Definition ex_define_acc : UOp := mkUOp DEFINE_ACC dtypes.float32 [ex_float] ANone.
Definition ex_if : UOp := mkUOp IF dtypes.void [ex_cond] ANone.
Definition ex_vectorize_one : UOp := mkUOp VECTORIZE (DT n_float32 2) [ex_float] ANone.
Definition ex_contract : UOp :=
  mkUOp CONTRACT (DT n_float32 4) [] (axis_arg [(0, 2); (1, 2)]).
Definition ex_view_noop : UOp := mkUOp VIEW dtypes.void [ex_noop] (ATuple []).
Definition ex_st_views (u : UOp) : list View := [mkView [0] None].
Definition ex_cvar_int : UPat :=
  mkUPat (Some [CONST; VCONST]) (Some [dtypes.int]) SrcNone None None false.

(* ================================================================== *)
(** * Basic facts about the model *)

Lemma Ops_eqb_eq (a b : Ops) : Ops_eqb a b = true <-> a = b.
Proof.
  split.
  - apply internal_Ops_dec_bl.
  - apply internal_Ops_dec_lb.
Qed.

Lemma Ops_eqb_refl (a : Ops) : Ops_eqb a a = true.
Proof. apply Ops_eqb_eq; reflexivity. Qed.

Lemma Ops_eqb_neq (a b : Ops) : Ops_eqb a b = false <-> a <> b.
Proof.
  split.
  - intros H E. apply Ops_eqb_eq in E. congruence.
  - intros H. destruct (Ops_eqb a b) eqn:E; [|reflexivity].
    apply Ops_eqb_eq in E. contradiction.
Qed.

Lemma op_in_In (o : Ops) (l : list Ops) : op_in o l = true <-> In o l.
Proof.
  unfold op_in. rewrite existsb_exists. split.
  - intros [x [Hx E]]. apply Ops_eqb_eq in E. subst. exact Hx.
  - intros H. exists o. split; [exact H | apply Ops_eqb_refl].
Qed.

Lemma Zlist_eqb_eq (a b : list Z) : Zlist_eqb a b = true <-> a = b.
Proof.
  revert b. induction a as [|x a IH]; intros [|y b]; simpl;
    try (split; [discriminate | discriminate]); [tauto|].
  rewrite andb_true_iff, Z.eqb_eq, IH. split.
  - intros [-> ->]. reflexivity.
  - intros E. inversion E. auto.
Qed.

Lemma ScalarName_beq_eq (a b : ScalarName) : ScalarName_beq a b = true <-> a = b.
Proof.
  split.
  - apply internal_ScalarName_dec_bl.
  - apply internal_ScalarName_dec_lb.
Qed.

Lemma DType_eqb_eq (a b : DType) : DType_eqb a b = true <-> a = b.
Proof.
  revert b. induction a as [n c | a IH l v s | a IH l v s h]; intros [n2 c2 | b l2 v2 s2 | b l2 v2 s2 h2];
    simpl; try (split; [discriminate | discriminate]).
  - rewrite andb_true_iff, ScalarName_beq_eq, Z.eqb_eq. split.
    + intros [-> ->]. reflexivity.
    + intros E. inversion E. auto.
  - rewrite !andb_true_iff, IH, Bool.eqb_true_iff, !Z.eqb_eq. split.
    + intros [[[-> ->] ->] ->]. reflexivity.
    + intros E. inversion E. auto.
  - rewrite !andb_true_iff, IH, Bool.eqb_true_iff, !Z.eqb_eq, Zlist_eqb_eq. split.
    + intros [[[[-> ->] ->] ->] ->]. reflexivity.
    + intros E. inversion E. auto 6.
Qed.

Lemma DType_eqb_refl (a : DType) : DType_eqb a a = true.
Proof. apply DType_eqb_eq; reflexivity. Qed.

Lemma DType_eqb_neq (a b : DType) : DType_eqb a b = false <-> a <> b.
Proof.
  split.
  - intros H E. apply DType_eqb_eq in E. congruence.
  - intros H. destruct (DType_eqb a b) eqn:E; [|reflexivity].
    apply DType_eqb_eq in E. contradiction.
Qed.

(** The identity test of the pattern matcher holds of a node and itself. *)
Fixpoint UOp_eqb_refl (u : UOp) : UOp_eqb u u = true
with Arg_eqb_refl (a : Arg) : Arg_eqb a a = true.
Proof.
  - destruct u as [o d s a]. cbn [UOp_eqb].
    rewrite Ops_eqb_refl, DType_eqb_refl, (Arg_eqb_refl a). cbn [andb].
    rewrite andb_true_r.
    induction s as [|x s IH]; [reflexivity|].
    rewrite (UOp_eqb_refl x). exact IH.
  - destruct a as [|z|b|s|s|items|o|u|u]; cbn [Arg_eqb];
      try reflexivity.
    + apply Z.eqb_refl.
    + apply Bool.eqb_reflx.
    + apply String.eqb_refl.
    + apply String.eqb_refl.
    + induction items as [|x items IH]; [reflexivity|].
      rewrite (Arg_eqb_refl x). exact IH.
    + apply Ops_eqb_refl.
    + apply UOp_eqb_refl.
    + apply UOp_eqb_refl.
Qed.

(** ** The monad *)

Lemma bind_ret_l {A B} (a : A) (f : A -> M B) : bind (ret a) f = f a.
Proof. unfold bind, ret. destruct (f a). reflexivity. Qed.

Lemma bind_raise_l {A B} (e : Exn) (f : A -> M B) : bind (raise e) f = raise e.
Proof. reflexivity. Qed.

(** ** Rules for another operator are skipped *)

Lemma upat_match_op_mismatch (p : UPat) (u : UOp) (s : Store) :
  upat_op_ok p (op u) = false -> upat_match p u s = [].
Proof.
  destruct p as [po pd ps pa pn al]. unfold upat_op_ok. simpl.
  intros H. rewrite H. reflexivity.
Qed.

Lemma rewrite_rules_for (pm : PatternMatcher) (u : UOp) :
  rewrite pm u = rewrite (rules_for (op u) pm) u.
Proof.
  induction pm as [|[p f] pm IH]; [reflexivity|].
  cbn [rules_for filter fst]. destruct (upat_op_ok p (op u)) eqn:E.
  - cbn [rewrite]. fold (rules_for (op u) pm). rewrite IH. reflexivity.
  - fold (rules_for (op u) pm). cbn [rewrite]. rewrite E. exact IH.
Qed.

(** ** The value-type test *)

Lemma dtype_scalar_void (d : DType) : dtype_scalar d = dtypes.void <-> d = dtypes.void.
Proof.
  destruct d as [n c | b l v sz | b l v sz h]; cbn; try (split; discriminate).
  destruct n; cbn; split; intros H; try discriminate H; try exact H;
    inversion H; reflexivity.
Qed.

Lemma dtype_match_void (d : DType) :
  dtype_match d [dtypes.void] = dtype_in d [dtypes.void].
Proof.
  unfold dtype_match, dtype_in. cbn [existsb]. rewrite !orb_false_r.
  destruct (DType_eqb d dtypes.void) eqn:E; [reflexivity|]. cbn [orb].
  apply DType_eqb_neq. intros H. apply (proj1 (dtype_scalar_void d)) in H.
  apply DType_eqb_neq in E. exact (E H).
Qed.

(** A pattern that asks for one scalar type tests the scalar of the node's
    value type. *)
Lemma dtype_match_scalar (d t : DType) :
  dtype_scalar t = t ->
  dtype_match d [t] = DType_eqb (dtype_scalar d) t.
Proof.
  intros Ht. unfold dtype_match, dtype_in. cbn [existsb]. rewrite !orb_false_r.
  destruct (DType_eqb d t) eqn:E; [|reflexivity]. cbn [orb].
  apply DType_eqb_eq in E. subst d. rewrite Ht. symmetry. apply DType_eqb_refl.
Qed.

Lemma dtype_match_bool (d : DType) :
  dtype_match d [dtypes.bool] = DType_eqb (dtype_scalar d) dtypes.bool.
Proof. apply dtype_match_scalar. reflexivity. Qed.

Lemma dtype_match_int64 (d : DType) :
  dtype_match d [dtypes.int64] = DType_eqb (dtype_scalar d) dtypes.int64.
Proof. apply dtype_match_scalar. reflexivity. Qed.

Lemma dtype_match_self (d : DType) (dts : list DType) :
  dtype_in d dts = true -> dtype_match d dts = true.
Proof. intros H. unfold dtype_match. rewrite H. reflexivity. Qed.

(** The value-type tests that stay in a goal, in terms of [DType_eqb]. *)
Ltac norm_dtype :=
  rewrite ?dtype_match_void, ?dtype_match_bool, ?dtype_match_int64.

(** ** The early-reject test *)

Lemma zip_match_nil (P : Type) (m : P -> UOp -> Store -> list Store) ps us :
  zip_match m ps us [] = [].
Proof.
  revert us. induction ps as [|q ps IH]; intros [|x us]; cbn; auto.
Qed.

Lemma zip_match_reject (ps : list UPat) (us : list UOp) (stores : list Store) (o : Ops) :
  (List.length ps <= List.length us)%nat ->
  In o (flat_map (fun q => match p_op_of q with Some [o] => [o] | _ => [] end) ps) ->
  op_in o (map op us) = false ->
  zip_match upat_match ps us stores = [].
Proof.
  revert us stores. induction ps as [|q ps IH]; intros us stores Hlen Hin Hno.
  - destruct Hin.
  - destruct us as [|x us]; [cbn in Hlen; lia|].
    cbn [zip_match]. cbn [map op_in existsb] in Hno. unfold op_in in Hno.
    cbn [existsb] in Hno. apply orb_false_iff in Hno. destruct Hno as [Hx Hus].
    cbn [flat_map] in Hin. apply in_app_or in Hin. destruct Hin as [Hq | Hps].
    + assert (E : forall s, upat_match q x s = []).
      { intros s. apply upat_match_op_mismatch. unfold upat_op_ok.
        destruct (p_op_of q) as [[|o1 [|o2 ops]]|];
          [destruct Hq | | destruct Hq | destruct Hq].
        destruct Hq as [<- | []]. unfold op_in. cbn [existsb].
        rewrite orb_false_r. rewrite <- Hx.
        destruct (Ops_eqb (op x) o1) eqn:E1, (Ops_eqb o1 (op x)) eqn:E2;
          try reflexivity.
        - apply Ops_eqb_eq in E1. apply Ops_eqb_neq in E2. congruence.
        - apply Ops_eqb_neq in E1. apply Ops_eqb_eq in E2. congruence. }
      assert (E' : flat_map (upat_match q x) stores = []).
      { induction stores as [|s stores IHs]; [reflexivity|].
        cbn [flat_map]. rewrite E, IHs. reflexivity. }
      rewrite E'. apply zip_match_nil.
    + apply IH; [cbn in Hlen; lia | exact Hps | exact Hus].
Qed.

Lemma early_reject_redundant (p : UPat) (u : UOp) (s : Store) :
  reject_redundant p = true -> early_ok p u = false -> upat_match p u s = [].
Proof.
  destruct p as [po pd ps pa pn al]. unfold reject_redundant, early_ok, early_reject.
  cbn [p_src_of]. destruct ps as [|ps|q].
  - intros _ H. discriminate H.
  - intros _ H.
    assert (Hex : exists o,
              In o (flat_map (fun q => match p_op_of q with Some [o] => [o] | _ => [] end) ps)
              /\ op_in o (map op (src u)) = false).
    { destruct (forallb _ _) eqn:E in H; [discriminate H|].
      clear H. revert E.
      induction (flat_map _ ps) as [|o l IH]; [discriminate|].
      cbn [forallb]. intros E. apply andb_false_iff in E. destruct E as [E|E].
      - exists o. split; [left; reflexivity | exact E].
      - destruct (IH E) as [o' [Hin Hno]]. exists o'. split; [right; exact Hin | exact Hno]. }
    destruct Hex as [o [Hin Hno]].
    cbn [upat_match required_len strict_length].
    destruct (negb _); [reflexivity|].
    destruct (store_bind pn u s) as [s'|]; [|reflexivity].
    destruct (negb _); [reflexivity|].
    destruct (negb _); [reflexivity|].
    destruct (List.length (src u) <? List.length ps)%nat eqn:Elen; [reflexivity|].
    destruct (_ && _); [reflexivity|].
    apply Nat.ltb_ge in Elen.
    exact (zip_match_reject ps (src u) [s'] o Elen Hin Hno).
  - intros Hr H. cbn [flat_map] in *. rewrite app_nil_r in *.
    destruct (match p_op_of q with Some [o] => [o] | _ => [] end); [|discriminate Hr].
    discriminate H.
Qed.

(** A rule whose early-reject test is implied by its match is simply
    matched. *)
Lemma rewrite_cons (r : Rule) (pm : PatternMatcher) (u : UOp) :
  reject_redundant (fst r) = true ->
  rewrite (r :: pm) u
  = (x <- first_result (snd r) (upat_match (fst r) u []) ;;
     match x with
     | Some b => ret (Some b)
     | None => rewrite pm u
     end).
Proof.
  destruct r as [p f]. cbn [fst snd rewrite]. intros Hr.
  destruct (upat_op_ok p (op u)) eqn:Eo; cbn [negb].
  - destruct (early_ok p u) eqn:E; cbn [negb]; [reflexivity|].
    rewrite (early_reject_redundant p u [] Hr E). cbn [first_result].
    rewrite bind_ret_l. reflexivity.
  - rewrite (upat_match_op_mismatch p u [] Eo). cbn [first_result].
    rewrite bind_ret_l. reflexivity.
Qed.

(** Any rule: skipped, or matched. *)
Lemma rewrite_cons_early (r : Rule) (pm : PatternMatcher) (u : UOp) :
  rewrite (r :: pm) u
  = if early_ok (fst r) u
    then (x <- first_result (snd r) (upat_match (fst r) u []) ;;
          match x with
          | Some b => ret (Some b)
          | None => rewrite pm u
          end)
    else rewrite pm u.
Proof.
  destruct r as [p f]. cbn [fst snd rewrite].
  destruct (upat_op_ok p (op u)) eqn:Eo; cbn [negb].
  - destruct (early_ok p u); reflexivity.
  - rewrite (upat_match_op_mismatch p u [] Eo). cbn [first_result].
    rewrite bind_ret_l. destruct (early_ok p u); reflexivity.
Qed.

(** The rules of a table, one after the other. *)
Ltac unfold_rules := repeat (rewrite rewrite_cons by reflexivity).

Lemma first_result_const (b : bool) (ms : list Store) :
  first_result (const_rule b) ms = ret (match ms with [] => None | _ => Some b end).
Proof. destruct ms; reflexivity. Qed.

(** ** Matching the sources *)

Lemma upat_match_op_only (ops : list Ops) (x : UOp) (s : Store) :
  upat_match (UPat_ ops) x s = if op_in (op x) ops then [s] else [].
Proof. simpl. destruct (op_in (op x) ops); reflexivity. Qed.

Lemma rep_match_nil (P : Type) (m : P -> UOp -> Store -> list Store) q us :
  rep_match m q us [] = [].
Proof. induction us as [|x us IH]; simpl; auto. Qed.

Lemma rep_match_op_only (ops : list Ops) (us : list UOp) (s : Store) :
  rep_match upat_match (UPat_ ops) us [s]
  = if forallb (fun x => op_in (op x) ops) us then [s] else [].
Proof.
  induction us as [|x us IH]; [reflexivity|].
  cbn [rep_match flat_map forallb]. rewrite upat_match_op_only.
  destruct (op_in (op x) ops); simpl.
  - exact IH.
  - apply rep_match_nil.
Qed.

Lemma forallb_Forall {A} (f : A -> bool) (l : list A) :
  forallb f l = true <-> Forall (fun x => f x = true) l.
Proof.
  rewrite forallb_forall, Forall_forall. reflexivity.
Qed.

(* ================================================================== *)
(** * The low-level op rule set on single operators *)

Section LowLevel.

Variable env : Env.
Variable F : Facts.

Lemma rules_for_BARRIER : rules_for BARRIER (spec env F) = [spec_l140; spec_l141].
Proof. reflexivity. Qed.

Lemma rules_for_SHL :
  rules_for SHL (spec env F) = [spec_l119; spec_l121].
Proof. reflexivity. Qed.

Lemma rules_for_SHR :
  rules_for SHR (spec env F) = [spec_l119; spec_l121].
Proof. reflexivity. Qed.

(** The two BARRIER rules: line 140 is consulted only when a STORE is
    among the sources, line 141 always. *)
Lemma spec_on_barrier (d : DType) (s : list UOp) (a : Arg) :
  rewrite (spec env F) (mkUOp BARRIER d s a)
  = ret (if DType_eqb d dtypes.void then Some true else None).
Proof.
  rewrite rewrite_rules_for. cbn [op]. rewrite rules_for_BARRIER.
  assert (H141 : rewrite [spec_l141] (mkUOp BARRIER d s a)
                 = ret (if DType_eqb d dtypes.void then Some true else None)).
  { rewrite rewrite_cons by reflexivity. unfold spec_l141. cbn. norm_dtype.
    unfold dtype_in. cbn. destruct (DType_eqb d dtypes.void); reflexivity. }
  assert (H140 : DType_eqb d dtypes.void = false ->
                 upat_match (fst spec_l140) (mkUOp BARRIER d s a) [] = []).
  { intros E. unfold spec_l140. cbn -[rep_match]. norm_dtype. unfold dtype_in.
    cbn -[rep_match]. rewrite E. reflexivity. }
  rewrite rewrite_cons_early, H141. destruct (early_ok _ _); [|reflexivity].
  destruct (DType_eqb d dtypes.void) eqn:E.
  - change (snd spec_l140) with (const_rule true). rewrite first_result_const.
    destruct (upat_match _ _ _); rewrite bind_ret_l; reflexivity.
  - rewrite (H140 eq_refl). cbn [first_result]. rewrite bind_ret_l. reflexivity.
Qed.

(** C5, as the code has it.
    A BARRIER node is accepted by the low-level op rule
    set exactly when its value type is void, whatever its sources: STORE
    nodes only (line 140), or none or any others (line 141).  On a BARRIER
    of another value type the rule set abstains. *)
Theorem barrier_accepted_iff_void (u : UOp) :
  op u = BARRIER ->
  (dtype u = dtypes.void -> rewrite (spec env F) u = ret (Some true))
  /\ (dtype u <> dtypes.void -> rewrite (spec env F) u = ret None)
  /\ (accepts (spec env F) u <-> dtype u = dtypes.void).
Proof.
  intros Hop. unfold accepts, verdict.
  destruct u as [o d s a]. simpl in Hop. subst o. simpl dtype.
  rewrite spec_on_barrier.
  split; [|split; [|split]].
  - intros ->. reflexivity.
  - intros Hd. apply DType_eqb_neq in Hd. rewrite Hd. reflexivity.
  - intros H. destruct (DType_eqb d dtypes.void) eqn:E.
    + apply DType_eqb_eq in E. exact E.
    + discriminate H.
  - intros ->. reflexivity.
Qed.

(** C8, as the code has it.
    For every SHL or SHR node with two sources, the
    low-level op rule set accepts if the result type equals the type of the
    left operand and the type of the shift amount is the type of the left
    operand or is exactly [dtypes.uint], the 32-bit unsigned scalar; it
    rejects otherwise. *)
Theorem shift_accepted_iff (a x y : UOp) :
  op a = SHL \/ op a = SHR ->
  src a = [x; y] ->
  rewrite (spec env F) a
  = ret (Some (DType_eqb (dtype a) (dtype x)
               && (DType_eqb (dtype y) (dtype x) || DType_eqb (dtype y) dtypes.uint)))
  /\ (accepts (spec env F) a <->
      dtype a = dtype x /\ (dtype y = dtype x \/ dtype y = dtypes.uint))
  /\ (rejects (spec env F) a <->
      ~ (dtype a = dtype x /\ (dtype y = dtype x \/ dtype y = dtypes.uint))).
Proof.
  intros Hop Hsrc.
  assert (E : rewrite (spec env F) a
    = ret (Some (DType_eqb (dtype a) (dtype x)
               && (DType_eqb (dtype y) (dtype x) || DType_eqb (dtype y) dtypes.uint)))).
  { rewrite rewrite_rules_for.
    destruct a as [o d s ar]. simpl in Hop, Hsrc. subst s.
    destruct Hop as [-> | ->]; simpl op;
      [rewrite rules_for_SHL | rewrite rules_for_SHR];
      unfold spec_l119; cbn; unfold dtype_in; cbn;
      rewrite orb_false_r; reflexivity. }
  split; [exact E|].
  unfold accepts, rejects, verdict. rewrite E. simpl.
  split; split.
  - intros H. injection H as H. apply andb_true_iff in H. destruct H as [H1 H2].
    apply DType_eqb_eq in H1. apply orb_true_iff in H2.
    split; [exact H1|]. destruct H2 as [H2|H2]; apply DType_eqb_eq in H2; auto.
  - intros [H1 H2]. do 2 f_equal. apply andb_true_iff. split.
    + apply DType_eqb_eq; exact H1.
    + apply orb_true_iff. destruct H2 as [H2|H2]; [left|right]; apply DType_eqb_eq; exact H2.
  - intros H [H1 H2]. injection H as H. apply andb_false_iff in H.
    destruct H as [H|H].
    + apply DType_eqb_neq in H. contradiction.
    + apply orb_false_iff in H. destruct H as [Ha Hb].
      apply DType_eqb_neq in Ha. apply DType_eqb_neq in Hb. tauto.
  - intros H. do 2 f_equal.
    destruct (DType_eqb (dtype a) (dtype x)) eqn:E1; [|reflexivity].
    destruct (DType_eqb (dtype y) (dtype x)) eqn:E2.
    + exfalso. apply H. apply DType_eqb_eq in E1, E2. auto.
    + destruct (DType_eqb (dtype y) dtypes.uint) eqn:E3; [|reflexivity].
      exfalso. apply H. apply DType_eqb_eq in E1, E3. auto.
Qed.

End LowLevel.

(** Case analysis on the operator and value-type tests that stay in a goal
    after the rules have been evaluated on a node with unknown parts. *)
Ltac case_tests :=
  repeat (match goal with
          | |- context [Ops_eqb ?a ?b] => destruct (Ops_eqb a b) eqn:?
          | |- context [DType_eqb ?a ?b] => destruct (DType_eqb a b) eqn:?
          end; cbn).

Ltac tests_to_props :=
  repeat match goal with
         | H : Ops_eqb _ _ = true |- _ => apply Ops_eqb_eq in H
         | H : Ops_eqb _ _ = false |- _ => apply Ops_eqb_neq in H
         | H : DType_eqb _ _ = true |- _ => apply DType_eqb_eq in H
         | H : DType_eqb _ _ = false |- _ => apply DType_eqb_neq in H
         end.

(* ================================================================== *)
(** * Buffer topology, kernels and the scheduler graph *)

Section Topology.

Variable env : Env.
Variable F : Facts.

Lemma rules_for_BUFFER : rules_for BUFFER buffer_spec = [buffer_spec_l9].
Proof. reflexivity. Qed.

Lemma rules_for_BUFFER_VIEW : rules_for BUFFER_VIEW buffer_spec = [buffer_spec_l11].
Proof. reflexivity. Qed.

(** C7, as the code has it.
    On a BUFFER node whose sources are exactly a DEVICE
    node and a UNIQUE node, the buffer topology rule set accepts an integer
    argument and rejects any other; on a BUFFER_VIEW node whose only source
    is a BUFFER node it accepts an argument that is a 2-tuple of integers or
    nodes and rejects any other.  A BUFFER or BUFFER_VIEW node whose sources
    are not of that form matches no rule: the rule set abstains on it, it
    does not reject. *)
Theorem buffer_spec_rejects_or_abstains (u : UOp) :
  (op u = BUFFER ->
     ((exists d q, src u = [d; q] /\ op d = DEVICE /\ op q = UNIQUE) ->
        rewrite buffer_spec u = ret (Some (isinstance_int (arg u))))
     /\ (~ (exists d q, src u = [d; q] /\ op d = DEVICE /\ op q = UNIQUE) ->
        rewrite buffer_spec u = ret None))
  /\ (op u = BUFFER_VIEW ->
     ((exists b, src u = [b] /\ op b = BUFFER) ->
        rewrite buffer_spec u = ret (Some (is_pair_of_int_or_node (arg u))))
     /\ (~ (exists b, src u = [b] /\ op b = BUFFER) ->
        rewrite buffer_spec u = ret None)).
Proof.
  split; intros Hop; rewrite rewrite_rules_for, Hop;
    [rewrite rules_for_BUFFER | rewrite rules_for_BUFFER_VIEW];
    unfold_rules;
    destruct u as [o dt s a]; simpl in Hop; subst o; simpl src; simpl arg; split.
  - intros [d [q [-> [Hd Hq]]]].
    unfold buffer_spec_l9. cbn. rewrite Hd, Hq.
    rewrite !Ops_eqb_refl. cbn. rewrite andb_true_r. reflexivity.
  - intros Hno. unfold buffer_spec_l9.
    destruct s as [|d [|q [|r s]]]; try reflexivity.
    cbn. case_tests; try reflexivity.
    tests_to_props. exfalso. apply Hno. exists d, q. auto.
  - intros [b [-> Hb]].
    unfold buffer_spec_l11. cbn. rewrite Hb, Ops_eqb_refl. cbn.
    destruct a as [| | | | |items| | |]; try reflexivity.
    destruct items as [|x [|y [|z items]]]; try reflexivity.
    cbn. rewrite andb_true_r. reflexivity.
  - intros Hno. unfold buffer_spec_l11.
    destruct s as [|b [|r s]]; try reflexivity.
    cbn. case_tests; try reflexivity.
    tests_to_props. exfalso. apply Hno. exists b. auto.
Qed.

(** ** [validate_kernel] *)

Lemma rules_for_KERNEL_assign : rules_for KERNEL (assign_spec F) = [assign_spec_l22].
Proof. reflexivity. Qed.

Lemma rules_for_KERNEL_spec : rules_for KERNEL (spec env F) = [].
Proof. reflexivity. Qed.

Lemma assign_spec_on_kernel (k : UOp) :
  op k = KERNEL ->
  Forall (fun s => In (op s) [BUFFER; BUFFER_VIEW; ASSIGN]) (src k) ->
  rewrite (assign_spec F) k = (b <- validate_kernel k ;; ret (Some b)).
Proof.
  intros Hop Hsrc.
  rewrite rewrite_rules_for, Hop, rules_for_KERNEL_assign.
  destruct k as [o dt s a]. simpl in Hop, Hsrc. subst o.
  unfold assign_spec_l22. cbn -[rep_match validate_kernel].
  rewrite rep_match_op_only.
  assert (E : forallb (fun x => op_in (op x) [BUFFER; BUFFER_VIEW; ASSIGN]) s = true).
  { apply forallb_Forall. eapply Forall_impl; [|exact Hsrc].
    intros x Hx. apply op_in_In. exact Hx. }
  rewrite E. cbn -[validate_kernel].
  destruct (validate_kernel (mkUOp KERNEL dt s a)) as [out [b|e]]; cbn.
  - rewrite !app_nil_r. reflexivity.
  - reflexivity.
Qed.

Lemma forallb_store_Forall (l : list UOp) :
  forallb (fun s => Ops_eqb (op s) STORE) l = true
  <-> Forall (fun s => op s = STORE) l.
Proof.
  rewrite forallb_Forall. split; intros H; eapply Forall_impl; try exact H;
    intros x Hx; apply Ops_eqb_eq; exact Hx.
Qed.

(** C2.  For every KERNEL node that the assign/kernel rule set matches
    (all its sources are BUFFER, BUFFER_VIEW or ASSIGN nodes) and whose
    argument is a kernel descriptor with root [ast]: if the operator of
    [ast] is not COPY, BUFFER_VIEW or SINK, or it is SINK and some source
    of [ast] is not a STORE, the rule set raises an assertion error (and so
    does [type_verify], whatever follows in the node list): no verdict is
    returned, in particular no reject.  Otherwise [validate_kernel] returns
    [True] and the rule set accepts. *)
Theorem validate_kernel_hard_assert (k ast : UOp) :
  op k = KERNEL ->
  Forall (fun s => In (op s) [BUFFER; BUFFER_VIEW; ASSIGN]) (src k) ->
  arg k = AKernel ast ->
  (~ kernel_root_ok ast ->
     let e := AssertionError "must end with SINK/COPY/BUFFER_VIEW" (arg k) in
     validate_kernel k = raise e
     /\ rewrite (assign_spec F) k = raise e
     /\ forall rest extra,
          type_verify env F (k :: rest) (assign_spec F :: extra) = raise e)
  /\ (op ast = SINK -> ~ Forall (fun s => op s = STORE) (src ast) ->
     let e := AssertionError "SINK must end with STORE" (AUOp ast) in
     validate_kernel k = raise e
     /\ rewrite (assign_spec F) k = raise e
     /\ forall rest extra,
          type_verify env F (k :: rest) (assign_spec F :: extra) = raise e)
  /\ (kernel_root_ok ast -> kernel_stores_ok ast ->
     validate_kernel k = ret true
     /\ rewrite (assign_spec F) k = ret (Some true)).
Proof.
  intros Hop Hsrc Harg.
  assert (Hdrv : forall e, rewrite (assign_spec F) k = raise e ->
            forall rest extra,
              type_verify env F (k :: rest) (assign_spec F :: extra) = raise e).
  { intros e He rest extra. unfold type_verify. cbn [type_verify_from mapM].
    rewrite (rewrite_rules_for (spec env F)), Hop, rules_for_KERNEL_spec.
    cbn [rewrite]. rewrite bind_ret_l, He. reflexivity. }
  rewrite (assign_spec_on_kernel k Hop Hsrc).
  unfold validate_kernel, kernel_root_ok, kernel_stores_ok. rewrite Harg.
  cbn [arg_ast]. rewrite bind_ret_l.
  rewrite <- op_in_In.
  destruct (op_in (op ast) [COPY; BUFFER_VIEW; SINK]) eqn:Eroot.
  - cbn [assert]. rewrite bind_ret_l.
    destruct (Ops_eqb (op ast) SINK) eqn:Esink.
    + destruct (forallb (fun s => Ops_eqb (op s) STORE) (src ast)) eqn:Est.
      * split; [intros H; exfalso; apply H; reflexivity|].
        split.
        -- intros _ H. exfalso. apply H.
           apply forallb_store_Forall. exact Est.
        -- intros _ _. split; reflexivity.
      * assert (Hbad : ~ Forall (fun s => op s = STORE) (src ast)).
        { rewrite <- forallb_store_Forall. rewrite Est. discriminate. }
        split; [intros H; exfalso; apply H; reflexivity|].
        split.
        -- intros _ _. cbv zeta. split; [reflexivity|].
           assert (He : (b <- validate_kernel k ;; ret (Some b))
                        = raise (AssertionError "SINK must end with STORE" (AUOp ast))).
           { unfold validate_kernel. rewrite Harg. cbn [arg_ast].
             rewrite bind_ret_l, Eroot. cbn [assert]. rewrite bind_ret_l, Esink, Est.
             reflexivity. }
           split; [reflexivity|].
           apply Hdrv. rewrite (assign_spec_on_kernel k Hop Hsrc). exact He.
        -- intros _ H. exfalso. apply Hbad. apply H.
           apply Ops_eqb_eq. exact Esink.
    + split; [intros H; exfalso; apply H; reflexivity|].
      split.
      * intros E. apply Ops_eqb_neq in Esink. contradiction.
      * intros _ _. split; reflexivity.
  - split.
    + intros _. cbv zeta. split; [reflexivity|]. split; [reflexivity|].
      apply Hdrv. rewrite (assign_spec_on_kernel k Hop Hsrc).
      unfold validate_kernel. rewrite Harg. cbn [arg_ast].
      rewrite bind_ret_l, Eroot. reflexivity.
    + split.
      * intros E. exfalso. rewrite E in Eroot. discriminate Eroot.
      * intros H. discriminate H.
Qed.

End Topology.

(* ================================================================== *)
(** * The scheduler-graph rule set *)

Section Scheduler.

Variable F : Facts.

Lemma catch_all_matches (u : UOp) :
  op u <> SINK ->
  upat_match (fst sched_spec_l155) u [] = [[]].
Proof.
  intros H. destruct u as [o d s a]. simpl in H.
  destruct o; try (exfalso; apply H; reflexivity); vm_compute; reflexivity.
Qed.

Lemma rewrite_cons_inv (p : UPat) (f : Store -> M (option bool))
    (pm : PatternMatcher) (u : UOp) (out : list Output) (v : option bool) :
  rewrite ((p, f) :: pm) u = (out, Ret v) ->
  (exists b, v = Some b) \/ (exists o2, rewrite pm u = (o2, Ret v)).
Proof.
  rewrite rewrite_cons_early. cbn [fst snd]. destruct (early_ok p u).
  - destruct (first_result f (upat_match p u [])) as [o1 [[b|]|e]]; cbn.
    + intros H. left. exists b. inversion H. reflexivity.
    + destruct (rewrite pm u) as [o2 r] eqn:E. intros H. right.
      exists o2. inversion H. reflexivity.
    + discriminate.
  - intros H. right. exists out. exact H.
Qed.

(** A table closed by the catch-all of line 155 has an opinion on every
    node that is not a SINK. *)
Lemma closed_table_never_abstains (pm : PatternMatcher) (u : UOp) out :
  op u <> SINK ->
  rewrite (pm ++ [sched_spec_l155]) u <> (out, Ret None).
Proof.
  intros Hop. revert out. induction pm as [|[p f] pm IH]; intros out H.
  - cbn [app] in H.
    rewrite (rewrite_cons sched_spec_l155 [] u eq_refl), (catch_all_matches u Hop) in H.
    unfold sched_spec_l155 in H. cbn [snd] in H.
    rewrite first_result_const, bind_ret_l in H. discriminate H.
  - cbn [app] in H. apply rewrite_cons_inv in H.
    destruct H as [[b Hb] | [o2 H]]; [discriminate Hb|].
    exact (IH o2 H).
Qed.

Lemma sched_spec_closed :
  sched_spec F = (buffer_spec ++ assign_spec F) ++ [sched_spec_l155].
Proof. unfold sched_spec. rewrite app_assoc. reflexivity. Qed.

Lemma sched_spec_on_SINK (u : UOp) :
  op u = SINK -> rewrite (sched_spec F) u = ret None.
Proof.
  intros H. rewrite rewrite_rules_for, H. reflexivity.
Qed.

Lemma sched_spec_on_other (u : UOp) :
  op u <> SINK -> ~ In (op u) sched_accepted_ops ->
  rewrite (sched_spec F) u = ret (Some false).
Proof.
  intros Hs Ha. destruct u as [o d s a]. simpl in Hs, Ha.
  destruct o;
    try (exfalso; apply Hs; reflexivity);
    try (exfalso; apply Ha; simpl; tauto);
    vm_compute; reflexivity.
Qed.

(** C6, as the code has it.
    Under the scheduler-graph rule set a node is
    accepted only if its operator is UNIQUE, DEVICE, BUFFER, BUFFER_VIEW,
    KERNEL or ASSIGN; every node of another operator is rejected, except a
    SINK node, on which the rule set abstains.  On no node other than a SINK
    does the rule set abstain. *)
Theorem sched_spec_verdicts (u : UOp) :
  (op u = SINK -> rewrite (sched_spec F) u = ret None)
  /\ (op u <> SINK -> ~ In (op u) sched_accepted_ops ->
      rewrite (sched_spec F) u = ret (Some false))
  /\ (accepts (sched_spec F) u -> In (op u) sched_accepted_ops)
  /\ (op u <> SINK -> ~ abstains (sched_spec F) u).
Proof.
  split; [apply sched_spec_on_SINK|].
  split; [apply sched_spec_on_other|].
  split.
  - unfold accepts, verdict. intros H.
    destruct (in_dec Ops_eq_dec (op u) sched_accepted_ops) as [Hin|Hout]; [exact Hin|].
    exfalso. destruct (Ops_eq_dec (op u) SINK) as [Hs|Hs].
    + rewrite (sched_spec_on_SINK u Hs) in H. discriminate H.
    + rewrite (sched_spec_on_other u Hs Hout) in H. discriminate H.
  - unfold abstains, verdict. intros Hs H.
    destruct (rewrite (sched_spec F) u) as [out r] eqn:E. simpl in H. subst r.
    rewrite sched_spec_closed in E.
    exact (closed_table_never_abstains _ u out Hs E).
Qed.

End Scheduler.

(* ================================================================== *)
(** * LOAD and STORE through a 64-bit address *)

Section PtxLoadStore.

Variable env : Env.
Variable F : Facts.

Lemma rules_for_LOAD :
  rules_for LOAD (spec env F)
  = [spec_l92; spec_l93; spec_l106; spec_l107; spec_l108; spec_l149].
Proof. reflexivity. Qed.

Lemma rules_for_STORE :
  rules_for STORE (spec env F)
  = [spec_l96; spec_l111; spec_l112; spec_l113; spec_l149].
Proof. reflexivity. Qed.

Ltac close_case :=
  first [ reflexivity
        | exfalso; tests_to_props; congruence ].

Lemma ptx_store (u s0 : UOp) (rest : list UOp) :
  op u = STORE -> src u = s0 :: rest -> dtype s0 = dtypes.int64 ->
  rewrite (spec env F) u = ret (Some true).
Proof.
  intros Hop Hsrc Hdt. rewrite rewrite_rules_for, Hop, rules_for_STORE.
  unfold_rules.
  destruct u as [o d s a]. simpl in Hop, Hsrc. subst o s.
  destruct s0 as [o0 d0 ss0 a0]. simpl in Hdt. subst d0.
  unfold spec_l96, spec_l111, spec_l112, spec_l113, spec_l149.
  destruct rest as [|x1 [|x2 [|x3 rest]]]; cbn; norm_dtype; unfold dtype_in; cbn;
    case_tests; reflexivity.
Qed.

Lemma ptx_load (u s0 : UOp) (rest : list UOp) :
  op u = LOAD -> src u = s0 :: rest -> dtype s0 = dtypes.int64 ->
  rewrite (spec env F) u = ret (Some (negb (load_alt_mismatch u))).
Proof.
  intros Hop Hsrc Hdt. rewrite rewrite_rules_for, Hop, rules_for_LOAD.
  unfold_rules.
  destruct u as [o d s a]. simpl in Hop, Hsrc. subst o s.
  destruct s0 as [o0 d0 ss0 a0]. simpl in Hdt. subst d0.
  unfold spec_l92, spec_l93, spec_l106, spec_l107, spec_l108, spec_l149,
    load_alt_mismatch.
  destruct rest as [|x1 [|x2 [|x3 rest]]]; cbn; norm_dtype; unfold dtype_in; cbn;
    case_tests; close_case.
Qed.

(** C10, as the code has it.
    On a LOAD or STORE node whose first source has the
    value type int64 the low-level op rule set never abstains.  It accepts
    every such STORE and every such LOAD, whatever the number and kinds of
    the remaining sources, except the LOAD that line 108 turns down first: a
    LOAD with exactly two sources, the first an INDEX or CAST, the second
    neither IF nor BARRIER and of another value type than the LOAD; that
    LOAD is rejected. *)
Theorem ptx_load_store_verdict (u s0 : UOp) (rest : list UOp) :
  op u = LOAD \/ op u = STORE ->
  src u = s0 :: rest ->
  dtype s0 = dtypes.int64 ->
  rewrite (spec env F) u = ret (Some (negb (load_alt_mismatch u)))
  /\ (op u = STORE -> rewrite (spec env F) u = ret (Some true))
  /\ (forall alt, op u = LOAD -> rest = [alt] ->
        In (op s0) INDEX_CAST -> ~ In (op alt) [IF; BARRIER] ->
        dtype u <> dtype alt ->
        rewrite (spec env F) u = ret (Some false))
  /\ (op u = LOAD ->
        (forall alt, rest = [alt] ->
           ~ In (op s0) INDEX_CAST \/ In (op alt) [IF; BARRIER]
           \/ dtype u = dtype alt) ->
        rewrite (spec env F) u = ret (Some true)).
Proof.
  intros Hop Hsrc Hdt.
  assert (E : rewrite (spec env F) u = ret (Some (negb (load_alt_mismatch u)))).
  { destruct Hop as [Hop|Hop].
    - exact (ptx_load u s0 rest Hop Hsrc Hdt).
    - rewrite (ptx_store u s0 rest Hop Hsrc Hdt).
      unfold load_alt_mismatch. rewrite Hop. reflexivity. }
  split; [exact E|]. split; [|split].
  - intros H. exact (ptx_store u s0 rest H Hsrc Hdt).
  - intros alt H -> Hin Hnot Hne. rewrite E.
    unfold load_alt_mismatch. rewrite H, Hsrc.
    apply op_in_In in Hin. rewrite Hin.
    assert (Ea : op_in (op alt) [IF; BARRIER] = false).
    { destruct (op_in (op alt) [IF; BARRIER]) eqn:Ea; [|reflexivity].
      apply op_in_In in Ea. contradiction. }
    rewrite Ea. apply DType_eqb_neq in Hne. rewrite Hne. reflexivity.
  - intros H Hall. rewrite E. do 2 f_equal.
    unfold load_alt_mismatch. rewrite H, Hsrc.
    destruct rest as [|alt [|x rest']]; try reflexivity.
    destruct (Hall alt eq_refl) as [H1 | [H1 | H1]].
    + destruct (op_in (op s0) INDEX_CAST) eqn:E1; [|reflexivity].
      apply op_in_In in E1. contradiction.
    + apply op_in_In in H1. rewrite H1. cbn. rewrite andb_false_r. reflexivity.
    + apply DType_eqb_eq in H1. rewrite H1. cbn. rewrite !andb_false_r. reflexivity.
Qed.

End PtxLoadStore.

(* ================================================================== *)
(** * The bounds check of INDEX *)

Section BoundsCheck.

Variable env : Env.
Variable F : Facts.

Lemma dynamic_depb_iff (x : UOp) : dynamic_depb x = true <-> dynamic_dep x.
Proof.
  unfold dynamic_depb, dynamic_dep. rewrite orb_true_iff, andb_true_iff.
  rewrite op_in_In, Ops_eqb_eq. simpl In. split.
  - intros [[H | [H | []]] | [H1 H2]]; auto.
    right; right. split; [exact H1|].
    destruct (arg x) as [| | | | |items| | |]; try discriminate H2.
    apply existsb_exists in H2. destruct H2 as [y [Hy Hn]].
    exists items, y. repeat split; auto.
    destruct (isinstance_int y); [discriminate Hn | reflexivity].
  - intros [H | [H | [H1 [items [y [Ha [Hy Hn]]]]]]]; auto.
    right. split; [exact H1|]. rewrite Ha. apply existsb_exists.
    exists y. split; [exact Hy|]. rewrite Hn. reflexivity.
Qed.

Lemma not_statically_bounded_tuple (x : UOp) :
  (op x = SPECIAL -> exists items, arg x = ATuple items) ->
  not_statically_bounded x = ret (dynamic_depb x).
Proof.
  intros H. unfold not_statically_bounded, dynamic_depb.
  destruct (op_in (op x) [DEFINE_VAR; BITCAST]); [reflexivity|].
  destruct (Ops_eqb (op x) SPECIAL) eqn:E; [|reflexivity].
  apply Ops_eqb_eq in E. destruct (H E) as [items Ha]. rewrite Ha.
  cbn [arg_tail]. rewrite bind_ret_l. reflexivity.
Qed.

Lemma anyM_not_statically_bounded (l : list UOp) :
  (forall x, In x l -> op x = SPECIAL -> exists items, arg x = ATuple items) ->
  anyM not_statically_bounded l = ret (existsb dynamic_depb l).
Proof.
  induction l as [|x l IH]; intros H; [reflexivity|].
  cbn [anyM existsb].
  rewrite (not_statically_bounded_tuple x (H x (or_introl eq_refl))), bind_ret_l.
  destruct (dynamic_depb x); [reflexivity|].
  apply IH. intros y Hy. apply H. right. exact Hy.
Qed.

Lemma existsb_dynamic_dep (l : list UOp) :
  existsb dynamic_depb l = true <-> exists x, In x l /\ dynamic_dep x.
Proof.
  rewrite existsb_exists. split; intros [x [Hx Hd]]; exists x; split; auto;
    apply dynamic_depb_iff; exact Hd.
Qed.

(** The dependency set of an INDEX node with two sources: that of the
    buffer operand, that of the offset, and the node itself. *)
Lemma toposort_index (idx buf off : UOp) :
  src idx = [buf; off] ->
  toposort idx = toposort buf ++ toposort off ++ [idx].
Proof.
  destruct idx as [o d s a]. simpl. intros ->.
  rewrite app_nil_r, <- app_assoc. reflexivity.
Qed.

Lemma rules_for_INDEX : rules_for INDEX (spec env F) = [spec_l102 env F; spec_l103 env F].
Proof. reflexivity. Qed.

Lemma spec_on_index2 (idx buf off : UOp) :
  op idx = INDEX -> src idx = [buf; off] -> In (op buf) DEFINES ->
  rewrite (spec env F) idx = (b <- validate_index env F idx None ;; ret (Some b)).
Proof.
  intros Hop Hsrc Hbuf. rewrite rewrite_rules_for, Hop, rules_for_INDEX.
  destruct idx as [o d s a]. simpl in Hop, Hsrc. subst o s.
  apply op_in_In in Hbuf.
  rewrite rewrite_cons by reflexivity. unfold spec_l102 at 1 2. cbn [fst snd].
  cbn -[validate_index op_in DEFINES]. rewrite Hbuf.
  cbn -[validate_index].
  destruct (validate_index env F (mkUOp INDEX d [buf; off] a) None) as [out [b|e]];
    cbn; rewrite ?app_nil_r; reflexivity.
Qed.

(** The gate of line 103 is a third source whose value type is bool or a
    vector of bool. *)
Lemma spec_on_index3_scalar (idx buf off mask : UOp) :
  op idx = INDEX -> src idx = [buf; off; mask] -> In (op buf) DEFINES ->
  dtype_scalar (dtype mask) = dtypes.bool ->
  rewrite (spec env F) idx
  = (b <- validate_index env F idx (Some mask) ;; ret (Some b)).
Proof.
  intros Hop Hsrc Hbuf Hmask. rewrite rewrite_rules_for, Hop, rules_for_INDEX.
  destruct idx as [o d s a]. simpl in Hop, Hsrc. subst o s.
  apply op_in_In in Hbuf.
  rewrite rewrite_cons by reflexivity. unfold spec_l102 at 1 2. cbn [fst snd].
  cbn -[validate_index op_in DEFINES spec_l103 rewrite]. rewrite ?bind_ret_l.
  rewrite rewrite_cons by reflexivity. unfold spec_l103 at 1 2. cbn [fst snd].
  cbn -[validate_index op_in DEFINES dtype_scalar]. rewrite Hbuf. norm_dtype.
  rewrite Hmask. cbn -[validate_index].
  destruct (validate_index env F (mkUOp INDEX d [buf; off; mask] a) (Some mask))
    as [out [b|e]]; cbn; rewrite ?app_nil_r; reflexivity.
Qed.

Lemma spec_on_index3 (idx buf off mask : UOp) :
  op idx = INDEX -> src idx = [buf; off; mask] -> In (op buf) DEFINES ->
  dtype mask = dtypes.bool ->
  rewrite (spec env F) idx
  = (b <- validate_index env F idx (Some mask) ;; ret (Some b)).
Proof.
  intros Hop Hsrc Hbuf Hmask.
  apply (spec_on_index3_scalar idx buf off mask Hop Hsrc Hbuf).
  rewrite Hmask. reflexivity.
Qed.

(** C9.  When the flag IGNORE_OOB is set (its value is not 0), the bounds
    check returns [True] for every INDEX node and every mask, whatever the
    range of the offset and the declared size; the low-level op rule set
    then accepts every INDEX node that its two INDEX rules match. *)
Theorem ignore_oob_accepts_every_index :
  IGNORE_OOB env <> 0 ->
  (forall idx mask, validate_index env F idx mask = ret true)
  /\ (forall idx buf off,
        op idx = INDEX -> src idx = [buf; off] -> In (op buf) DEFINES ->
        rewrite (spec env F) idx = ret (Some true))
  /\ (forall idx buf off mask,
        op idx = INDEX -> src idx = [buf; off; mask] -> In (op buf) DEFINES ->
        dtype mask = dtypes.bool ->
        rewrite (spec env F) idx = ret (Some true)).
Proof.
  intros Hflag.
  assert (Hv : forall idx mask, validate_index env F idx mask = ret true).
  { intros idx mask. unfold validate_index.
    destruct (IGNORE_OOB env =? 0) eqn:E; [|reflexivity].
    apply Z.eqb_eq in E. contradiction. }
  split; [exact Hv|]. split.
  - intros idx buf off Hop Hsrc Hbuf.
    rewrite (spec_on_index2 idx buf off Hop Hsrc Hbuf), Hv. reflexivity.
  - intros idx buf off mask Hop Hsrc Hbuf Hmask.
    rewrite (spec_on_index3 idx buf off mask Hop Hsrc Hbuf Hmask), Hv. reflexivity.
Qed.

(** C3, as the code has it.
    For every INDEX node with two sources (no mask), a
    value type that is not an image type, the override flag not set, and a
    buffer operand whose value type declares the element count [sz]: if the
    dependency set of the INDEX node (that of the offset and that of the
    buffer operand) contains a DEFINE_VAR, a BITCAST, or a SPECIAL whose
    argument has a non-integer component after its first component, the
    bounds check accepts.  Otherwise it accepts when [sz] is -1, and when
    [sz] is known it rejects if and only if the minimum of the offset is
    below 0 or its maximum is at least [sz]; on rejection the range, the
    bound and the rendering of the offset are printed when DEBUG is at least
    1, and nothing is printed when it is not. *)
Theorem validate_index_bounds (idx buf off : UOp) (sz : Z) :
  op idx = INDEX ->
  src idx = [buf; off] ->
  IGNORE_OOB env = 0 ->
  is_ImageDType (dtype idx) = false ->
  dtype_size (dtype buf) = ret sz ->
  special_args_are_tuples idx ->
  let dynamic :=
    exists x, (In x (toposort buf) \/ In x (toposort off)) /\ dynamic_dep x in
  let oob := OutOfBounds (vmin F off) (vmax F off) sz (render F off) in
  (dynamic -> validate_index env F idx None = ret true)
  /\ (~ dynamic -> sz = -1 -> validate_index env F idx None = ret true)
  /\ (~ dynamic -> sz <> -1 ->
        (snd (validate_index env F idx None) = Ret false
         <-> vmin F off < 0 \/ vmax F off >= sz)
        /\ (vmin F off < 0 \/ vmax F off >= sz ->
            validate_index env F idx None
            = (if DEBUG env >=? 1 then [oob] else [], Ret false))
        /\ (0 <= vmin F off /\ vmax F off < sz ->
            validate_index env F idx None = ret true))
  /\ (In (op buf) DEFINES ->
      rewrite (spec env F) idx = (b <- validate_index env F idx None ;; ret (Some b))).
Proof.
  intros Hop Hsrc Hflag Himg Hsz Htup dynamic oob.
  assert (Hdyn : existsb dynamic_depb (toposort idx) = true <-> dynamic).
  { rewrite existsb_dynamic_dep, (toposort_index idx buf off Hsrc). unfold dynamic.
    split.
    - intros [x [Hx Hd]]. apply in_app_or in Hx. destruct Hx as [Hx|Hx].
      + exists x. auto.
      + apply in_app_or in Hx. destruct Hx as [Hx|[<-|[]]].
        * exists x. auto.
        * exfalso. destruct Hd as [H | [H | [H _]]]; rewrite Hop in H; discriminate H.
    - intros [x [[Hx|Hx] Hd]]; exists x; split; auto;
        apply in_or_app; [left | right; apply in_or_app; left]; exact Hx. }
  assert (Hrun : validate_index env F idx None
    = if existsb dynamic_depb (toposort idx) then ret true
      else if negb (sz =? -1) && ((vmin F off <? 0) || (vmax F off >=? sz))
           then (if DEBUG env >=? 1 then [oob] else [], Ret false)
           else ret true).
  { unfold validate_index. rewrite Hflag, Himg. cbn [Z.eqb negb andb].
    rewrite (anyM_not_statically_bounded _ Htup), bind_ret_l.
    destruct (existsb dynamic_depb (toposort idx)); [reflexivity|].
    rewrite Hsrc. cbn [getitem nth_error]. rewrite !bind_ret_l, Hsz, bind_ret_l.
    destruct (negb (sz =? -1) && ((vmin F off <? 0) || (vmax F off >=? sz)));
      [|reflexivity].
    destruct (DEBUG env >=? 1); reflexivity. }
  split; [|split; [|split]].
  - intros Hd. apply Hdyn in Hd. rewrite Hrun, Hd. reflexivity.
  - intros Hd ->. rewrite Hrun.
    destruct (existsb dynamic_depb (toposort idx)); reflexivity.
  - intros Hd Hne.
    assert (E : existsb dynamic_depb (toposort idx) = false).
    { destruct (existsb dynamic_depb (toposort idx)) eqn:E; [|reflexivity].
      exfalso. apply Hd, Hdyn. reflexivity. }
    rewrite Hrun, E.
    assert (E1 : (sz =? -1) = false) by (apply Z.eqb_neq; exact Hne).
    rewrite E1. cbn [negb andb].
    destruct (vmin F off <? 0) eqn:Elo; [apply Z.ltb_lt in Elo | apply Z.ltb_ge in Elo];
      (destruct (vmax F off >=? sz) eqn:Ehi;
         [apply Z.geb_le in Ehi
         | rewrite Z.geb_leb in Ehi; apply Z.leb_gt in Ehi]);
      cbn [orb]; (split; [|split]);
      try (split; [intros _; lia | intros _; destruct (DEBUG env >=? 1); reflexivity]);
      try (intros _; reflexivity);
      try (intros H; exfalso; lia);
      try (split; [intros H; discriminate H | intros H; exfalso; lia]).
  - intros Hbuf. exact (spec_on_index2 idx buf off Hop Hsrc Hbuf).
Qed.

End BoundsCheck.

(* ================================================================== *)
(** * The verification driver *)

Section Driver.

Variable env : Env.
Variable F : Facts.

Lemma snd_bind_ret {A B} (out : list Output) (a : A) (f : A -> M B) :
  snd (bind (out, Ret a) f) = snd (f a).
Proof. unfold bind. destruct (f a). reflexivity. Qed.

Lemma snd_bind {A B} (m : M A) (f : A -> M B) (a : A) :
  snd m = Ret a -> snd (bind m f) = snd (f a).
Proof. destruct m as [out r]. simpl. intros ->. apply snd_bind_ret. Qed.

Lemma verdict_functional (s : PatternMatcher) (u : UOp) (v w : option bool) :
  verdict s u v -> verdict s u w -> v = w.
Proof. unfold verdict. intros H1 H2. rewrite H1 in H2. inversion H2. reflexivity. Qed.

Lemma mapM_verdicts (specs : list PatternMatcher) (u : UOp) :
  (forall s, In s specs -> exists v, verdict s u v) ->
  exists vs, snd (mapM (fun s => rewrite s u) specs) = Ret vs
             /\ Forall2 (fun s v => verdict s u v) specs vs.
Proof.
  induction specs as [|s specs IH]; intros H.
  - exists []. split; [reflexivity | constructor].
  - destruct (H s (or_introl eq_refl)) as [v Hv].
    destruct IH as [vs [Hvs HF]]; [intros s' Hs'; apply H; right; exact Hs'|].
    exists (v :: vs). split; [|constructor; assumption].
    cbn [mapM]. rewrite (snd_bind _ _ _ Hv), (snd_bind _ _ _ Hvs). reflexivity.
Qed.

Lemma verdicts_fail (specs : list PatternMatcher) (vs : list (option bool)) (u : UOp) :
  Forall2 (fun s v => verdict s u v) specs vs ->
  (existsb is_False vs || forallb is_abstain vs = true <-> node_fails specs u).
Proof.
  intros HF. rewrite orb_true_iff. unfold node_fails.
  split; (intros [H|H]; [left | right]).
  - induction HF as [|s v specs vs Hv HF IH]; [discriminate H|].
    cbn [existsb] in H. apply orb_true_iff in H. destruct H as [H|H].
    + exists s. split; [left; reflexivity|].
      destruct v as [[|]|]; try discriminate H. exact Hv.
    + destruct (IH H) as [s' [Hin Hr]]. exists s'. split; [right; exact Hin | exact Hr].
  - induction HF as [|s v specs vs Hv HF IH]; [intros s []|].
    cbn [forallb] in H. apply andb_true_iff in H. destruct H as [H1 H2].
    intros s' [<-|Hin].
    + destruct v; [discriminate H1 | exact Hv].
    + exact (IH H2 s' Hin).
  - destruct H as [s [Hin Hr]].
    induction HF as [|s' v specs vs Hv HF IH]; [destruct Hin|].
    cbn [existsb]. apply orb_true_iff. destruct Hin as [->|Hin].
    + left. rewrite (verdict_functional _ _ _ _ Hv Hr). reflexivity.
    + right. exact (IH Hin).
  - induction HF as [|s' v specs vs Hv HF IH]; [reflexivity|].
    cbn [forallb]. apply andb_true_iff. split.
    + rewrite (verdict_functional _ _ _ _ Hv (H s' (or_introl eq_refl))). reflexivity.
    + apply IH. intros s Hs. apply H. right. exact Hs.
Qed.

(** The loop either runs through a list without a failing node and returns,
    or raises at the first failing node. *)
Lemma type_verify_from_spec (specs : list PatternMatcher) (all : list UOp)
    (rest : list UOp) (k : nat) :
  (forall u s, In u rest -> In s specs -> exists v, verdict s u v) ->
  (snd (type_verify_from env specs all k rest) = Ret tt
   /\ forall u, In u rest -> ~ node_fails specs u)
  \/ (exists n u,
        nth_error rest n = Some u
        /\ node_fails specs u
        /\ (forall j v, (j < n)%nat -> nth_error rest j = Some v ->
                        ~ node_fails specs v)
        /\ snd (type_verify_from env specs all k rest)
           = Raise (RuntimeError (failure_of (k + n) u))).
Proof.
  revert k. induction rest as [|u rest IH]; intros k Hj.
  - left. split; [reflexivity | intros u []].
  - destruct (mapM_verdicts specs u) as [vs [Hvs HF]];
      [intros s Hs; apply (Hj u s); [left; reflexivity | exact Hs]|].
    pose proof (verdicts_fail specs vs u HF) as Hfail.
    cbn [type_verify_from]. rewrite (snd_bind _ _ _ Hvs).
    destruct (existsb is_False vs || forallb is_abstain vs) eqn:E.
    + right. exists 0%nat, u. split; [reflexivity|].
      split; [apply Hfail; reflexivity|].
      split; [intros j v Hlt; inversion Hlt|].
      rewrite Nat.add_0_r.
      destruct (DEBUG env >=? 3); reflexivity.
    + assert (Hok : ~ node_fails specs u).
      { intros H. apply Hfail in H. discriminate H. }
      destruct (IH (S k)) as [[Hret Hnone] | [n [w [Hn [Hw [Hbefore Hraise]]]]]];
        [intros w s Hw Hs; apply Hj; [right; exact Hw | exact Hs]| |].
      * left. split; [exact Hret|].
        intros w [<-|Hw]; [exact Hok | exact (Hnone w Hw)].
      * right. exists (S n), w. split; [exact Hn|].
        split; [exact Hw|]. split.
        -- intros [|j] v Hlt Hv.
           ++ inversion Hv. subst v. exact Hok.
           ++ apply (Hbefore j v); [lia | exact Hv].
        -- rewrite Hraise. do 3 f_equal. lia.
Qed.

Lemma snd_bind_raise {A B} (m : M A) (f : A -> M B) (e : Exn) :
  snd m = Raise e -> snd (bind m f) = Raise e.
Proof. destruct m as [out r]. simpl. intros ->. reflexivity. Qed.

Lemma mapM_raise (pre post : list PatternMatcher) (s : PatternMatcher)
    (u : UOp) (e : Exn) :
  (forall s', In s' pre -> exists v, verdict s' u v) ->
  snd (rewrite s u) = Raise e ->
  snd (mapM (fun s => rewrite s u) (pre ++ s :: post)) = Raise e.
Proof.
  intros Hpre He. induction pre as [|s' pre IH]; cbn [app mapM].
  - apply snd_bind_raise. exact He.
  - destruct (Hpre s' (or_introl eq_refl)) as [v Hv].
    rewrite (snd_bind _ _ _ Hv). apply snd_bind_raise.
    apply IH. intros t Ht. apply Hpre. right. exact Ht.
Qed.

(** An exception of a predicate is not a verdict: when the nodes before
    position [length before] pass and a rule set raises on the node at that
    position (the rule sets tried before it on this node having returned),
    [type_verify] ends with that exception. *)
Lemma type_verify_propagates (before after : list UOp) (u : UOp)
    (extra pre post : list PatternMatcher) (s : PatternMatcher) (e : Exn) :
  let specs := spec env F :: extra in
  specs = pre ++ s :: post ->
  (forall w t, In w before -> In t specs -> exists v, verdict t w v) ->
  (forall w, In w before -> ~ node_fails specs w) ->
  (forall s', In s' pre -> exists v, verdict s' u v) ->
  snd (rewrite s u) = Raise e ->
  snd (type_verify env F (before ++ u :: after) extra) = Raise e.
Proof.
  intros specs Hspecs Hj Hok Hpre He. unfold type_verify. fold specs.
  generalize (before ++ u :: after) at 1. generalize 0%nat.
  induction before as [|w before IH]; intros k all.
  - cbn [app type_verify_from]. apply snd_bind_raise.
    rewrite Hspecs. apply mapM_raise; assumption.
  - cbn [app type_verify_from].
    destruct (mapM_verdicts specs w) as [vs [Hvs HF]];
      [intros t Ht; apply (Hj w t); [left; reflexivity | exact Ht]|].
    rewrite (snd_bind _ _ _ Hvs).
    destruct (existsb is_False vs || forallb is_abstain vs) eqn:E.
    + exfalso. apply (Hok w (or_introl eq_refl)).
      apply (verdicts_fail specs vs w HF). exact E.
    + apply IH.
      * intros w' t Hw' Ht. apply Hj; [right; exact Hw' | exact Ht].
      * intros w' Hw'. apply Hok. right. exact Hw'.
Qed.

Lemma Forall2_verdicts_judged (specs : list PatternMatcher)
    (vs : list (option bool)) (u : UOp) :
  Forall2 (fun s v => verdict s u v) specs vs ->
  forall s, In s specs -> exists v, verdict s u v.
Proof.
  induction 1 as [|s v specs vs Hv HF IH]; intros t Ht; [destruct Ht|].
  destruct Ht as [<-|Ht]; [exists v; exact Hv | exact (IH t Ht)].
Qed.

(** The rule sets are asked in order: either all return a verdict, or the
    exception of the first one that raises comes out. *)
Lemma mapM_outcome (specs : list PatternMatcher) (u : UOp) :
  (exists vs, snd (mapM (fun s => rewrite s u) specs) = Ret vs
              /\ Forall2 (fun s v => verdict s u v) specs vs)
  \/ (exists s e, In s specs /\ snd (rewrite s u) = Raise e
                  /\ snd (mapM (fun s => rewrite s u) specs) = Raise e).
Proof.
  induction specs as [|s specs IH].
  - left. exists []. split; [reflexivity | constructor].
  - cbn [mapM]. destruct (rewrite s u) as [out [v|e]] eqn:Es.
    + destruct IH as [[vs [Hvs HF]] | [t [e [Ht [He Hm]]]]].
      * left. exists (v :: vs). split.
        -- rewrite snd_bind_ret, (snd_bind _ _ _ Hvs). reflexivity.
        -- constructor; [unfold verdict; rewrite Es; reflexivity | exact HF].
      * right. exists t, e. split; [right; exact Ht|]. split; [exact He|].
        rewrite snd_bind_ret. apply snd_bind_raise. exact Hm.
    + right. exists s, e. split; [left; reflexivity|].
      split; [rewrite Es; reflexivity | reflexivity].
Qed.

(** How the loop of [type_verify] ends, whatever the rule sets do: it
    returns, every node being judged and none failing; or it raises its
    error at the first failing node, every node up to it being judged; or a
    predicate raises on a node before which every node is judged and
    passes, and that exception comes out. *)
Lemma type_verify_from_outcome (specs : list PatternMatcher) (all : list UOp)
    (rest : list UOp) (k : nat) :
  (snd (type_verify_from env specs all k rest) = Ret tt
   /\ all_judged specs rest
   /\ forall u, In u rest -> ~ node_fails specs u)
  \/ (exists n u,
        nth_error rest n = Some u
        /\ node_fails specs u
        /\ judged_before specs rest (S n)
        /\ (forall j v, (j < n)%nat -> nth_error rest j = Some v ->
                        ~ node_fails specs v)
        /\ snd (type_verify_from env specs all k rest)
           = Raise (RuntimeError (failure_of (k + n) u)))
  \/ (exists n u s e,
        nth_error rest n = Some u
        /\ In s specs /\ snd (rewrite s u) = Raise e
        /\ judged_before specs rest n
        /\ (forall j v, (j < n)%nat -> nth_error rest j = Some v ->
                        ~ node_fails specs v)
        /\ snd (type_verify_from env specs all k rest) = Raise e).
Proof.
  revert k. induction rest as [|u rest IH]; intros k.
  - left. split; [reflexivity|]. split; [intros u s [] | intros u []].
  - cbn [type_verify_from].
    destruct (mapM_outcome specs u) as [[vs [Hvs HF]] | [s [e [Hs [He Hm]]]]].
    + pose proof (verdicts_fail specs vs u HF) as Hfail.
      pose proof (Forall2_verdicts_judged specs vs u HF) as Hju.
      rewrite (snd_bind _ _ _ Hvs).
      destruct (existsb is_False vs || forallb is_abstain vs) eqn:E.
      * right. left. exists 0%nat, u. split; [reflexivity|].
        split; [apply Hfail; reflexivity|].
        split.
        { intros j v s Hlt Hv Hs. destruct j as [|j]; [|lia].
          inversion Hv. subst v. exact (Hju s Hs). }
        split; [intros j v Hlt; inversion Hlt|].
        rewrite Nat.add_0_r. destruct (DEBUG env >=? 3); reflexivity.
      * assert (Hok : ~ node_fails specs u).
        { intros H. apply Hfail in H. discriminate H. }
        destruct (IH (S k))
          as [[Hret [Hj Hnone]]
             | [[n [w [Hn [Hw [Hjb [Hbefore Hraise]]]]]]
               | [n [w [s [e [Hn [Hs [He [Hjb [Hbefore Hraise]]]]]]]]]]].
        -- left. split; [exact Hret|]. split.
           ++ intros w s [<-|Hw] Hs; [exact (Hju s Hs) | exact (Hj w s Hw Hs)].
           ++ intros w [<-|Hw]; [exact Hok | exact (Hnone w Hw)].
        -- right. left. exists (S n), w. split; [exact Hn|].
           split; [exact Hw|]. split.
           { intros [|j] v s Hlt Hv Hs.
             - inversion Hv. subst v. exact (Hju s Hs).
             - apply (Hjb j v s); [lia | exact Hv | exact Hs]. }
           split.
           { intros [|j] v Hlt Hv.
             - inversion Hv. subst v. exact Hok.
             - apply (Hbefore j v); [lia | exact Hv]. }
           rewrite Hraise. do 3 f_equal. lia.
        -- right. right. exists (S n), w, s, e. split; [exact Hn|].
           split; [exact Hs|]. split; [exact He|]. split.
           { intros [|j] v t Hlt Hv Ht.
             - inversion Hv. subst v. exact (Hju t Ht).
             - apply (Hjb j v t); [lia | exact Hv | exact Ht]. }
           split; [|exact Hraise].
           intros [|j] v Hlt Hv.
           ++ inversion Hv. subst v. exact Hok.
           ++ apply (Hbefore j v); [lia | exact Hv].
    + right. right. exists 0%nat, u, s, e. split; [reflexivity|].
      split; [exact Hs|]. split; [exact He|]. split.
      { intros j v t Hlt. lia. }
      split; [intros j v Hlt; lia|].
      apply snd_bind_raise. exact Hm.
Qed.

Lemma verdict_not_raise (s : PatternMatcher) (u : UOp) (e : Exn) :
  snd (rewrite s u) = Raise e -> ~ exists v, verdict s u v.
Proof. intros He [v Hv]. unfold verdict in Hv. rewrite He in Hv. discriminate Hv. Qed.

(** C1, as the code has it.
    For every node list and every choice of extra rule sets (the low-level
    op rule set [spec] is always active): [type_verify] returns normally if
    and only if every active rule set returns a verdict on every node of
    the list and no node fails (a node fails when some active rule set
    rejects it or every active rule set abstains on it).  If [i] is the
    first position whose node fails and every rule set returns a verdict on
    each node up to and including [i], [type_verify] raises its error at
    position [i], whatever the later nodes are; when every rule set returns
    a verdict on every node of the list, [type_verify] raises its error at
    position [i] if and only if [i] is the first position whose node fails.
    An exception raised inside a predicate is not a verdict: when the nodes
    before position [i] are judged and pass and some rule set raises on the
    node at [i], [type_verify] ends with the exception of a predicate on
    that node in place of its own error.  The error carries the position,
    the operator, the value type, the number and the operators of the
    sources and the argument of the failing node. *)
Theorem type_verify_first_failure (uops : list UOp) (extra : list PatternMatcher) :
  let specs := spec env F :: extra in
  let outcome := snd (type_verify env F uops extra) in
  (outcome = Ret tt
   <-> all_judged specs uops /\ forall i, ~ first_failure specs uops i)
  /\ (forall i u, nth_error uops i = Some u ->
        first_failure specs uops i -> judged_before specs uops (S i) ->
        outcome = Raise (RuntimeError (failure_of i u)))
  /\ (all_judged specs uops ->
      forall i, first_failure specs uops i
                <-> exists u, nth_error uops i = Some u
                              /\ outcome = Raise (RuntimeError (failure_of i u)))
  /\ (forall i u s e, nth_error uops i = Some u ->
        judged_before specs uops i ->
        (forall j v, (j < i)%nat -> nth_error uops j = Some v ->
                     ~ node_fails specs v) ->
        In s specs -> snd (rewrite s u) = Raise e ->
        exists s' e', In s' specs /\ snd (rewrite s' u) = Raise e'
                      /\ outcome = Raise e')
  /\ (forall i u, f_index (failure_of i u) = i
                  /\ f_op (failure_of i u) = op u
                  /\ f_dtype (failure_of i u) = dtype u
                  /\ f_nsrc (failure_of i u) = List.length (src u)
                  /\ f_src_ops (failure_of i u) = map op (src u)
                  /\ f_arg (failure_of i u) = arg u).
Proof.
  intros specs outcome. unfold outcome, type_verify. fold specs.
  pose proof (type_verify_from_outcome specs uops uops 0) as Hout.
  (* the diagnostic at a first failure *)
  assert (Hdiag : forall i u, nth_error uops i = Some u ->
            first_failure specs uops i -> judged_before specs uops (S i) ->
            snd (type_verify_from env specs uops 0 uops)
            = Raise (RuntimeError (failure_of i u))).
  { intros i u Hi [w [Hiw [Hw Hmin]]] Hjb.
    destruct Hout as [[_ [_ Hnone]]
                     | [[n [v [Hn [Hv [_ [Hbefore Hraise]]]]]]
                       | [n [v [s [e [Hn [Hs [He [_ [Hbefore _]]]]]]]]]]].
    - exfalso. exact (Hnone w (nth_error_In _ _ Hiw) Hw).
    - destruct (Nat.lt_trichotomy i n) as [Hlt | [-> | Hgt]].
      + exfalso. exact (Hbefore i w Hlt Hiw Hw).
      + rewrite Hn in Hi. inversion Hi. subst v. exact Hraise.
      + exfalso. exact (Hmin n v Hgt Hn Hv).
    - exfalso. destruct (Nat.lt_ge_cases i n) as [Hlt | Hge].
      + exact (Hbefore i w Hlt Hiw Hw).
      + apply (verdict_not_raise s v e He).
        apply (Hjb n v s); [lia | exact Hn | exact Hs]. }
  split; [|split; [exact Hdiag | split; [|split]]].
  - split.
    + intros Hret.
      destruct Hout as [[_ [Hj Hnone]]
                       | [[n [v [_ [_ [_ [_ Hraise]]]]]]
                         | [n [v [s [e [_ [_ [_ [_ [_ Hraise]]]]]]]]]]].
      * split; [exact Hj|]. intros i [w [Hiw [Hw _]]].
        exact (Hnone w (nth_error_In _ _ Hiw) Hw).
      * rewrite Hraise in Hret. discriminate Hret.
      * rewrite Hraise in Hret. discriminate Hret.
    + intros [Hj Hnone].
      destruct Hout as [[Hret _]
                       | [[n [v [Hn [Hv [_ [Hbefore _]]]]]]
                         | [n [v [s [e [Hn [Hs [He _]]]]]]]]].
      * exact Hret.
      * exfalso. apply (Hnone n). exists v.
        split; [exact Hn|]. split; [exact Hv | exact Hbefore].
      * exfalso. apply (verdict_not_raise s v e He).
        exact (Hj v s (nth_error_In _ _ Hn) Hs).
  - intros Hj i. split.
    + intros Hff. destruct Hff as [w [Hiw Hrest]] eqn:Ew. exists w.
      split; [exact Hiw|]. apply Hdiag; [exact Hiw | exists w; split; assumption |].
      intros j v s _ Hv Hs. exact (Hj v s (nth_error_In _ _ Hv) Hs).
    + intros [w [Hiw Hraise]].
      destruct Hout as [[Hret _]
                       | [[n [v [Hn [Hv [_ [Hbefore Hr]]]]]]
                         | [n [v [s [e [Hn [Hs [He _]]]]]]]]].
      * rewrite Hret in Hraise. discriminate Hraise.
      * rewrite Hr in Hraise. cbn [Nat.add] in Hraise.
        assert (n = i) by (inversion Hraise; reflexivity). subst n.
        exists v. split; [exact Hn|]. split; [exact Hv | exact Hbefore].
      * exfalso. apply (verdict_not_raise s v e He).
        exact (Hj v s (nth_error_In _ _ Hn) Hs).
  - intros i u s e Hi Hjb Hpass Hs He.
    destruct Hout as [[_ [Hj _]]
                     | [[n [v [Hn [Hv [Hjn [_ _]]]]]]
                       | [n [v [s' [e' [Hn [Hs' [He' [Hjn [Hbefore Hraise]]]]]]]]]]].
    + exfalso. apply (verdict_not_raise s u e He).
      exact (Hj u s (nth_error_In _ _ Hi) Hs).
    + exfalso. destruct (Nat.lt_ge_cases n i) as [Hlt | Hge].
      * exact (Hpass n v Hlt Hn Hv).
      * apply (verdict_not_raise s u e He).
        apply (Hjn i u s); [lia | exact Hi | exact Hs].
    + destruct (Nat.lt_trichotomy n i) as [Hlt | [-> | Hgt]].
      * exfalso. apply (verdict_not_raise s' v e' He').
        exact (Hjb n v s' Hlt Hn Hs').
      * rewrite Hn in Hi. inversion Hi. subst v.
        exists s', e'. split; [exact Hs'|]. split; [exact He' | exact Hraise].
      * exfalso. apply (verdict_not_raise s u e He).
        exact (Hjn i u s Hgt Hi Hs).
  - intros i u. repeat split.
Qed.

End Driver.

(* ================================================================== *)
(** * Shape consistency *)

(** ** [all_same], [dedup], [sorted] and [zip] *)

Lemma all_same_iff {A} (eqb : A -> A -> bool) (l : list A) :
  (forall a b, eqb a b = true <-> a = b) ->
  (all_same eqb l = true <-> forall x y, In x l -> In y l -> x = y).
Proof.
  intros Heq. destruct l as [|x0 l]; [simpl; split; [intros _ x y [] | reflexivity]|].
  unfold all_same. rewrite forallb_forall. split.
  - intros H x y Hx Hy.
    apply H in Hx. apply H in Hy. apply Heq in Hx. apply Heq in Hy. congruence.
  - intros H x Hx. apply Heq. apply H; [exact Hx | left; reflexivity].
Qed.

Lemma dedup_In (l : list Z) (x : Z) : In x (dedup l) <-> In x l.
Proof.
  induction l as [|y l IH]; [reflexivity|].
  cbn [dedup In]. rewrite filter_In, IH, negb_true_iff, Z.eqb_neq.
  destruct (Z.eq_dec y x) as [->|Hne]; [tauto|].
  split; [tauto|]. intros [H|H]; [tauto|]. right. split; [exact H | congruence].
Qed.

Lemma NoDup_filter {A} (f : A -> bool) (l : list A) : NoDup l -> NoDup (filter f l).
Proof.
  induction 1 as [|x l Hx Hnd IH]; [constructor|].
  simpl. destruct (f x); [|exact IH].
  constructor; [|exact IH]. intros H. apply filter_In in H. tauto.
Qed.

Lemma dedup_NoDup (l : list Z) : NoDup (dedup l).
Proof.
  induction l as [|y l IH]; [constructor|].
  cbn [dedup]. constructor.
  - intros H. apply filter_In in H. destruct H as [_ H].
    rewrite Z.eqb_refl in H. discriminate H.
  - apply NoDup_filter. exact IH.
Qed.

Lemma insert_sorted_In (x y : Z) (l : list Z) :
  In y (insert_sorted x l) <-> y = x \/ In y l.
Proof.
  induction l as [|z l IH]; [simpl; intuition congruence|].
  cbn [insert_sorted]. destruct (x <=? z); cbn [In]; [intuition congruence|].
  rewrite IH. intuition congruence.
Qed.

Lemma sorted_In (l : list Z) (x : Z) : In x (sorted l) <-> In x l.
Proof.
  induction l as [|y l IH]; [reflexivity|].
  cbn [sorted In]. rewrite insert_sorted_In, IH. intuition congruence.
Qed.

Lemma insert_sorted_strict (x : Z) (l : list Z) :
  StronglySorted Z.lt l -> ~ In x l -> StronglySorted Z.lt (insert_sorted x l).
Proof.
  induction l as [|z l IH]; intros Hs Hx.
  - repeat constructor.
  - apply StronglySorted_inv in Hs. destruct Hs as [Hs Hz].
    cbn [insert_sorted]. destruct (x <=? z) eqn:E.
    + apply Z.leb_le in E.
      assert (x < z) by (assert (x <> z) by (intros ->; apply Hx; left; reflexivity); lia).
      constructor; [constructor; assumption|].
      constructor; [assumption|].
      eapply Forall_impl; [|exact Hz]. intros a Ha. simpl in Ha. lia.
    + apply Z.leb_gt in E. constructor.
      * apply IH; [exact Hs|]. intros H. apply Hx. right. exact H.
      * apply Forall_forall. intros a Ha. apply insert_sorted_In in Ha.
        destruct Ha as [->|Ha]; [exact E|].
        rewrite Forall_forall in Hz. exact (Hz a Ha).
Qed.

Lemma sorted_strict (l : list Z) : NoDup l -> StronglySorted Z.lt (sorted l).
Proof.
  induction 1 as [|x l Hx Hnd IH]; [constructor|].
  cbn [sorted]. apply insert_sorted_strict; [exact IH|].
  rewrite sorted_In. exact Hx.
Qed.

(** The test of line 162 on the distinct sizes of one dimension. *)
Lemma dim_test_iff (l : list Z) :
  l <> [] ->
  let x := sorted (dedup l) in
  ((List.length x =? 1)%nat
   || ((List.length x =? 2)%nat
       && match x with x0 :: _ => x0 =? 1 | [] => false end) = true)
  <-> (one_size l \/ one_and_n l).
Proof.
  intros Hne x.
  assert (Hin : forall a, In a x <-> In a l).
  { intros a. unfold x. rewrite sorted_In, dedup_In. reflexivity. }
  assert (Hs : StronglySorted Z.lt x).
  { apply sorted_strict, dedup_NoDup. }
  clearbody x. unfold one_size, one_and_n. split.
  - intros H. destruct x as [|a [|b [|c x]]]; try discriminate H.
    + left. exists a. intros y Hy. apply Hin in Hy.
      destruct Hy as [<-|[]]. reflexivity.
    + cbn in H. apply Z.eqb_eq in H. subst a.
      apply StronglySorted_inv in Hs. destruct Hs as [_ Hs].
      inversion Hs as [|? ? Hab _]; subst.
      right. exists b. split; [exact Hab|].
      split; [apply Hin; left; reflexivity|].
      split; [apply Hin; right; left; reflexivity|].
      intros y Hy. apply Hin in Hy. destruct Hy as [<-|[<-|[]]]; auto.
  - intros [[n Hn] | [n [H1n [H1 [Hnin Hall]]]]].
    + destruct x as [|a [|b x]].
      * exfalso. destruct l as [|y l]; [apply Hne; reflexivity|].
        apply (proj2 (Hin y)). left. reflexivity.
      * reflexivity.
      * exfalso. apply StronglySorted_inv in Hs. destruct Hs as [_ Hs].
        inversion Hs as [|? ? Hab _]; subst.
        assert (a = n) by (apply Hn, Hin; left; reflexivity).
        assert (b = n) by (apply Hn, Hin; right; left; reflexivity).
        lia.
    + apply Hin in H1. apply Hin in Hnin.
      destruct x as [|a [|b [|c x]]].
      * destruct H1.
      * exfalso. destruct H1 as [H1|[]]. destruct Hnin as [Hnin|[]]. lia.
      * apply StronglySorted_inv in Hs. destruct Hs as [_ Hs].
        inversion Hs as [|? ? Hab _]; subst.
        assert (Ha : a = 1 \/ a = n) by (apply Hall, Hin; left; reflexivity).
        assert (Hb : b = 1 \/ b = n) by (apply Hall, Hin; right; left; reflexivity).
        assert (a = 1) by lia. subst a. reflexivity.
      * exfalso. apply StronglySorted_inv in Hs. destruct Hs as [Hs' Hs].
        inversion Hs as [|? ? Hab Hs2]; subst.
        inversion Hs2 as [|? ? Hac _]; subst.
        apply StronglySorted_inv in Hs'. destruct Hs' as [_ Hs'].
        inversion Hs' as [|? ? Hbc _]; subst.
        assert (Ha : a = 1 \/ a = n) by (apply Hall, Hin; left; reflexivity).
        assert (Hb : b = 1 \/ b = n) by (apply Hall, Hin; right; left; reflexivity).
        assert (Hc : c = 1 \/ c = n)
          by (apply Hall, Hin; right; right; left; reflexivity).
        lia.
Qed.

Lemma nth_error_combine {A B} (a : list A) (b : list B) (k : nat) :
  nth_error (combine a b) k
  = match nth_error a k, nth_error b k with
    | Some x, Some y => Some (x, y)
    | _, _ => None
    end.
Proof.
  revert b k. induction a as [|x a IH]; intros b k.
  - destruct k; reflexivity.
  - destruct b as [|y b].
    + destruct k; simpl; [reflexivity|]. destruct (nth_error a k); reflexivity.
    + destruct k; simpl; [reflexivity | apply IH].
Qed.

Lemma nth_error_in_range (l : list Z) (k : nat) :
  nth_error l k = if (k <? List.length l)%nat then Some (nth k l 0) else None.
Proof.
  destruct (k <? List.length l)%nat eqn:E.
  - apply Nat.ltb_lt in E. apply nth_error_nth'. exact E.
  - apply Nat.ltb_ge in E. apply nth_error_None. exact E.
Qed.

(** The [k]-th tuple of [zip] exists when every shape has a dimension [k],
    and holds the sizes at that dimension. *)
Lemma zip_star_nth (ls : list (list Z)) (k : nat) :
  ls <> [] ->
  nth_error (zip_star ls) k
  = if forallb (fun sh => (k <? List.length sh)%nat) ls
    then Some (sizes_at k ls) else None.
Proof.
  induction ls as [|l ls IH]; intros Hne; [contradiction|].
  destruct ls as [|l2 ls].
  - cbn [zip_star forallb sizes_at map]. rewrite nth_error_map, nth_error_in_range.
    destruct (k <? List.length l)%nat; reflexivity.
  - change (zip_star (l :: l2 :: ls))
      with (map (fun xt : Z * list Z => fst xt :: snd xt)
                (combine l (zip_star (l2 :: ls)))).
    rewrite nth_error_map, nth_error_combine, nth_error_in_range, IH by discriminate.
    change (forallb (fun sh => (k <? List.length sh)%nat) (l :: l2 :: ls))
      with ((k <? List.length l)%nat
            && forallb (fun sh => (k <? List.length sh)%nat) (l2 :: ls)).
    destruct (k <? List.length l)%nat; [|reflexivity].
    destruct (forallb _ (l2 :: ls)); reflexivity.
Qed.

Lemma common_dim_forallb (k : nat) (ls : list (list Z)) :
  forallb (fun sh => (k <? List.length sh)%nat) ls = true <-> common_dim k ls.
Proof.
  rewrite forallb_forall. unfold common_dim.
  split; intros H sh Hsh; apply Nat.ltb_lt; exact (H sh Hsh).
Qed.

Lemma forallb_zip_star (P : list Z -> bool) (ls : list (list Z)) :
  ls <> [] ->
  (forallb P (zip_star ls) = true
   <-> forall k, common_dim k ls -> P (sizes_at k ls) = true).
Proof.
  intros Hne. rewrite forallb_forall. split.
  - intros H k Hk. apply H. apply (nth_error_In _ k).
    rewrite (zip_star_nth ls k Hne).
    apply common_dim_forallb in Hk. rewrite Hk. reflexivity.
  - intros H col Hcol. apply In_nth_error in Hcol. destruct Hcol as [k Hk].
    rewrite (zip_star_nth ls k Hne) in Hk.
    destruct (forallb _ ls) eqn:E; [|discriminate Hk].
    inversion Hk. subst col. apply H. apply common_dim_forallb. exact E.
Qed.

(** ** The shape rules *)

Section ShapeSpec.

Variable F : Facts.

Lemma forallb_map_comp {A B} (f : B -> bool) (g : A -> B) (l : list A) :
  forallb f (map g l) = forallb (fun x => f (g x)) l.
Proof. induction l as [|x l IH]; simpl; [reflexivity | rewrite IH; reflexivity]. Qed.

Lemma verify_sink_dims_iff (sink : UOp) :
  verify_sink_dims F sink = true
  <-> (forall x y, In x (src sink) -> In y (src sink) ->
                   size (st_arg F x) = size (st_arg F y))
      /\ (forall k, common_dim k (sink_shapes F sink) ->
                    one_size (sizes_at k (sink_shapes F sink))
                    \/ one_and_n (sizes_at k (sink_shapes F sink))).
Proof.
  unfold verify_sink_dims. rewrite andb_true_iff.
  rewrite (all_same_iff Z.eqb _ Z.eqb_eq), forallb_map_comp.
  match goal with
  | |- (?A /\ ?B) <-> (?C /\ ?D) =>
      assert (H1 : A <-> C); [|assert (H2 : B <-> D); [|tauto]]
  end.
  - split.
    + intros H x y Hx Hy. apply H; apply in_map_iff; eexists; split; eauto.
    + intros H a b Ha Hb. apply in_map_iff in Ha, Hb.
      destruct Ha as [x [<- Hx]]. destruct Hb as [y [<- Hy]]. exact (H x y Hx Hy).
  - clear H1. destruct (sink_shapes F sink) as [|sh ls] eqn:E.
    + split; [|reflexivity]. intros _ k _. left. exists 0. intros x [].
    + rewrite forallb_zip_star by discriminate.
      split; intros H k Hk.
      * apply (dim_test_iff (sizes_at k (sh :: ls))); [discriminate|].
        exact (H k Hk).
      * apply (dim_test_iff (sizes_at k (sh :: ls))); [discriminate|].
        exact (H k Hk).
Qed.

Lemma rules_for_SINK_shape : rules_for SINK (shape_spec F) = [shape_spec_l166 F].
Proof. vm_compute. reflexivity. Qed.

(** Line 166 is tried on a SINK only when a STORE is among its sources. *)
Lemma early_ok_l166 (u : UOp) :
  early_ok (fst (shape_spec_l166 F)) u = existsb (fun x => Ops_eqb (op x) STORE) (src u).
Proof.
  unfold early_ok. cbn. rewrite andb_true_r. unfold op_in.
  induction (src u) as [|x l IH]; [reflexivity|].
  cbn [map existsb]. rewrite IH. f_equal.
Qed.

Lemma shape_spec_on_sink (u : UOp) :
  op u = SINK -> Forall (fun s => op s = STORE) (src u) -> src u <> [] ->
  rewrite (shape_spec F) u = ret (Some (verify_sink_dims F u)).
Proof.
  intros Hop Hsrc Hne. rewrite rewrite_rules_for, Hop, rules_for_SINK_shape.
  rewrite rewrite_cons_early, early_ok_l166.
  destruct u as [o d s a]. simpl in Hop, Hsrc, Hne. subst o. cbn [src].
  destruct s as [|x0 s0]; [contradiction|].
  assert (E0 : existsb (fun x => Ops_eqb (op x) STORE) (x0 :: s0) = true).
  { cbn [existsb]. inversion Hsrc as [|? ? Hx0 _]. rewrite Hx0. reflexivity. }
  rewrite E0. unfold shape_spec_l166 at 1 2. cbn [fst snd].
  cbn -[rep_match verify_sink_dims]. rewrite rep_match_op_only.
  assert (E : forallb (fun x => op_in (op x) [STORE]) (x0 :: s0) = true).
  { apply forallb_Forall. eapply Forall_impl; [|exact Hsrc].
    intros x Hx. apply op_in_In. left. symmetry. exact Hx. }
  rewrite E. reflexivity.
Qed.

(** A SINK with a source that is not a STORE, or without sources, matches
    no rule of the shape rule set. *)
Lemma shape_spec_on_unmatched_sink (u : UOp) :
  op u = SINK -> forallb (fun x => Ops_eqb (op x) STORE) (src u) = false \/ src u = [] ->
  rewrite (shape_spec F) u = ret None.
Proof.
  intros Hop Hsrc. rewrite rewrite_rules_for, Hop, rules_for_SINK_shape.
  rewrite rewrite_cons_early, early_ok_l166.
  destruct (existsb (fun x => Ops_eqb (op x) STORE) (src u)) eqn:E0; [|reflexivity].
  destruct Hsrc as [Hsrc | Hsrc]; [|rewrite Hsrc in E0; discriminate E0].
  destruct u as [o d s a]. simpl in Hop, Hsrc. subst o.
  unfold shape_spec_l166 at 1 2. cbn [fst snd].
  cbn -[rep_match verify_sink_dims]. rewrite rep_match_op_only.
  assert (E : forallb (fun x => op_in (op x) [STORE]) s = false).
  { rewrite <- Hsrc. clear. induction s as [|x s IH]; [reflexivity|].
    cbn [forallb]. rewrite IH. unfold op_in. cbn [existsb].
    rewrite orb_false_r. reflexivity. }
  rewrite E. reflexivity.
Qed.

Lemma shape_spec_on_other (u : UOp) :
  op u <> SINK ->
  rewrite (shape_spec F) u
  = ret (Some (all_same Zlist_eqb (shapes_of F (src u)))).
Proof.
  intros Hop. destruct u as [o d s a]. simpl in Hop.
  destruct o; try (exfalso; apply Hop; reflexivity); vm_compute; reflexivity.
Qed.

(** C4, as the code has it.
    On a SINK node with at least one direct source, all of whose direct
    sources are STORE nodes, the shape rule set accepts if and only if
    every direct source reports the same element count and, for every
    dimension index that every shaped node of the dependency closure has
    (indices beyond the shortest shape are not examined), the sizes found
    at that index are all the same, or are 1 and one larger size; it
    rejects otherwise.  On a SINK node without sources the rule set
    abstains: line 166 is not tried on it.  On a node that is not a SINK it
    accepts if and only if all shaped sources have the same shape, and
    rejects otherwise. *)
Theorem shape_spec_verdicts (u : UOp) :
  (op u = SINK -> Forall (fun s => op s = STORE) (src u) ->
     let sizes_agree :=
       forall x y, In x (src u) -> In y (src u) ->
                   size (st_arg F x) = size (st_arg F y) in
     let dims_agree :=
       forall k, common_dim k (sink_shapes F u) ->
                 one_size (sizes_at k (sink_shapes F u))
                 \/ one_and_n (sizes_at k (sink_shapes F u)) in
     (src u = [] -> rewrite (shape_spec F) u = ret None)
     /\ (src u <> [] ->
         rewrite (shape_spec F) u = ret (Some (verify_sink_dims F u))
         /\ (accepts (shape_spec F) u <-> sizes_agree /\ dims_agree)
         /\ (rejects (shape_spec F) u <-> ~ (sizes_agree /\ dims_agree))))
  /\ (op u <> SINK ->
     rewrite (shape_spec F) u
     = ret (Some (all_same Zlist_eqb (shapes_of F (src u))))
     /\ (accepts (shape_spec F) u
         <-> forall a b, In a (shapes_of F (src u)) ->
                         In b (shapes_of F (src u)) -> a = b)).
Proof.
  split.
  - intros Hop Hsrc sizes_agree dims_agree. split.
    + intros Hnil. apply (shape_spec_on_unmatched_sink u Hop). right. exact Hnil.
    + intros Hne. pose proof (shape_spec_on_sink u Hop Hsrc Hne) as E.
      split; [exact E|].
      unfold accepts, rejects, verdict, sizes_agree, dims_agree.
      rewrite E, <- verify_sink_dims_iff. simpl.
      split; split.
      * intros H. inversion H. reflexivity.
      * intros ->. reflexivity.
      * intros H. inversion H as [H']. rewrite H'. discriminate.
      * intros H. destruct (verify_sink_dims F u); [|reflexivity].
        exfalso. apply H. reflexivity.
  - intros Hop. pose proof (shape_spec_on_other u Hop) as E.
    split; [exact E|].
    unfold accepts, verdict. rewrite E.
    rewrite <- (all_same_iff Zlist_eqb _ Zlist_eqb_eq). simpl.
    split; [intros H; inversion H; reflexivity | intros ->; reflexivity].
Qed.

End ShapeSpec.

(* ================================================================== *)
(** * The statements at concrete inputs *)

(** ** Instances of the theorems *)

Lemma type_verify_first_failure_witness :
  all_judged (spec env_plain ex_facts :: [buffer_spec]) ex_uops
  /\ first_failure (spec env_plain ex_facts :: [buffer_spec]) ex_uops 3
  /\ snd (type_verify env_plain ex_facts ex_uops [buffer_spec])
     = Raise (RuntimeError (failure_of 3 ex_bare_buffer)).
Proof.
  assert (Hj : all_judged (spec env_plain ex_facts :: [buffer_spec]) ex_uops).
  { intros u s Hu Hs. unfold ex_uops in Hu. simpl in Hu, Hs.
    destruct Hu as [<-|[<-|[<-|[<-|[]]]]]; destruct Hs as [<-|[<-|[]]];
      eexists; unfold verdict; vm_compute; reflexivity. }
  split; [exact Hj|].
  destruct (type_verify_first_failure env_plain ex_facts ex_uops [buffer_spec])
    as [_ [_ [H _]]].
  assert (Hr : snd (type_verify env_plain ex_facts ex_uops [buffer_spec])
               = Raise (RuntimeError (failure_of 3 ex_bare_buffer)))
    by (vm_compute; reflexivity).
  split; [|exact Hr].
  apply (H Hj 3%nat). exists ex_bare_buffer. split; [reflexivity | exact Hr].
Defined.

Lemma validate_kernel_hard_assert_witness :
  op ex_kernel_add = KERNEL
  /\ Forall (fun s => In (op s) [BUFFER; BUFFER_VIEW; ASSIGN]) (src ex_kernel_add)
  /\ arg ex_kernel_add = AKernel ex_add
  /\ ~ kernel_root_ok ex_add
  /\ rewrite (assign_spec ex_facts) ex_kernel_add
     = raise (AssertionError "must end with SINK/COPY/BUFFER_VIEW" (AKernel ex_add))
  /\ type_verify env_plain ex_facts [ex_kernel_add; ex_noop] [assign_spec ex_facts]
     = raise (AssertionError "must end with SINK/COPY/BUFFER_VIEW" (AKernel ex_add)).
Proof.
  assert (Hsrc : Forall (fun s => In (op s) [BUFFER; BUFFER_VIEW; ASSIGN])
                        (src ex_kernel_add)).
  { repeat constructor. }
  assert (Hroot : ~ kernel_root_ok ex_add).
  { intros [H|[H|[H|[]]]]; discriminate H. }
  destruct (validate_kernel_hard_assert env_plain ex_facts ex_kernel_add ex_add
              eq_refl Hsrc eq_refl) as [H _].
  destruct (H Hroot) as [_ [H2 H3]].
  split; [reflexivity|]. split; [exact Hsrc|]. split; [reflexivity|].
  split; [exact Hroot|]. split; [exact H2|].
  exact (H3 [ex_noop] []).
Defined.

Lemma validate_index_bounds_witness :
  op ex_index_oob = INDEX
  /\ src ex_index_oob = [ex_global; ex_const5]
  /\ IGNORE_OOB env_debug = 0
  /\ is_ImageDType (dtype ex_index_oob) = false
  /\ dtype_size (dtype ex_global) = ret 4
  /\ special_args_are_tuples ex_index_oob
  /\ validate_index env_debug ex_facts ex_index_oob None
     = ([OutOfBounds 5 5 4 "idx"], Ret false).
Proof.
  assert (Htup : special_args_are_tuples ex_index_oob).
  { intros x Hx Hop. simpl in Hx.
    destruct Hx as [<-|[<-|[<-|[]]]]; discriminate Hop. }
  split; [reflexivity|]. split; [reflexivity|]. split; [reflexivity|].
  split; [reflexivity|]. split; [reflexivity|]. split; [exact Htup|].
  destruct (validate_index_bounds env_debug ex_facts ex_index_oob ex_global ex_const5 4
              eq_refl eq_refl eq_refl eq_refl eq_refl Htup) as [_ [_ [H _]]].
  assert (Hnd : ~ (exists x, (In x (toposort ex_global) \/ In x (toposort ex_const5))
                             /\ dynamic_dep x)).
  { intros [x [[Hx|Hx] Hd]]; simpl in Hx; destruct Hx as [<-|[]];
      destruct Hd as [Hd|[Hd|[Hd _]]]; discriminate Hd. }
  destruct (H Hnd) as [_ [H2 _]]; [discriminate|].
  apply H2. right. vm_compute. discriminate.
Defined.

Lemma shape_spec_verdicts_witness :
  op ex_sink_broadcast = SINK
  /\ Forall (fun s => op s = STORE) (src ex_sink_broadcast)
  /\ sink_shapes ex_facts ex_sink_broadcast = [[4; 3]; [4; 1]; [4; 1]; [4; 3]]
  /\ rewrite (shape_spec ex_facts) ex_sink_broadcast = ret (Some true).
Proof.
  assert (Hsrc : Forall (fun s => op s = STORE) (src ex_sink_broadcast)).
  { repeat constructor. }
  split; [reflexivity|]. split; [exact Hsrc|]. split; [reflexivity|].
  destruct (shape_spec_verdicts ex_facts ex_sink_broadcast) as [H _].
  destruct (H eq_refl Hsrc) as [_ Hne].
  assert (Hsome : src ex_sink_broadcast <> []) by discriminate.
  destruct (Hne Hsome) as [E _]. rewrite E. reflexivity.
Defined.

Lemma barrier_accepted_iff_void_witness :
  op ex_barrier_noop = BARRIER
  /\ dtype ex_barrier_noop = dtypes.void
  /\ rewrite (spec env_plain ex_facts) ex_barrier_noop = ret (Some true).
Proof.
  split; [reflexivity|]. split; [reflexivity|].
  destruct (barrier_accepted_iff_void env_plain ex_facts ex_barrier_noop eq_refl)
    as [H _].
  exact (H eq_refl).
Defined.

Lemma sched_spec_verdicts_witness :
  op ex_add <> SINK
  /\ ~ In (op ex_add) sched_accepted_ops
  /\ rewrite (sched_spec ex_facts) ex_add = ret (Some false).
Proof.
  assert (H1 : op ex_add <> SINK) by discriminate.
  assert (H2 : ~ In (op ex_add) sched_accepted_ops).
  { simpl. intros [H|[H|[H|[H|[H|[H|[]]]]]]]; discriminate H. }
  split; [exact H1|]. split; [exact H2|].
  destruct (sched_spec_verdicts ex_facts ex_add) as [_ [H _]].
  exact (H H1 H2).
Defined.

Lemma buffer_spec_rejects_or_abstains_witness :
  op ex_buffer_str = BUFFER
  /\ (exists d q, src ex_buffer_str = [d; q] /\ op d = DEVICE /\ op q = UNIQUE)
  /\ isinstance_int (arg ex_buffer_str) = false
  /\ rewrite buffer_spec ex_buffer_str = ret (Some false).
Proof.
  assert (Hsrc : exists d q, src ex_buffer_str = [d; q]
                             /\ op d = DEVICE /\ op q = UNIQUE).
  { exists ex_device, ex_unique. repeat split. }
  split; [reflexivity|]. split; [exact Hsrc|]. split; [reflexivity|].
  destruct (buffer_spec_rejects_or_abstains ex_buffer_str) as [H _].
  destruct (H eq_refl) as [H1 _].
  exact (H1 Hsrc).
Defined.

Lemma shift_accepted_iff_witness :
  (op ex_shl_uint32 = SHL \/ op ex_shl_uint32 = SHR)
  /\ src ex_shl_uint32 = [ex_x_int32; ex_y_uint32]
  /\ dtype ex_y_uint32 = dtypes.uint
  /\ rewrite (spec env_plain ex_facts) ex_shl_uint32 = ret (Some true).
Proof.
  split; [left; reflexivity|]. split; [reflexivity|]. split; [reflexivity|].
  destruct (shift_accepted_iff env_plain ex_facts ex_shl_uint32 ex_x_int32 ex_y_uint32
              (or_introl eq_refl) eq_refl) as [E _].
  rewrite E. reflexivity.
Defined.

Lemma ignore_oob_accepts_every_index_witness :
  IGNORE_OOB env_ignore_oob <> 0
  /\ validate_index env_plain ex_facts ex_index_oob None = ret false
  /\ validate_index env_ignore_oob ex_facts ex_index_oob None = ret true
  /\ rewrite (spec env_ignore_oob ex_facts) ex_index_oob = ret (Some true).
Proof.
  assert (Hflag : IGNORE_OOB env_ignore_oob <> 0) by discriminate.
  destruct (ignore_oob_accepts_every_index env_ignore_oob ex_facts Hflag)
    as [H1 [H2 _]].
  split; [exact Hflag|]. split; [vm_compute; reflexivity|].
  split; [exact (H1 ex_index_oob None)|].
  apply (H2 ex_index_oob ex_global ex_const5); [reflexivity | reflexivity|].
  left. reflexivity.
Defined.

Lemma ptx_load_store_verdict_witness :
  (op ex_store_ptx = LOAD \/ op ex_store_ptx = STORE)
  /\ src ex_store_ptx = ex_addr :: [ex_x_int32; ex_noop; ex_noop]
  /\ dtype ex_addr = dtypes.int64
  /\ rewrite (spec env_plain ex_facts) ex_store_ptx = ret (Some true).
Proof.
  split; [right; reflexivity|]. split; [reflexivity|]. split; [reflexivity|].
  destruct (ptx_load_store_verdict env_plain ex_facts ex_store_ptx ex_addr
              [ex_x_int32; ex_noop; ex_noop] (or_intror eq_refl) eq_refl eq_refl)
    as [_ [H _]].
  exact (H eq_refl).
Defined.

(** ** The end-to-end scenarios *)

(** Scenario A: a device, a unique id and a buffer over them pass under the
    topology rules. *)
Example scenario_buffer_accepted :
  type_verify env_plain ex_facts [ex_device; ex_unique; ex_buffer] [buffer_spec]
  = ret tt.
Proof. vm_compute. reflexivity. Qed.

(** Scenario B: a WHERE whose branches differ in value type is rejected by
    the low-level op rules. *)
Example scenario_where_rejected :
  rewrite (spec env_plain ex_facts) ex_where = ret (Some false)
  /\ type_verify env_plain ex_facts [ex_cond; ex_x_int32; ex_float; ex_where] []
     = raise (RuntimeError (failure_of 3 ex_where)).
Proof. split; vm_compute; reflexivity. Qed.

(** Scenario C: a kernel whose descriptor has an ADD at its root ends the
    run with the assertion error, after the buffer nodes have passed. *)
Example scenario_kernel_fatal :
  type_verify env_plain ex_facts
    [ex_device; ex_unique; ex_buffer; ex_kernel_add; ex_noop]
    [buffer_spec; assign_spec ex_facts]
  = raise (AssertionError "must end with SINK/COPY/BUFFER_VIEW" (AKernel ex_add)).
Proof. vm_compute. reflexivity. Qed.

(** ** Inputs on which the statements of the specification fail *)

(** C1.  The node list that holds one DEFINE_VAR whose argument is [None]:
    the low-level op rule set returns no verdict on the node, the predicate
    of line 79 raises TypeError.  No position of the list is a first
    failure, no rule set rejects the node and not every rule set abstains
    on it, yet [type_verify] does not return normally: the TypeError of the
    predicate comes out. *)
Lemma type_verify_counterexample :
  snd (rewrite (spec env_plain ex_facts) ex_define_var_none) = Raise TypeError
  /\ (forall i, ~ first_failure [spec env_plain ex_facts] [ex_define_var_none] i)
  /\ snd (type_verify env_plain ex_facts [ex_define_var_none] []) = Raise TypeError
  /\ snd (type_verify env_plain ex_facts [ex_define_var_none] []) <> Ret tt.
Proof.
  assert (Hr : snd (rewrite (spec env_plain ex_facts) ex_define_var_none)
               = Raise TypeError) by (vm_compute; reflexivity).
  assert (Ht : snd (type_verify env_plain ex_facts [ex_define_var_none] [])
               = Raise TypeError) by (vm_compute; reflexivity).
  split; [exact Hr|]. split; [|split; [exact Ht|]].
  - intros i [u [Hi [Hf _]]].
    assert (Hu : u = ex_define_var_none).
    { destruct i as [|i]; [inversion Hi; reflexivity|].
      destruct i; discriminate Hi. }
    subst u. destruct Hf as [[s [Hs Hrej]] | Hall].
    + destruct Hs as [<-|[]]. unfold rejects, verdict in Hrej.
      rewrite Hr in Hrej. discriminate Hrej.
    + specialize (Hall _ (or_introl eq_refl)). unfold abstains, verdict in Hall.
      rewrite Hr in Hall. discriminate Hall.
  - rewrite Ht. discriminate.
Qed.

(** C3.  The offset is a SPECIAL whose argument has the non-integer
    component ["gidx0"], its first; the bounds check does not accept but
    rejects the range 0..15 against 4 elements, and with DEBUG at 0 it
    prints nothing.  With a DEFINE_VAR under the buffer operand and none in
    the offset expression, offset 5 into 4 elements is accepted. *)
Lemma validate_index_counterexample :
  (exists items y, arg ex_special = ATuple items /\ In y items
                   /\ isinstance_int y = false)
  /\ In ex_special (toposort ex_special)
  /\ validate_index env_plain ex_facts ex_index_special None = ([], Ret false)
  /\ (forall x, In x (toposort ex_const5) ->
                op x <> DEFINE_VAR /\ op x <> BITCAST /\ op x <> SPECIAL)
  /\ dtype_size (dtype ex_global_dep) = ret 4
  /\ vmax ex_facts ex_const5 >= 4
  /\ validate_index env_plain ex_facts ex_index_dep None = ret true.
Proof.
  split.
  { exists [AStr "gidx0"; AInt 16], (AStr "gidx0").
    split; [reflexivity|]. split; [left; reflexivity | reflexivity]. }
  split; [left; reflexivity|].
  split; [vm_compute; reflexivity|].
  split.
  { intros x [<-|[]]. split; [discriminate|]. split; discriminate. }
  split; [reflexivity|].
  split; [vm_compute; discriminate|].
  vm_compute. reflexivity.
Qed.

(** C4.  A SINK over one STORE whose closure has the shapes (1) and (0) has
    two distinct sizes at index 0, one of them 1, yet the node is rejected.
    A SINK over one STORE whose closure has the shapes (2,3), (2,5) and (2)
    has the sizes 3 and 5 at index 1, yet the node is accepted.  On a SINK
    without sources both conditions hold vacuously, yet the rule set does
    not accept it: it abstains. *)
Lemma shape_spec_counterexample :
  (op ex_sink_zero = SINK
   /\ Forall (fun s => op s = STORE) (src ex_sink_zero)
   /\ List.length (src ex_sink_zero) = 1%nat
   /\ sink_shapes ex_facts ex_sink_zero = [[1]; [0]; [0]; [1]]
   /\ rewrite (shape_spec ex_facts) ex_sink_zero = ret (Some false))
  /\ (op ex_sink_ranks = SINK
      /\ Forall (fun s => op s = STORE) (src ex_sink_ranks)
      /\ List.length (src ex_sink_ranks) = 1%nat
      /\ sink_shapes ex_facts ex_sink_ranks
         = [[2; 3]; [2; 5]; [2]; [2]; [2; 5]; [2; 3]]
      /\ rewrite (shape_spec ex_facts) ex_sink_ranks = ret (Some true))
  /\ (op ex_sink_empty = SINK
      /\ Forall (fun s => op s = STORE) (src ex_sink_empty)
      /\ sink_shapes ex_facts ex_sink_empty = []
      /\ rewrite (shape_spec ex_facts) ex_sink_empty = ret None).
Proof.
  split; [|split].
  - split; [reflexivity|]. split; [repeat constructor|].
    split; [reflexivity|]. split; vm_compute; reflexivity.
  - split; [reflexivity|]. split; [repeat constructor|].
    split; [reflexivity|]. split; vm_compute; reflexivity.
  - split; [reflexivity|]. split; [constructor|].
    split; vm_compute; reflexivity.
Qed.

(** C5.  A void BARRIER whose only source is a NOOP is accepted; a float
    BARRIER without sources is not. *)
Lemma barrier_counterexample :
  (op ex_barrier_noop = BARRIER
   /\ src ex_barrier_noop = [ex_noop]
   /\ op ex_noop <> STORE
   /\ rewrite (spec env_plain ex_facts) ex_barrier_noop = ret (Some true))
  /\ (op ex_barrier_float = BARRIER
      /\ src ex_barrier_float = []
      /\ rewrite (spec env_plain ex_facts) ex_barrier_float = ret None).
Proof.
  split.
  - split; [reflexivity|]. split; [reflexivity|]. split; [discriminate|].
    vm_compute. reflexivity.
  - split; [reflexivity|]. split; [reflexivity|]. vm_compute. reflexivity.
Qed.

(** C6.  A SINK node is not rejected by the scheduler-graph rule set: the
    rule set abstains on it, and a node list that holds it passes the
    driver under that rule set. *)
Lemma sched_spec_counterexample :
  op ex_sink_empty = SINK
  /\ ~ In (op ex_sink_empty) [BUFFER; ASSIGN; KERNEL]
  /\ rewrite (sched_spec ex_facts) ex_sink_empty = ret None
  /\ type_verify env_plain ex_facts [ex_sink_empty] [sched_spec ex_facts] = ret tt.
Proof.
  split; [reflexivity|]. split; [|split].
  - simpl. intros [H|[H|[H|[]]]]; discriminate H.
  - vm_compute. reflexivity.
  - vm_compute. reflexivity.
Qed.

(** C7.  A BUFFER node without sources and with a string argument, and a
    BUFFER_VIEW node without sources and with a 3-tuple argument, are not
    rejected by the buffer topology rule set: it abstains on both. *)
Lemma buffer_spec_counterexample :
  (op ex_bare_buffer = BUFFER
   /\ src ex_bare_buffer = []
   /\ isinstance_int (arg ex_bare_buffer) = false
   /\ rewrite buffer_spec ex_bare_buffer = ret None)
  /\ (op ex_bare_buffer_view = BUFFER_VIEW
      /\ arg ex_bare_buffer_view = ATuple [AInt 1; AInt 2; AInt 3]
      /\ rewrite buffer_spec ex_bare_buffer_view = ret None).
Proof.
  split.
  - split; [reflexivity|]. split; [reflexivity|]. split; [reflexivity|].
    vm_compute. reflexivity.
  - split; [reflexivity|]. split; [reflexivity|]. vm_compute. reflexivity.
Qed.

(** C8.  [int32 << uint8]: the result type is the type of the left operand
    and the shift amount has an unsigned integer type, yet the node is
    rejected. *)
Lemma shift_counterexample :
  op ex_shl_uint8 = SHL
  /\ src ex_shl_uint8 = [ex_x_int32; ex_y_uint8]
  /\ dtype ex_shl_uint8 = dtype ex_x_int32
  /\ dtypes.is_unsigned (dtype ex_y_uint8) = true
  /\ rewrite (spec env_plain ex_facts) ex_shl_uint8 = ret (Some false).
Proof.
  split; [reflexivity|]. split; [reflexivity|]. split; [reflexivity|].
  split; vm_compute; reflexivity.
Qed.

(** C10.  A LOAD whose first source has the value type int64 is rejected:
    line 108 compares its value type with that of the second source before
    line 149 is reached. *)
Lemma ptx_load_counterexample :
  op ex_load_ptx_mismatch = LOAD
  /\ src ex_load_ptx_mismatch = [ex_addr; ex_x_int32]
  /\ dtype ex_addr = dtypes.int64
  /\ rewrite (spec env_plain ex_facts) ex_load_ptx_mismatch = ret (Some false).
Proof.
  split; [reflexivity|]. split; [reflexivity|]. split; [reflexivity|].
  vm_compute. reflexivity.
Qed.

(* ================================================================== *)
(** * Where the rule sets return a verdict *)

(** Case analysis on what is left of a rule evaluation on a node with
    unknown parts: the tests on operators and value types. *)
Ltac stuck_tests :=
  repeat (match goal with
          | |- context [Ops_eqb ?a ?b] => destruct (Ops_eqb a b) eqn:?
          | |- context [DType_eqb ?a ?b] => destruct (DType_eqb a b) eqn:?
          | |- context [dtypes.is_int ?a] => destruct (dtypes.is_int a) eqn:?
          | |- context [dtype_local ?d] => destruct d
          | |- context [is_PtrDType ?d] => destruct d
          end; cbn -[dtypes.is_int rep_match]).

(** The rules of the table that can match the node, evaluated as far as the
    known parts of the node allow. *)
Ltac eval_rules :=
  rewrite rewrite_rules_for; cbv [op rules_for];
  cbn -[rewrite dtypes.is_int rep_match]; unfold_rules;
  cbn -[dtypes.is_int rep_match]; norm_dtype; unfold dtype_in;
  cbn -[dtypes.is_int rep_match].

Section Totality.

Variable env : Env.
Variable F : Facts.

Lemma spec_on_barrier_returns (u : UOp) :
  op u = BARRIER -> exists v, rewrite (spec env F) u = ret v.
Proof.
  intros Hop. destruct u as [o d s a]. simpl in Hop. subst o.
  rewrite spec_on_barrier. eexists. reflexivity.
Qed.

Lemma spec_returns_outside (u : UOp) :
  ~ In (op u) spec_may_raise ->
  exists v, rewrite (spec env F) u = ret v.
Proof.
  intros Hop.
  destruct (Ops_eq_dec (op u) BARRIER) as [Hb|Hb];
    [exact (spec_on_barrier_returns u Hb)|].
  destruct u as [o d s a]. simpl in Hop, Hb.
  destruct o;
    try (exfalso; apply Hop; simpl; tauto);
    try (exfalso; apply Hb; reflexivity);
    destruct s as [|x0 [|x1 [|x2 [|x3 s]]]];
    eval_rules; stuck_tests; eexists; reflexivity.
Qed.

(** X1.  The low-level op rule set can raise on six operators only.  On
    every node whose operator is not DEFINE_VAR, CONST, CONTRACT, UNROLL,
    VECTORIZE or INDEX it returns a verdict and prints nothing, whatever the
    value type, the sources and the argument of the node are; and for each
    of these six operators there is a node on which a predicate raises
    (for INDEX when the bounds check is not switched off). *)
Theorem spec_raises_only_on (u : UOp) :
  (~ In (op u) spec_may_raise -> exists v, rewrite (spec env F) u = ret v)
  /\ (IGNORE_OOB env = 0 ->
      forall o, In o spec_may_raise ->
        exists w e, op w = o /\ snd (rewrite (spec env F) w) = Raise e).
Proof.
  split; [apply spec_returns_outside|].
  intros Hflag o Ho. simpl in Ho.
  destruct Ho as [<-|[<-|[<-|[<-|[<-|[<-|[]]]]]]].
  - exists ex_define_var_none, TypeError. split; vm_compute; reflexivity.
  - exists ex_const_none, TypeError. split; vm_compute; reflexivity.
  - exists ex_contract_none, TypeError. split; vm_compute; reflexivity.
  - exists ex_unroll_empty, IndexError. split; vm_compute; reflexivity.
  - exists ex_vectorize_vec, (AssertionError "can't vectorize" ANone).
    split; vm_compute; reflexivity.
  - exists ex_index_plain, (AttributeError "size"). split; [reflexivity|].
    rewrite (spec_on_index2 env F ex_index_plain ex_global_plain ex_const5
               eq_refl eq_refl (or_introl eq_refl)).
    unfold validate_index. rewrite Hflag. vm_compute. reflexivity.
Qed.

Lemma buffer_spec_returns (u : UOp) : exists v, rewrite buffer_spec u = ret v.
Proof.
  destruct u as [o d s a].
  destruct o; destruct s as [|x0 [|x1 [|x2 s]]];
    eval_rules; stuck_tests; eexists; reflexivity.
Qed.

Lemma assign_spec_returns (u : UOp) :
  op u <> KERNEL -> op u <> ASSIGN -> rewrite (assign_spec F) u = ret None.
Proof.
  intros Hk Ha. rewrite rewrite_rules_for. destruct u as [o d s a].
  simpl in Hk, Ha.
  destruct o; try (exfalso; apply Hk; reflexivity);
    try (exfalso; apply Ha; reflexivity); reflexivity.
Qed.

(** X2.  The buffer topology rule set returns a verdict on every node,
    whatever its operator, value type, sources and argument are: none of its
    predicates raises.  The assign/kernel rule set abstains on every node
    that is neither a KERNEL nor an ASSIGN: of the rule sets built on the
    two, only a KERNEL or ASSIGN predicate can raise. *)
Theorem topology_rules_return (u : UOp) :
  (exists v, rewrite buffer_spec u = ret v)
  /\ (op u <> KERNEL -> op u <> ASSIGN -> rewrite (assign_spec F) u = ret None).
Proof.
  split; [apply buffer_spec_returns | apply assign_spec_returns].
Qed.

Lemma rules_for_ASSIGN_assign : rules_for ASSIGN (assign_spec F) = [assign_spec_l25 F].
Proof. reflexivity. Qed.

(** X3.  On an ASSIGN node the assign/kernel rule set never abstains.
    Without sources the predicate of line 26 raises IndexError.  With a
    first source whose base is a BUFFER or BUFFER_VIEW the node is accepted
    when it has one or two sources, or when every source from the third on
    is an ASSIGN; otherwise it is rejected, as is every ASSIGN whose target
    resolves to another operator. *)
Theorem assign_spec_on_assign (u : UOp) :
  op u = ASSIGN ->
  (src u = [] -> rewrite (assign_spec F) u = raise IndexError)
  /\ (forall x0 rest, src u = x0 :: rest ->
        rewrite (assign_spec F) u
        = ret (Some (op_in (op (base F x0)) [BUFFER; BUFFER_VIEW]
                     && ((List.length rest =? 1)%nat
                         || forallb (fun s => Ops_eqb (op s) ASSIGN) (tl rest)))))
  /\ (forall x0 rest, src u = x0 :: rest ->
        In (op (base F x0)) [BUFFER; BUFFER_VIEW] -> (List.length rest <= 1)%nat ->
        rewrite (assign_spec F) u = ret (Some true))
  /\ (forall x0 rest, src u = x0 :: rest ->
        ~ In (op (base F x0)) [BUFFER; BUFFER_VIEW] ->
        rewrite (assign_spec F) u = ret (Some false)).
Proof.
  intros Hop.
  assert (E : forall x0 rest, src u = x0 :: rest ->
        rewrite (assign_spec F) u
        = ret (Some (op_in (op (base F x0)) [BUFFER; BUFFER_VIEW]
                     && ((List.length rest =? 1)%nat
                         || forallb (fun s => Ops_eqb (op s) ASSIGN) (tl rest))))).
  { intros x0 rest Hsrc. rewrite rewrite_rules_for, Hop, rules_for_ASSIGN_assign.
    destruct u as [o d s a]. simpl in Hop, Hsrc. subst o s.
    destruct rest as [|x1 rest]; reflexivity. }
  split; [|split; [exact E|split]].
  - intros Hsrc. rewrite rewrite_rules_for, Hop, rules_for_ASSIGN_assign.
    destruct u as [o d s a]. simpl in Hop, Hsrc. subst o s. reflexivity.
  - intros x0 rest Hsrc Hin Hlen. rewrite (E x0 rest Hsrc).
    apply op_in_In in Hin. rewrite Hin.
    destruct rest as [|x1 [|x2 rest]]; try reflexivity. simpl in Hlen. lia.
  - intros x0 rest Hsrc Hin. rewrite (E x0 rest Hsrc).
    destruct (op_in (op (base F x0)) [BUFFER; BUFFER_VIEW]) eqn:E1; [|reflexivity].
    apply op_in_In in E1. contradiction.
Qed.

End Totality.

(* ================================================================== *)
(** * More on the verification driver *)

Section DriverMore.

Variable env : Env.
Variable F : Facts.

Lemma node_fails_or_passes (specs : list PatternMatcher) (u : UOp) :
  (forall s, In s specs -> exists v, verdict s u v) ->
  ~ node_fails specs u -> node_passes specs u.
Proof.
  intros Hj Hnf. split.
  - assert (H : (forall s, In s specs -> abstains s u)
                \/ exists s, In s specs /\ exists b, verdict s u (Some b)).
    { clear Hnf. induction specs as [|s specs IH].
      - left. intros s [].
      - destruct (Hj s (or_introl eq_refl)) as [[b|] Hv].
        + right. exists s. split; [left; reflexivity | exists b; exact Hv].
        + destruct IH as [Hall | [t [Ht Hb]]].
          * intros t Ht. apply Hj. right. exact Ht.
          * left. intros t [<-|Ht]; [exact Hv | exact (Hall t Ht)].
          * right. exists t. split; [right; exact Ht | exact Hb]. }
    destruct H as [Hall | [s [Hs [[|] Hv]]]].
    + exfalso. apply Hnf. right. exact Hall.
    + exists s. split; [exact Hs | exact Hv].
    + exfalso. apply Hnf. left. exists s. split; [exact Hs | exact Hv].
  - intros s Hs Hr. apply Hnf. left. exists s. split; [exact Hs | exact Hr].
Qed.

Lemma node_passes_not_fails (specs : list PatternMatcher) (u : UOp) :
  node_passes specs u -> ~ node_fails specs u.
Proof.
  intros [[s [Hs Ha]] Hnr] [[t [Ht Hr]] | Hall].
  - exact (Hnr t Ht Hr).
  - pose proof (verdict_functional s u _ _ Ha (Hall s Hs)) as E. discriminate E.
Qed.

(** X4.  Under rule sets that return a verdict on every node of the list,
    [type_verify] returns normally if and only if every node of the list
    passes: some active rule set accepts it and no active rule set rejects
    it.  An accept of one set does not outweigh the reject of another. *)
Theorem type_verify_returns_iff_all_pass (uops : list UOp)
    (extra : list PatternMatcher) :
  let specs := spec env F :: extra in
  all_judged specs uops ->
  (snd (type_verify env F uops extra) = Ret tt
   <-> forall u, In u uops -> node_passes specs u).
Proof.
  intros specs Hj. unfold type_verify. fold specs.
  destruct (type_verify_from_spec env specs uops uops 0 Hj)
    as [[Hret Hnone] | [n [u [Hn [Hu [_ Hraise]]]]]].
  - split; [|intros _; exact Hret].
    intros _ u Hu. apply node_fails_or_passes.
    + intros s Hs. exact (Hj u s Hu Hs).
    + exact (Hnone u Hu).
  - split.
    + intros H. rewrite Hraise in H. discriminate H.
    + intros H. exfalso.
      exact (node_passes_not_fails specs u (H u (nth_error_In _ _ Hn)) Hu).
Qed.

Lemma node_fails_same_sets (specs specs' : list PatternMatcher) (u : UOp) :
  (forall s, In s specs <-> In s specs') ->
  node_fails specs u -> node_fails specs' u.
Proof.
  intros Hin [[s [Hs Hr]] | Hall].
  - left. exists s. split; [apply Hin; exact Hs | exact Hr].
  - right. intros s Hs. apply Hall, Hin. exact Hs.
Qed.

(** X5.  The order in which the extra rule sets are passed to
    [type_verify] does not matter: for rule sets that return a verdict on
    every node of the list, two calls whose extra rule sets are
    permutations of each other end the same way, with the same error at the
    same position or with a normal return. *)
Theorem type_verify_extra_order (uops : list UOp)
    (extra extra' : list PatternMatcher) :
  Permutation extra extra' ->
  all_judged (spec env F :: extra) uops ->
  snd (type_verify env F uops extra) = snd (type_verify env F uops extra').
Proof.
  intros Hperm Hj.
  assert (Hin : forall s, In s (spec env F :: extra) <-> In s (spec env F :: extra')).
  { intros s. simpl. split; intros [H|H]; auto; right.
    - exact (Permutation_in s Hperm H).
    - exact (Permutation_in s (Permutation_sym Hperm) H). }
  assert (Hj' : all_judged (spec env F :: extra') uops).
  { intros u s Hu Hs. apply Hj; [exact Hu | apply Hin; exact Hs]. }
  unfold type_verify.
  destruct (type_verify_from_spec env (spec env F :: extra) uops uops 0 Hj)
    as [[Hret Hnone] | [n [u [Hn [Hu [Hbefore Hraise]]]]]];
    destruct (type_verify_from_spec env (spec env F :: extra') uops uops 0 Hj')
    as [[Hret' Hnone'] | [n' [u' [Hn' [Hu' [Hbefore' Hraise']]]]]].
  - rewrite Hret, Hret'. reflexivity.
  - exfalso. apply (Hnone u' (nth_error_In _ _ Hn')).
    apply (node_fails_same_sets (spec env F :: extra')); [|exact Hu'].
    intros s. symmetry. apply Hin.
  - exfalso. apply (Hnone' u (nth_error_In _ _ Hn)).
    exact (node_fails_same_sets _ _ u Hin Hu).
  - rewrite Hraise, Hraise'.
    destruct (Nat.lt_trichotomy n n') as [Hlt | [-> | Hgt]].
    + exfalso. apply (Hbefore' n u Hlt Hn).
      exact (node_fails_same_sets _ _ u Hin Hu).
    + rewrite Hn in Hn'. inversion Hn'. reflexivity.
    + exfalso. apply (Hbefore n' u' Hgt Hn').
      apply (node_fails_same_sets (spec env F :: extra')); [|exact Hu'].
      intros s. symmetry. apply Hin.
Qed.

Lemma type_verify_from_app_raise (specs : list PatternMatcher)
    (all all' rest more : list UOp) (k : nat) (e : Exn) :
  snd (type_verify_from env specs all k rest) = Raise e ->
  snd (type_verify_from env specs all' k (rest ++ more)) = Raise e.
Proof.
  revert k. induction rest as [|u rest IH]; intros k.
  - simpl. discriminate.
  - cbn [app type_verify_from].
    destruct (mapM (fun s => rewrite s u) specs) as [out [vs|e']].
    + rewrite !snd_bind_ret.
      destruct (existsb is_False vs || forallb is_abstain vs).
      * destruct (DEBUG env >=? 3); simpl; intros H; exact H.
      * apply IH.
    + simpl. intros H. exact H.
Qed.

(** X6.  [type_verify] halts at the first failure: when it raises on a
    node list, it raises the same exception on every extension of that
    list, whatever the added nodes are and whatever the rule sets would do
    on them; and when it returns normally on a list, it returns normally on
    every prefix of it. *)
Theorem type_verify_halts_at_first_failure (uops more : list UOp)
    (extra : list PatternMatcher) :
  (forall e, snd (type_verify env F uops extra) = Raise e ->
             snd (type_verify env F (uops ++ more) extra) = Raise e)
  /\ (snd (type_verify env F (uops ++ more) extra) = Ret tt ->
      snd (type_verify env F uops extra) = Ret tt).
Proof.
  assert (H : forall e, snd (type_verify env F uops extra) = Raise e ->
             snd (type_verify env F (uops ++ more) extra) = Raise e).
  { intros e. unfold type_verify. apply type_verify_from_app_raise. }
  split; [exact H|].
  intros Hret. destruct (snd (type_verify env F uops extra)) as [[]|e] eqn:E.
  - reflexivity.
  - rewrite (H e eq_refl) in Hret. discriminate Hret.
Qed.

(** X7.  On a node list without DEFINE_VAR, CONST, CONTRACT, UNROLL,
    VECTORIZE and INDEX nodes, and with no extra rule set other than the
    buffer topology rule set, [type_verify] ends in one of two ways only:
    it returns normally, or it raises its verification error for a node of
    the list; no exception of a predicate escapes. *)
Theorem type_verify_plain_outcome (uops : list UOp) (extra : list PatternMatcher) :
  (forall u, In u uops -> ~ In (op u) spec_may_raise) ->
  (forall s, In s extra -> s = buffer_spec) ->
  snd (type_verify env F uops extra) = Ret tt
  \/ exists i u, nth_error uops i = Some u
                 /\ snd (type_verify env F uops extra)
                    = Raise (RuntimeError (failure_of i u)).
Proof.
  intros Hops Hextra.
  assert (Hj : all_judged (spec env F :: extra) uops).
  { intros u s Hu [<-|Hs].
    - destruct (spec_returns_outside env F u (Hops u Hu)) as [v Hv].
      exists v. unfold verdict. rewrite Hv. reflexivity.
    - rewrite (Hextra s Hs). destruct (buffer_spec_returns u) as [v Hv].
      exists v. unfold verdict. rewrite Hv. reflexivity. }
  unfold type_verify.
  destruct (type_verify_from_spec env (spec env F :: extra) uops uops 0 Hj)
    as [[Hret _] | [n [u [Hn [_ [_ Hraise]]]]]].
  - left. exact Hret.
  - right. exists n, u. split; [exact Hn | exact Hraise].
Qed.

End DriverMore.

(* ================================================================== *)
(** * More on the bounds check *)

Section BoundsMore.

Variable env : Env.
Variable F : Facts.

(** X8.  A gated INDEX is never bounds-checked: every INDEX node with three
    sources whose buffer operand is a DEFINE_GLOBAL or DEFINE_LOCAL and
    whose third source has the value type bool is accepted by the low-level
    op rule set, whatever the range of the offset and the declared size are,
    and nothing is printed; the same holds of an INDEX node with two sources
    whose value type is an image type. *)
Theorem gated_and_image_index_accepted (idx buf off : UOp) :
  op idx = INDEX ->
  In (op buf) DEFINES ->
  (forall m, src idx = [buf; off; m] -> dtype m = dtypes.bool ->
     rewrite (spec env F) idx = ret (Some true))
  /\ (src idx = [buf; off] -> is_ImageDType (dtype idx) = true ->
      rewrite (spec env F) idx = ret (Some true)).
Proof.
  intros Hop Hbuf. split.
  - intros m Hsrc Hm.
    rewrite (spec_on_index3 env F idx buf off m Hop Hsrc Hbuf Hm).
    unfold validate_index. destruct (negb (IGNORE_OOB env =? 0)); reflexivity.
  - intros Hsrc Himg.
    rewrite (spec_on_index2 env F idx buf off Hop Hsrc Hbuf).
    unfold validate_index. rewrite Himg.
    destruct (negb (IGNORE_OOB env =? 0)); reflexivity.
Qed.

(** X9.  The low-level op rule set has no opinion on an INDEX node of
    another form than the two it knows: it abstains when the node has fewer
    than two or more than three sources, when the first source is neither a
    DEFINE_GLOBAL nor a DEFINE_LOCAL, and when the scalar of the value type
    of a third source is not bool; the bounds check is not run on such a
    node.  A third source whose value type is a vector of bool does count
    as a gate: the node is accepted like one gated by a plain bool. *)
Theorem index_form_verdicts (idx : UOp) :
  op idx = INDEX ->
  (((List.length (src idx) < 2)%nat \/ (3 < List.length (src idx))%nat
    \/ (exists buf rest, src idx = buf :: rest /\ ~ In (op buf) DEFINES)
    \/ (exists buf off m, src idx = [buf; off; m]
                          /\ dtype_scalar (dtype m) <> dtypes.bool)) ->
   rewrite (spec env F) idx = ret None)
  /\ (forall buf off m, src idx = [buf; off; m] -> In (op buf) DEFINES ->
        dtype_scalar (dtype m) = dtypes.bool ->
        rewrite (spec env F) idx = ret (Some true)).
Proof.
  intros Hop. split.
  2:{ intros buf off m Hsrc Hbuf Hm.
      rewrite (spec_on_index3_scalar env F idx buf off m Hop Hsrc Hbuf Hm).
      unfold validate_index. destruct (negb (IGNORE_OOB env =? 0)); reflexivity. }
  intros Hform. rewrite rewrite_rules_for, Hop, (rules_for_INDEX env F).
  destruct idx as [o d s a]. simpl in Hop, Hform. subst o.
  unfold spec_l102, spec_l103.
  destruct Hform as [H | [H | [[buf [rest [-> Hb]]] | [buf [off [m [-> Hm]]]]]]].
  - destruct s as [|x0 [|x1 s]]; try reflexivity. simpl in H. lia.
  - destruct s as [|x0 [|x1 [|x2 [|x3 s]]]]; try (simpl in H; lia). reflexivity.
  - assert (E : op_in (op buf) DEFINES = false).
    { destruct (op_in (op buf) DEFINES) eqn:E; [|reflexivity].
      apply op_in_In in E. contradiction. }
    destruct rest as [|x1 [|x2 [|x3 rest]]]; try reflexivity;
      cbn -[validate_index op_in DEFINES]; rewrite E; reflexivity.
  - apply DType_eqb_neq in Hm.
    cbn -[validate_index op_in DEFINES dtype_scalar]. norm_dtype. rewrite Hm.
    destruct (op_in (op buf) DEFINES); reflexivity.
Qed.

Lemma anyM_same_tests (l1 l2 : list UOp) :
  Forall2 (fun x y => op x = op y /\ arg x = arg y) l1 l2 ->
  anyM not_statically_bounded l1 = anyM not_statically_bounded l2.
Proof.
  induction 1 as [|x y l1 l2 [Ho Ha] _ IH]; [reflexivity|].
  cbn [anyM]. unfold not_statically_bounded at 1 3. rewrite Ho, Ha, IH.
  reflexivity.
Qed.

Lemma Forall2_same_tests_refl (l : list UOp) :
  Forall2 (fun x y => op x = op y /\ arg x = arg y) l l.
Proof. induction l; constructor; auto. Qed.

(** X10.  Growing the buffer never turns an accepted access into a
    rejected one: if the bounds check accepts an INDEX node with two sources
    into a buffer of the known size [sz], it accepts the same offset into
    the same buffer declared with any larger size. *)
Theorem bounds_check_monotone_in_size (d b : DType) (o : Ops) (l : bool)
    (v sz sz' : Z) (s : list UOp) (ab a : Arg) (off : UOp) :
  let buf z := mkUOp o (PtrDT b l v z) s ab in
  let idx z := mkUOp INDEX d [buf z; off] a in
  sz <> -1 -> sz <= sz' ->
  snd (validate_index env F (idx sz) None) = Ret true ->
  snd (validate_index env F (idx sz') None) = Ret true.
Proof.
  intros buf idx Hsz Hle.
  assert (Hany : anyM not_statically_bounded (toposort (idx sz))
                 = anyM not_statically_bounded (toposort (idx sz'))).
  { apply anyM_same_tests. unfold idx, buf. cbn [toposort].
    repeat apply Forall2_app; try apply Forall2_same_tests_refl;
      repeat constructor; reflexivity. }
  unfold validate_index. rewrite Hany.
  destruct (negb (IGNORE_OOB env =? 0)); [intros _; reflexivity|].
  change (dtype (idx sz)) with d. change (dtype (idx sz')) with d.
  destruct (true && negb (is_ImageDType d)); [|intros _; reflexivity].
  destruct (anyM not_statically_bounded (toposort (idx sz'))) as [out [[|]|e]];
    [intros _; reflexivity | | intros H; exact H].
  rewrite !snd_bind_ret. unfold idx, buf. cbn [src getitem nth_error].
  rewrite !bind_ret_l. cbn [dtype dtype_size]. rewrite !bind_ret_l.
  assert (E : (sz =? -1) = false) by (apply Z.eqb_neq; exact Hsz).
  rewrite E. cbn [negb andb].
  destruct (vmin F off <? 0) eqn:Elo.
  - cbn [orb]. destruct (DEBUG env >=? 1); simpl; discriminate.
  - cbn [orb]. destruct (vmax F off >=? sz) eqn:Ehi.
    + destruct (DEBUG env >=? 1); simpl; discriminate.
    + intros _. rewrite Z.geb_leb in Ehi. apply Z.leb_gt in Ehi.
      assert (E' : (vmax F off >=? sz') = false).
      { rewrite Z.geb_leb. apply Z.leb_gt. lia. }
      rewrite E'. rewrite andb_false_r. reflexivity.
Qed.

End BoundsMore.

(* ================================================================== *)
(** * More on shape consistency *)

Section ShapeMore.

Variable F : Facts.

(** X11.  The edge cases of the SINK rule of the shape rule set.  A SINK
    with a source that is not a STORE matches neither rule and the rule set
    abstains on it.  The rule set abstains on a SINK without sources as
    well: line 166 is not tried on a node none of whose sources is a STORE,
    although [verify_sink_dims] itself returns [True] on such a node. *)
Theorem shape_spec_sink_edges (u : UOp) :
  op u = SINK ->
  (~ Forall (fun s => op s = STORE) (src u) ->
     rewrite (shape_spec F) u = ret None)
  /\ (src u = [] ->
      rewrite (shape_spec F) u = ret None /\ verify_sink_dims F u = true).
Proof.
  intros Hop. split.
  - intros Hsrc. apply (shape_spec_on_unmatched_sink F u Hop). left.
    destruct (forallb (fun x => Ops_eqb (op x) STORE) (src u)) eqn:E; [|reflexivity].
    exfalso. apply Hsrc. apply forallb_store_Forall. exact E.
  - intros Hsrc. split.
    + apply (shape_spec_on_unmatched_sink F u Hop). right. exact Hsrc.
    + destruct u as [o d s a]. simpl in Hop, Hsrc. subst o s. reflexivity.
Qed.

Lemma parents_In (l : list UOp) (x : UOp) :
  In x ((fix parents (l : list UOp) : list UOp :=
           match l with
           | [] => []
           | p :: l' => toposort p ++ parents l'
           end) l)
  <-> exists p, In p l /\ In x (toposort p).
Proof.
  induction l as [|p l IH].
  - split; [intros [] | intros [p [[] _]]].
  - rewrite in_app_iff, IH. split.
    + intros [H | [q [Hq Hx]]].
      * exists p. split; [left; reflexivity | exact H].
      * exists q. split; [right; exact Hq | exact Hx].
    + intros [q [[<-|Hq] Hx]]; [left; exact Hx|].
      right. exists q. split; assumption.
Qed.

Lemma sink_shapes_In (d : DType) (srcs : list UOp) (a : Arg) (sh : list Z) :
  In sh (sink_shapes F (mkUOp SINK d srcs a))
  <-> exists p x t, In p srcs /\ In x (toposort p) /\ op x <> SINK
                    /\ st F x = Some t /\ shape t = sh.
Proof.
  unfold sink_shapes, shapes_of. rewrite in_flat_map. split.
  - intros [x [Hx Hsh]]. apply filter_In in Hx. destruct Hx as [Hx Hop].
    apply negb_true_iff, Ops_eqb_neq in Hop.
    cbn [toposort] in Hx. apply in_app_or in Hx. destruct Hx as [Hx | [<-|[]]].
    + apply parents_In in Hx. destruct Hx as [p [Hp Hx]].
      destruct (st F x) as [t|] eqn:Et; [|destruct Hsh].
      destruct Hsh as [<-|[]]. exists p, x, t. auto.
    + exfalso. apply Hop. reflexivity.
  - intros [p [x [t [Hp [Hx [Hop [Et <-]]]]]]]. exists x. split.
    + apply filter_In. split.
      * cbn [toposort]. apply in_or_app. left. apply parents_In.
        exists p. split; assumption.
      * apply negb_true_iff, Ops_eqb_neq. exact Hop.
    + rewrite Et. left. reflexivity.
Qed.

Lemma dims_ok_same_shapes (A B : list (list Z)) :
  (forall sh, In sh A <-> In sh B) ->
  (forall k, common_dim k A -> one_size (sizes_at k A) \/ one_and_n (sizes_at k A)) ->
  (forall k, common_dim k B -> one_size (sizes_at k B) \/ one_and_n (sizes_at k B)).
Proof.
  intros Hin H k Hk.
  assert (Hsz : forall x, In x (sizes_at k A) <-> In x (sizes_at k B)).
  { intros x. unfold sizes_at. rewrite !in_map_iff.
    split; intros [sh [E Hsh]]; exists sh; split; auto; apply Hin; exact Hsh. }
  destruct (H k) as [[n Hn] | [n [H1 [H2 [H3 H4]]]]].
  - intros sh Hsh. apply Hk, Hin. exact Hsh.
  - left. exists n. intros x Hx. apply Hn, Hsz. exact Hx.
  - right. exists n. split; [exact H1|].
    split; [apply Hsz; exact H2|]. split; [apply Hsz; exact H3|].
    intros x Hx. apply H4, Hsz. exact Hx.
Qed.

(** X12.  The verdict of [verify_sink_dims] does not depend on the order
    of the sources of the SINK, nor on the value type and the argument of
    the SINK node: two SINK nodes whose source lists are permutations of
    each other get the same result. *)
Theorem verify_sink_dims_source_order (d d' : DType) (a a' : Arg)
    (srcs srcs' : list UOp) :
  Permutation srcs srcs' ->
  verify_sink_dims F (mkUOp SINK d srcs a)
  = verify_sink_dims F (mkUOp SINK d' srcs' a').
Proof.
  intros Hperm.
  assert (Hdir : forall d d' a a' srcs srcs',
            (forall x, In x srcs <-> In x srcs') ->
            verify_sink_dims F (mkUOp SINK d srcs a) = true ->
            verify_sink_dims F (mkUOp SINK d' srcs' a') = true).
  { clear. intros d d' a a' srcs srcs' Hin H.
    apply verify_sink_dims_iff in H. destruct H as [Hsz Hdims].
    apply verify_sink_dims_iff. split.
    - intros x y Hx Hy. apply Hsz; apply Hin; assumption.
    - apply (dims_ok_same_shapes (sink_shapes F (mkUOp SINK d srcs a))); [|exact Hdims].
      intros sh. rewrite !sink_shapes_In.
      split; intros [p [x [t [Hp H]]]]; exists p, x, t; split; auto;
        apply Hin; exact Hp. }
  assert (Hin : forall x, In x srcs <-> In x srcs').
  { intros x. split; intros H.
    - exact (Permutation_in x Hperm H).
    - exact (Permutation_in x (Permutation_sym Hperm) H). }
  destruct (verify_sink_dims F (mkUOp SINK d srcs a)) eqn:E1;
    destruct (verify_sink_dims F (mkUOp SINK d' srcs' a')) eqn:E2;
    try reflexivity.
  - rewrite (Hdir d d' a a' srcs srcs' Hin E1) in E2. discriminate E2.
  - assert (Hin' : forall x, In x srcs' <-> In x srcs) by (intros x; symmetry; apply Hin).
    rewrite (Hdir d' d a' a srcs' srcs Hin' E2) in E1. discriminate E1.
Qed.

(** X13.  What the shape rule set rejects on a SINK over STORE nodes: two
    direct sources that report different element counts, and two shaped
    nodes of the dependency closure whose sizes at a dimension that every
    shape has differ while neither is 1. *)
Theorem shape_spec_rejects_mismatch (u : UOp) :
  op u = SINK ->
  Forall (fun s => op s = STORE) (src u) ->
  ((exists x y, In x (src u) /\ In y (src u)
                /\ size (st_arg F x) <> size (st_arg F y))
   \/ (exists k sh1 sh2,
         common_dim k (sink_shapes F u)
         /\ In sh1 (sink_shapes F u) /\ In sh2 (sink_shapes F u)
         /\ nth k sh1 0 <> nth k sh2 0
         /\ nth k sh1 0 <> 1 /\ nth k sh2 0 <> 1)) ->
  rewrite (shape_spec F) u = ret (Some false).
Proof.
  intros Hop Hsrc Hbad.
  assert (Hsome : src u <> []).
  { destruct Hbad as [[x [_ [Hx _]]] | [k [sh1 [_ [_ [H1 _]]]]]].
    - intros E. rewrite E in Hx. destruct Hx.
    - destruct u as [o d s a]. simpl in Hop. subst o.
      apply sink_shapes_In in H1. destruct H1 as [p [_ [_ [Hp _]]]].
      cbn [src]. intros E. rewrite E in Hp. destruct Hp. }
  rewrite (shape_spec_on_sink F u Hop Hsrc Hsome).
  destruct (verify_sink_dims F u) eqn:E; [|reflexivity].
  exfalso. apply verify_sink_dims_iff in E. destruct E as [Hsz Hdims].
  destruct Hbad as [[x [y [Hx [Hy Hne]]]] | [k [sh1 [sh2 [Hk [H1 [H2 [Hne [Ha Hb]]]]]]]]].
  - exact (Hne (Hsz x y Hx Hy)).
  - assert (I1 : In (nth k sh1 0) (sizes_at k (sink_shapes F u))).
    { unfold sizes_at. apply in_map_iff. exists sh1. auto. }
    assert (I2 : In (nth k sh2 0) (sizes_at k (sink_shapes F u))).
    { unfold sizes_at. apply in_map_iff. exists sh2. auto. }
    destruct (Hdims k Hk) as [[n Hn] | [n [_ [_ [_ Hall]]]]].
    + apply Hne. rewrite (Hn _ I1), (Hn _ I2). reflexivity.
    + destruct (Hall _ I1) as [E1|E1]; destruct (Hall _ I2) as [E2|E2];
        congruence.
Qed.

End ShapeMore.

(* ================================================================== *)
(** * The low-level op rule set, operator by operator *)

Ltac close_tests :=
  first [ reflexivity
        | exfalso; tests_to_props; congruence ].

Section Arithmetic.

Variable env : Env.
Variable F : Facts.

(** X14.  On a WHERE node the low-level op rule set never abstains.  With
    three sources and a condition whose value type is bool or a vector of
    bool it accepts exactly when the node and both branches have one value
    type (line 116).  Every other WHERE node is left to the generic rule of
    line 121, which asks every source, the condition included, to have the
    base value type of the node. *)
Theorem where_verdict (w : UOp) :
  op w = WHERE ->
  (forall c x y, src w = [c; x; y] -> dtype_scalar (dtype c) = dtypes.bool ->
     rewrite (spec env F) w
     = ret (Some (DType_eqb (dtype w) (dtype x) && DType_eqb (dtype x) (dtype y))))
  /\ (~ (exists c x y, src w = [c; x; y]
                       /\ dtype_scalar (dtype c) = dtypes.bool) ->
      rewrite (spec env F) w = ret (Some (alu_dtypes_agree w))).
Proof.
  intros Hop. destruct w as [o d s a]. simpl in Hop. subst o. split.
  - intros c x y Hsrc Hc. simpl in Hsrc. subst s.
    eval_rules. rewrite Hc. cbn -[dtypes.is_int rep_match].
    stuck_tests; reflexivity.
  - intros Hno. unfold alu_dtypes_agree.
    destruct s as [|c [|x [|y [|z s]]]]; eval_rules; try reflexivity.
    destruct (DType_eqb (dtype_scalar (dtype c)) dtypes.bool) eqn:E.
    + exfalso. apply Hno. exists c, x, y. split; [reflexivity|].
      apply DType_eqb_eq. exact E.
    + cbn -[dtypes.is_int rep_match]. reflexivity.
Qed.

(** X15.  On a CMPLT or CMPNE node the low-level op rule set never
    abstains.  A comparison with two sources whose value type is bool or a
    vector of bool is accepted exactly when both operands have the same
    base value type; the result type takes no further part (line 117).
    Every other CMPLT or CMPNE node is left to the generic rule of line
    121. *)
Theorem compare_verdict (u : UOp) :
  op u = CMPLT \/ op u = CMPNE ->
  (forall x y, dtype_scalar (dtype u) = dtypes.bool -> src u = [x; y] ->
     rewrite (spec env F) u
     = ret (Some (DType_eqb (dtype_base (dtype x)) (dtype_base (dtype y)))))
  /\ (~ (dtype_scalar (dtype u) = dtypes.bool /\ exists x y, src u = [x; y]) ->
      rewrite (spec env F) u = ret (Some (alu_dtypes_agree u))).
Proof.
  intros Hop. destruct u as [o d s a]. simpl in Hop. split.
  - intros x y Hd Hsrc. simpl in Hd, Hsrc. subst s.
    destruct Hop as [-> | ->]; eval_rules; rewrite Hd;
      cbn -[dtypes.is_int rep_match]; reflexivity.
  - intros Hno. unfold alu_dtypes_agree. simpl in Hno.
    destruct (DType_eqb (dtype_scalar d) dtypes.bool) eqn:E.
    + pose proof E as E'. apply DType_eqb_eq in E'.
      destruct s as [|x [|y [|z s]]];
        try (exfalso; apply Hno; split; [exact E' | exists x, y; reflexivity]);
        destruct Hop as [-> | ->]; eval_rules; rewrite ?E;
        cbn -[dtypes.is_int rep_match]; reflexivity.
    + destruct Hop as [-> | ->];
        destruct s as [|x [|y [|z s]]]; eval_rules; rewrite ?E; reflexivity.
Qed.

(** X16.  On an IDIV or MOD node the rule of line 120 rejects every value
    type that is not an integer type, whatever the sources are, and abstains
    on an integer type, so that the generic rule of line 121 decides: the
    node is accepted exactly when every source has the base value type of
    the node. *)
Theorem idiv_mod_verdict (u : UOp) :
  op u = IDIV \/ op u = MOD ->
  (dtypes.is_int (dtype u) = false -> rewrite (spec env F) u = ret (Some false))
  /\ (dtypes.is_int (dtype u) = true ->
      rewrite (spec env F) u = ret (Some (alu_dtypes_agree u))).
Proof.
  intros Hop. destruct u as [o d s a]. simpl in Hop. unfold alu_dtypes_agree.
  split; intros Hint; simpl in Hint;
    destruct Hop as [-> | ->]; eval_rules; rewrite Hint; reflexivity.
Qed.

(** X17.  On every other node of the ALU group (not WHERE, CMPLT, CMPNE,
    SHL, SHR, IDIV or MOD), and on a SHL or SHR node that does not have
    exactly two sources, the rule of line 121 alone decides: the node is
    accepted when every source has the base value type of the node and
    rejected otherwise.  The number of sources is not examined: a node
    without sources is accepted. *)
Theorem generic_alu_verdict (u : UOp) :
  In (op u) GroupOp.ALU ->
  (~ In (op u) [WHERE; CMPLT; CMPNE; SHL; SHR; IDIV; MOD] ->
     rewrite (spec env F) u = ret (Some (alu_dtypes_agree u)))
  /\ (In (op u) [SHL; SHR] -> List.length (src u) <> 2%nat ->
      rewrite (spec env F) u = ret (Some (alu_dtypes_agree u)))
  /\ (~ In (op u) [WHERE; CMPLT; CMPNE; SHL; SHR; IDIV; MOD] -> src u = [] ->
      rewrite (spec env F) u = ret (Some true)).
Proof.
  intros Halu.
  assert (H1 : ~ In (op u) [WHERE; CMPLT; CMPNE; SHL; SHR; IDIV; MOD] ->
     rewrite (spec env F) u = ret (Some (alu_dtypes_agree u))).
  { intros Hnot. apply op_in_In in Halu.
    destruct u as [o d s a]. simpl in Halu, Hnot.
    unfold alu_dtypes_agree.
    destruct o; try (exfalso; apply Hnot; simpl; tauto);
      try (vm_compute in Halu; discriminate Halu);
      eval_rules; reflexivity. }
  split; [exact H1|]. split.
  - intros Hsh Hlen. destruct u as [o d s a]. simpl in Hsh, Hlen.
    unfold alu_dtypes_agree.
    destruct Hsh as [<-|[<-|[]]];
      destruct s as [|x [|y [|z s]]]; try (exfalso; apply Hlen; reflexivity);
      eval_rules; reflexivity.
  - intros Hnot Hsrc. rewrite (H1 Hnot). unfold alu_dtypes_agree.
    rewrite Hsrc. reflexivity.
Qed.

End Arithmetic.

(* ================================================================== *)
(** * Memory operators *)

Section Memory.

Variable env : Env.
Variable F : Facts.

(** X18.  The low-level op rule set never rejects a STORE node and never
    raises on one: it accepts or abstains.  It accepts the early form
    (buffer definition, VIEW, value), the void STORE through an INDEX or
    CAST with a value and optionally a gate that is an IF or whose value
    type is bool or a vector of bool, and every STORE whose first source
    has the value type int64 or a vector of int64; it abstains on a STORE
    without sources, and on a STORE that is not void and whose first source
    is neither a buffer definition nor of a value type whose scalar is
    int64. *)
Theorem store_never_rejected (u : UOp) :
  op u = STORE ->
  (rewrite (spec env F) u = ret (Some true) \/ rewrite (spec env F) u = ret None)
  /\ (forall b v x, src u = [b; v; x] -> In (op b) DEFINES -> op v = VIEW ->
        rewrite (spec env F) u = ret (Some true))
  /\ (forall i x, dtype u = dtypes.void -> src u = [i; x] -> In (op i) INDEX_CAST ->
        rewrite (spec env F) u = ret (Some true))
  /\ (forall i x g, dtype u = dtypes.void -> src u = [i; x; g] ->
        In (op i) INDEX_CAST ->
        dtype_scalar (dtype g) = dtypes.bool \/ op g = IF ->
        rewrite (spec env F) u = ret (Some true))
  /\ (forall b rest, src u = b :: rest ->
        dtype_scalar (dtype b) = dtypes.int64 ->
        rewrite (spec env F) u = ret (Some true))
  /\ (src u = [] -> rewrite (spec env F) u = ret None)
  /\ (forall b rest, src u = b :: rest -> dtype u <> dtypes.void ->
        ~ In (op b) DEFINES -> dtype_scalar (dtype b) <> dtypes.int64 ->
        rewrite (spec env F) u = ret None).
Proof.
  intros Hop. destruct u as [o d s a]. simpl in Hop. subst o.
  split; [|split; [|split; [|split; [|split; [|split]]]]].
  - destruct s as [|x0 [|x1 [|x2 [|x3 s]]]]; eval_rules; stuck_tests;
      first [left; reflexivity | right; reflexivity].
  - intros b v x Hsrc Hb Hv. simpl in Hsrc. subst s.
    simpl in Hb. destruct b as [ob db sb ab]. destruct v as [ov dv sv av].
    simpl in Hb, Hv. subst ov.
    destruct Hb as [<-|[<-|[]]]; eval_rules; reflexivity.
  - intros i x Hd Hsrc Hi. simpl in Hd, Hsrc. subst d s.
    destruct i as [oi di si ai]. simpl in Hi.
    destruct Hi as [<-|[<-|[]]]; eval_rules; reflexivity.
  - intros i x g Hd Hsrc Hi Hg. simpl in Hd, Hsrc. subst d s.
    destruct i as [oi di si ai]. destruct g as [og dg sg ag]. simpl in Hi, Hg.
    destruct Hi as [<-|[<-|[]]]; destruct Hg as [Hg | ->];
      eval_rules; rewrite ?Hg; cbn -[dtypes.is_int rep_match];
      stuck_tests; reflexivity.
  - intros b rest Hsrc Hb. simpl in Hsrc. subst s.
    destruct b as [ob db sb ab]. simpl in Hb.
    destruct rest as [|x1 [|x2 [|x3 rest]]]; eval_rules; rewrite ?Hb;
      cbn -[dtypes.is_int rep_match]; stuck_tests; reflexivity.
  - intros Hsrc. simpl in Hsrc. subst s. eval_rules. stuck_tests; reflexivity.
  - intros b rest Hsrc Hd Hb Hb64. simpl in Hsrc, Hd. subst s.
    apply DType_eqb_neq in Hd. apply DType_eqb_neq in Hb64.
    assert (E1 : Ops_eqb (op b) DEFINE_GLOBAL = false).
    { apply Ops_eqb_neq. intros E. apply Hb. left. symmetry. exact E. }
    assert (E2 : Ops_eqb (op b) DEFINE_LOCAL = false).
    { apply Ops_eqb_neq. intros E. apply Hb. right. left. symmetry. exact E. }
    destruct rest as [|x1 [|x2 [|x3 rest]]]; eval_rules;
      rewrite ?E1, ?E2, ?Hd, ?Hb64; cbn; rewrite ?Hb64; reflexivity.
Qed.

Lemma load_verdict_cases (u : UOp) :
  op u = LOAD ->
  (rewrite (spec env F) u = ret (Some false) /\ load_alt_mismatch u = true)
  \/ ((rewrite (spec env F) u = ret (Some true) \/ rewrite (spec env F) u = ret None)
      /\ load_alt_mismatch u = false).
Proof.
  intros Hop. destruct u as [o d s a]. simpl in Hop. subst o.
  unfold load_alt_mismatch.
  destruct s as [|x0 [|x1 [|x2 [|x3 s]]]];
    repeat match goal with x : UOp |- _ => destruct x end;
    eval_rules; stuck_tests;
    first [ left; split; reflexivity
          | right; split; [left; reflexivity | reflexivity]
          | right; split; [right; reflexivity | reflexivity]
          | exfalso; tests_to_props; congruence ].
Qed.

(** X19.  On a LOAD node the low-level op rule set never raises, and it
    rejects in one case only: a LOAD with exactly two sources, the first an
    INDEX or CAST, the second neither an IF nor a BARRIER and of another
    value type than the LOAD (line 108).  A LOAD without sources is
    abstained on. *)
Theorem load_rejected_only_on_mismatch (u : UOp) :
  op u = LOAD ->
  (exists v, rewrite (spec env F) u = ret v)
  /\ (rejects (spec env F) u <-> load_alt_mismatch u = true)
  /\ (src u = [] -> rewrite (spec env F) u = ret None).
Proof.
  intros Hop. split; [|split].
  - destruct (load_verdict_cases u Hop) as [[H _] | [[H|H] _]];
      eexists; exact H.
  - unfold rejects, verdict.
    destruct (load_verdict_cases u Hop) as [[H Hm] | [[H|H] Hm]];
      rewrite H, Hm; simpl; split; intros E; try reflexivity; discriminate E.
  - intros Hsrc. destruct u as [o d s a]. simpl in Hop, Hsrc. subst o s.
    eval_rules. reflexivity.
Qed.

(** X20.  A DEFINE_GLOBAL node is accepted exactly when its value type is
    a pointer or image type that is not flagged local, a DEFINE_LOCAL node
    exactly when its value type is a pointer or image type that is flagged
    local; both are rejected on a plain value type, and neither rule looks
    at the sources or the argument.  So of a DEFINE_GLOBAL and a
    DEFINE_LOCAL node of one pointer type exactly one is accepted. *)
Theorem define_global_local_verdict (g l : UOp) :
  op g = DEFINE_GLOBAL -> op l = DEFINE_LOCAL -> dtype g = dtype l ->
  let is_local :=
    match dtype g with
    | DT _ _ => None
    | PtrDT _ loc _ _ => Some loc
    | ImageDT _ loc _ _ _ => Some loc
    end in
  rewrite (spec env F) g
  = ret (Some (match is_local with Some loc => negb loc | None => false end))
  /\ rewrite (spec env F) l
     = ret (Some (match is_local with Some loc => loc | None => false end))
  /\ (is_PtrDType (dtype g) = true ->
      (accepts (spec env F) g <-> rejects (spec env F) l))
  /\ (is_PtrDType (dtype g) = false ->
      rejects (spec env F) g /\ rejects (spec env F) l).
Proof.
  intros Hg Hl Hd is_local.
  destruct g as [og dg sg ag]. destruct l as [ol dl sl al].
  simpl in Hg, Hl, Hd. subst og ol dl.
  assert (E1 : rewrite (spec env F) (mkUOp DEFINE_GLOBAL dg sg ag)
    = ret (Some (match is_local with Some loc => negb loc | None => false end))).
  { unfold is_local. destruct dg as [n c | b loc v sz | b loc v sz sh];
      eval_rules; reflexivity. }
  assert (E2 : rewrite (spec env F) (mkUOp DEFINE_LOCAL dg sl al)
    = ret (Some (match is_local with Some loc => loc | None => false end))).
  { unfold is_local. destruct dg as [n c | b loc v sz | b loc v sz sh];
      eval_rules; reflexivity. }
  split; [exact E1|]. split; [exact E2|].
  unfold accepts, rejects, verdict. rewrite E1, E2. unfold is_local. simpl.
  destruct dg as [n c | b loc v sz | b loc v sz sh]; simpl; split;
    try discriminate;
    try (intros _; split; reflexivity);
    intros _; destruct loc; simpl; split; intros E; try reflexivity;
      discriminate E.
Qed.

(** X21.  A DEFINE_ACC node needs a first source: without sources the
    low-level op rule set abstains on it.  With sources it accepts exactly
    when every source after the first is a RANGE and the first source has
    the value type of the accumulator, and rejects otherwise; any number of
    RANGE sources is allowed, none included. *)
Theorem define_acc_verdict (u : UOp) :
  op u = DEFINE_ACC ->
  (src u = [] -> rewrite (spec env F) u = ret None)
  /\ (forall c rest, src u = c :: rest ->
        rewrite (spec env F) u
        = ret (Some (forallb (fun y => Ops_eqb (op y) RANGE) rest
                     && DType_eqb (dtype c) (dtype u))))
  /\ (forall c, src u = [c] -> dtype c = dtype u ->
        rewrite (spec env F) u = ret (Some true)).
Proof.
  intros Hop. destruct u as [o d s a]. simpl in Hop. subst o.
  assert (E : forall c rest, c :: rest = s ->
        rewrite (spec env F) (mkUOp DEFINE_ACC d s a)
        = ret (Some (forallb (fun y => Ops_eqb (op y) RANGE) rest
                     && DType_eqb (dtype c) d))).
  { intros c rest <-. eval_rules. reflexivity. }
  cbn [src dtype]. split; [|split].
  - intros ->. eval_rules. reflexivity.
  - intros c rest ->. apply E. reflexivity.
  - intros c -> Hd. rewrite (E c [] eq_refl), Hd, DType_eqb_refl.
    reflexivity.
Qed.

(** X22.  The rule of DEFINE_VAR (line 79) indexes the argument without
    testing its form.  On an argument that is [None], an [int], a [bool] or
    a [float] the predicate raises TypeError; on a tuple with fewer than two
    elements it raises IndexError; on a tuple whose second element is not an
    [int] it rejects without looking further; on a tuple of two elements
    whose second is an [int] it raises IndexError; and on a longer tuple
    whose second element is an [int] it accepts exactly when the third is
    an [int]. *)
Theorem define_var_verdict (u : UOp) :
  op u = DEFINE_VAR ->
  (match arg u with ANone | AInt _ | ABool _ | AFloat _ => True | _ => False end ->
     rewrite (spec env F) u = raise TypeError)
  /\ (forall items, arg u = ATuple items -> nth_error items 1 = None ->
        rewrite (spec env F) u = raise IndexError)
  /\ (forall items a1, arg u = ATuple items -> nth_error items 1 = Some a1 ->
        isinstance_int a1 = false ->
        rewrite (spec env F) u = ret (Some false))
  /\ (forall items a1, arg u = ATuple items -> nth_error items 1 = Some a1 ->
        isinstance_int a1 = true -> nth_error items 2 = None ->
        rewrite (spec env F) u = raise IndexError)
  /\ (forall items a1 a2, arg u = ATuple items -> nth_error items 1 = Some a1 ->
        isinstance_int a1 = true -> nth_error items 2 = Some a2 ->
        rewrite (spec env F) u = ret (Some (isinstance_int a2))).
Proof.
  intros Hop. destruct u as [o d s a]. simpl in Hop. subst o. simpl arg.
  assert (E : rewrite (spec env F) (mkUOp DEFINE_VAR d s a)
    = (a1 <- arg_getitem a 1 ;;
       b <- (if isinstance_int a1
             then a2 <- arg_getitem a 2 ;; ret (isinstance_int a2)
             else ret false) ;;
       ret (Some b))).
  { rewrite rewrite_rules_for. cbv [op rules_for].
    cbn -[arg_getitem].
    destruct (arg_getitem a 1) as [out [a1|e]]; cbn -[arg_getitem];
      [|reflexivity].
    destruct (isinstance_int a1); cbn -[arg_getitem].
    - destruct (arg_getitem a 2) as [out2 [a2|e2]]; cbn; rewrite ?app_nil_r;
        reflexivity.
    - rewrite ?app_nil_r. reflexivity. }
  rewrite E. clear E.
  split; [|split; [|split; [|split]]].
  - destruct a; intros H; try contradiction; reflexivity.
  - intros items -> H1. unfold arg_getitem, getitem. rewrite H1. reflexivity.
  - intros items a1 -> H1 Hi. unfold arg_getitem, getitem. rewrite H1.
    rewrite bind_ret_l, Hi, bind_ret_l. reflexivity.
  - intros items a1 -> H1 Hi H2. unfold arg_getitem, getitem. rewrite H1.
    rewrite bind_ret_l, Hi, H2. reflexivity.
  - intros items a1 a2 -> H1 Hi H2. unfold arg_getitem, getitem. rewrite H1.
    rewrite bind_ret_l, Hi, H2, !bind_ret_l. reflexivity.
Qed.

(** X23.  On a VIEW node the low-level op rule set accepts the void VIEW
    without sources, and judges a VIEW with one source: it accepts when the
    source is not a STORE and has the base value type of the VIEW, and
    rejects otherwise.  It abstains on a VIEW without sources that is not
    void and on every VIEW with two or more sources. *)
Theorem view_verdict (u : UOp) :
  op u = VIEW ->
  (src u = [] ->
     rewrite (spec env F) u
     = ret (if DType_eqb (dtype u) dtypes.void then Some true else None))
  /\ (forall x, src u = [x] ->
        rewrite (spec env F) u
        = ret (Some (negb (Ops_eqb (op x) STORE)
                     && DType_eqb (dtype_base (dtype u)) (dtype_base (dtype x)))))
  /\ ((2 <= List.length (src u))%nat -> rewrite (spec env F) u = ret None).
Proof.
  intros Hop. destruct u as [o d s a]. simpl in Hop. subst o.
  cbn [src dtype]. split; [|split].
  - intros ->. eval_rules. destruct (DType_eqb d dtypes.void); reflexivity.
  - intros x ->. eval_rules. destruct (DType_eqb d dtypes.void); reflexivity.
  - intros Hlen. destruct s as [|x0 [|x1 s]]; try (simpl in Hlen; lia).
    eval_rules. destruct (DType_eqb d dtypes.void); reflexivity.
Qed.

End Memory.

(* ================================================================== *)
(** * Control flow, casts and vectors *)

Section ControlAndVectors.

Variable env : Env.
Variable F : Facts.

(** X24.  The rules of the loop and branch markers.  A RANGE with two
    sources is accepted when the node and both sources have one value type
    and the argument is an [int], and rejected otherwise; a RANGE with
    another number of sources is abstained on.  IF, ENDIF and ENDRANGE are
    never rejected: a void IF is accepted with one source, or with two when
    the second is a BARRIER; a void ENDIF with one IF source and a void
    ENDRANGE with one RANGE source are accepted; on every other IF, ENDIF or
    ENDRANGE node the rule set abstains. *)
Theorem control_flow_verdicts (u : UOp) :
  (op u = RANGE ->
     (forall x y, src u = [x; y] ->
        rewrite (spec env F) u
        = ret (Some (DType_eqb (dtype u) (dtype x) && DType_eqb (dtype x) (dtype y)
                     && isinstance_int (arg u))))
     /\ (List.length (src u) <> 2%nat -> rewrite (spec env F) u = ret None))
  /\ (op u = IF ->
     rewrite (spec env F) u
     = ret (if DType_eqb (dtype u) dtypes.void
               && match src u with
                  | [_] => true
                  | [_; b] => Ops_eqb (op b) BARRIER
                  | _ => false
                  end
            then Some true else None))
  /\ (op u = ENDIF ->
     rewrite (spec env F) u
     = ret (if DType_eqb (dtype u) dtypes.void
               && match src u with [i] => Ops_eqb (op i) IF | _ => false end
            then Some true else None))
  /\ (op u = ENDRANGE ->
     rewrite (spec env F) u
     = ret (if DType_eqb (dtype u) dtypes.void
               && match src u with [r] => Ops_eqb (op r) RANGE | _ => false end
            then Some true else None)).
Proof.
  destruct u as [o d s a]. cbn [op src dtype arg].
  split; [|split; [|split]]; intros ->.
  - split.
    + intros x y ->. eval_rules. reflexivity.
    + intros Hlen. destruct s as [|x [|y [|z s]]];
        try (exfalso; apply Hlen; reflexivity); eval_rules; reflexivity.
  - destruct s as [|x [|y [|z s]]];
      repeat match goal with x : UOp |- _ => destruct x end;
      eval_rules; stuck_tests; first [reflexivity | exfalso; congruence].
  - destruct s as [|x [|y s]];
      repeat match goal with x : UOp |- _ => destruct x end;
      eval_rules; stuck_tests; first [reflexivity | exfalso; congruence].
  - destruct s as [|x [|y s]];
      repeat match goal with x : UOp |- _ => destruct x end;
      eval_rules; stuck_tests; first [reflexivity | exfalso; congruence].
Qed.

(** X25.  A CAST or BITCAST node with one source is accepted exactly when
    its argument is [None] and rejected otherwise; neither the value type
    of the node nor that of the source is examined.  With another number of
    sources the rule set abstains. *)
Theorem cast_verdict (u : UOp) :
  op u = CAST \/ op u = BITCAST ->
  (forall x, src u = [x] -> rewrite (spec env F) u = ret (Some (is_None (arg u))))
  /\ (List.length (src u) <> 1%nat -> rewrite (spec env F) u = ret None).
Proof.
  intros Hop. destruct u as [o d s a]. cbn [op src dtype arg] in *. split.
  - intros x ->. destruct Hop as [-> | ->]; eval_rules; reflexivity.
  - intros Hlen. destruct s as [|x [|y s]];
      try (exfalso; apply Hlen; reflexivity);
      destruct Hop as [-> | ->]; eval_rules; reflexivity.
Qed.

(** X26.  A VECTORIZE node is rejected, not abstained on, when it has
    fewer than two sources and when its number of sources differs from the
    lane count of its value type; the sources are not looked at in either
    case. *)
Theorem vectorize_rejects_bad_arity (u : UOp) :
  op u = VECTORIZE ->
  ((List.length (src u) < 2)%nat
   \/ Z.of_nat (List.length (src u)) <> dtype_count (dtype u)) ->
  rewrite (spec env F) u = ret (Some false).
Proof.
  intros Hop Hbad. rewrite rewrite_rules_for, Hop.
  destruct u as [o d s a]. cbn [op src dtype arg] in *. subst o.
  cbv [rules_for]. cbn -[allM Nat.ltb Z.eqb Z.of_nat List.length].
  replace (List.length s <? 0)%nat with false
    by (symmetry; apply Nat.ltb_ge; lia).
  cbn -[allM Nat.ltb Z.eqb Z.of_nat List.length].
  destruct Hbad as [Hlen | Hcnt].
  - assert (E : (1 <? List.length s)%nat = false) by (apply Nat.ltb_ge; lia).
    rewrite E. reflexivity.
  - assert (E : (Z.of_nat (List.length s) =? dtype_count d) = false)
      by (apply Z.eqb_neq; exact Hcnt).
    rewrite E, andb_false_r. reflexivity.
Qed.

Lemma prod_of_counts_axis_arg (pairs : list (Z * Z)) :
  prod_of_counts (axis_arg pairs) = ret (prod (map snd pairs)).
Proof.
  unfold prod_of_counts, axis_arg. cbn [arg_items]. rewrite bind_ret_l.
  assert (E : mapM (fun y => c <- arg_getitem y 1 ;; arg_int c)
                   (map (fun p : Z * Z => ATuple [AInt (fst p); AInt (snd p)]) pairs)
              = ret (map snd pairs)).
  { induction pairs as [|p pairs IH]; [reflexivity|].
    cbn [map mapM]. rewrite IH. reflexivity. }
  rewrite E, bind_ret_l. reflexivity.
Qed.

(** X27.  With an argument that is a tuple of (axis, count) pairs, a
    CONTRACT node is accepted exactly when the lane count of its value type
    is the product of the counts, and an UNROLL node exactly when the lane
    count of the value type of its first source is; the empty tuple asks for
    one lane.  An UNROLL node without sources makes the predicate raise
    IndexError. *)
Theorem contract_unroll_verdict (u : UOp) (pairs : list (Z * Z)) :
  arg u = axis_arg pairs ->
  (op u = CONTRACT ->
     rewrite (spec env F) u
     = ret (Some (dtype_count (dtype u) =? prod (map snd pairs))))
  /\ (op u = UNROLL ->
      (forall x0 rest, src u = x0 :: rest ->
         rewrite (spec env F) u
         = ret (Some (dtype_count (dtype x0) =? prod (map snd pairs))))
      /\ (src u = [] -> rewrite (spec env F) u = raise IndexError)).
Proof.
  intros Harg. destruct u as [o d s a]. cbn [op src dtype arg] in *. subst a.
  split; intros ->; [|split].
  - rewrite rewrite_rules_for. cbv [op rules_for]. cbn -[prod_of_counts axis_arg].
    rewrite prod_of_counts_axis_arg. reflexivity.
  - intros x0 rest ->. rewrite rewrite_rules_for. cbv [op rules_for].
    cbn -[prod_of_counts axis_arg].
    rewrite prod_of_counts_axis_arg. reflexivity.
  - intros ->. rewrite rewrite_rules_for. cbv [op rules_for]. reflexivity.
Qed.

End ControlAndVectors.

(* ================================================================== *)
(** * Layered rule tables *)

Section Layers.

Variable F : Facts.
Variable st_views : UOp -> list View.
Variable cvar_int : UPat.

(** Concatenating two rule tables: the second is consulted only where the
    first abstains. *)
Lemma rewrite_app (pm1 pm2 : PatternMatcher) (u : UOp) :
  rewrite (pm1 ++ pm2) u
  = (r <- rewrite pm1 u ;;
     match r with
     | Some b => ret (Some b)
     | None => rewrite pm2 u
     end).
Proof.
  induction pm1 as [|[p f] pm1 IH]; cbn [app rewrite].
  - rewrite bind_ret_l. reflexivity.
  - rewrite IH.
    destruct (negb (upat_op_ok p (op u))); [reflexivity|].
    destruct (negb (early_ok p u)); [reflexivity|].
    destruct (first_result f (upat_match p u [])) as [o [[b|]|e]]; cbn.
    + rewrite !app_nil_r. reflexivity.
    + destruct (rewrite pm1 u) as [o1 [[b|]|e]]; cbn.
      * rewrite !app_nil_r. reflexivity.
      * destruct (rewrite pm2 u) as [o2 r2]. rewrite app_assoc. reflexivity.
      * reflexivity.
    + reflexivity.
Qed.

Lemma layered_outcome (pm1 pm2 : PatternMatcher) (u : UOp) :
  snd (rewrite pm1 u) <> Ret None ->
  rewrite (pm1 ++ pm2) u = rewrite pm1 u.
Proof.
  intros H. rewrite rewrite_app.
  destruct (rewrite pm1 u) as [o [[b|]|e]]; cbn in *.
  - rewrite app_nil_r. reflexivity.
  - exfalso. apply H. reflexivity.
  - reflexivity.
Qed.

(** X28.  The scheduler table and the tensor-level table both start with
    the buffer rules followed by the assignment rules.  Wherever that common
    prefix has an outcome other than an abstention (a verdict, or the
    assertion of [validate_kernel]), both tables have exactly that outcome:
    the rules each table adds are consulted only on nodes the prefix
    abstains on. *)
Theorem layered_tables_follow_common_prefix (u : UOp) :
  snd (rewrite (buffer_spec ++ assign_spec F) u) <> Ret None ->
  rewrite (sched_spec F) u = rewrite (buffer_spec ++ assign_spec F) u
  /\ rewrite (tensor_uop_spec F st_views cvar_int) u
     = rewrite (buffer_spec ++ assign_spec F) u.
Proof.
  intros H. unfold sched_spec, tensor_uop_spec.
  rewrite !app_assoc. split; apply layered_outcome; exact H.
Qed.

(** X29.  The tensor-level table never accepts a VIEW node.  A VIEW with
    exactly one source is rejected when that source is anything but a
    BUFFER, BUFFER_VIEW, ASSIGN, CONST or DEVICE node; on a VIEW over one of
    these five, and on a VIEW with another number of sources, the table
    abstains. *)
Theorem tensor_view_never_accepted (u : UOp) :
  op u = VIEW ->
  rewrite (tensor_uop_spec F st_views cvar_int) u
  = ret (match src u with
         | [x] => if op_in (op x) [BUFFER; BUFFER_VIEW; ASSIGN; CONST; DEVICE]
                  then None else Some false
         | _ => None
         end).
Proof.
  intros Hop. destruct u as [o d s a]. cbn [op src] in *. subst o.
  rewrite rewrite_rules_for. cbv [op rules_for].
  destruct s as [|[ox dx sx ax] [|y s]]; [reflexivity| |reflexivity].
  destruct ox; vm_compute; reflexivity.
Qed.

Lemma layered_accept (pm1 tail1 tail2 : PatternMatcher) (u : UOp) :
  (forall out, rewrite tail1 u <> (out, Ret (Some true))) ->
  rewrite (pm1 ++ tail1) u = ret (Some true) ->
  rewrite (pm1 ++ tail2) u = ret (Some true).
Proof.
  intros Hnever. rewrite !rewrite_app.
  destruct (rewrite pm1 u) as [o [[b|]|e]]; cbn [bind].
  - intros H. exact H.
  - destruct (rewrite tail1 u) as [o1 r1] eqn:E1. intros H.
    exfalso. apply (Hnever o1).
    unfold ret in H. inversion H. reflexivity.
  - intros H. inversion H.
Qed.

(** X30.  Every node the scheduler table accepts is accepted by the
    tensor-level table as well: the scheduler table only accepts through the
    buffer and assignment rules, which the tensor-level table shares. *)
Theorem sched_accept_implies_tensor_accept (u : UOp) :
  rewrite (sched_spec F) u = ret (Some true) ->
  rewrite (tensor_uop_spec F st_views cvar_int) u = ret (Some true).
Proof.
  unfold sched_spec, tensor_uop_spec. rewrite !app_assoc.
  apply layered_accept. intros out.
  rewrite rewrite_cons by reflexivity. cbn [fst snd sched_spec_l155].
  rewrite first_result_const.
  destruct (upat_match (UPat_ (GroupOp.All_minus [SINK])) u []);
    rewrite bind_ret_l; unfold ret; cbn [rewrite]; intros H; inversion H.
Qed.

End Layers.

(* ================================================================== *)
(** * The further statements at concrete inputs *)

Lemma spec_raises_only_on_witness :
  (exists v, rewrite (spec env_plain ex_facts) ex_add = ret v)
  /\ (exists w e, op w = INDEX
                  /\ snd (rewrite (spec env_plain ex_facts) w) = Raise e).
Proof.
  split.
  - apply (proj1 (spec_raises_only_on env_plain ex_facts ex_add)).
    intros H. cbn in H. intuition discriminate.
  - apply (proj2 (spec_raises_only_on env_plain ex_facts ex_add) eq_refl INDEX).
    cbn. tauto.
Defined.

Lemma topology_rules_return_witness :
  (exists v, rewrite buffer_spec ex_bare_buffer = ret v)
  /\ op ex_noop <> KERNEL /\ op ex_noop <> ASSIGN
  /\ rewrite (assign_spec ex_facts) ex_noop = ret None.
Proof.
  assert (H1 : op ex_noop <> KERNEL) by (cbv; discriminate).
  assert (H2 : op ex_noop <> ASSIGN) by (cbv; discriminate).
  split; [exact (proj1 (topology_rules_return ex_facts ex_bare_buffer))|].
  split; [exact H1|]. split; [exact H2|].
  exact (proj2 (topology_rules_return ex_facts ex_noop) H1 H2).
Defined.

Lemma assign_spec_on_assign_witness :
  op ex_assign = ASSIGN
  /\ rewrite (assign_spec ex_facts) ex_assign = ret (Some true).
Proof.
  split; [reflexivity|].
  apply (proj1 (proj2 (proj2 (assign_spec_on_assign ex_facts ex_assign eq_refl)))
               ex_buffer [ex_noop] eq_refl).
  - left. reflexivity.
  - apply le_n.
Defined.

Lemma type_verify_returns_iff_all_pass_witness :
  all_judged (spec env_plain ex_facts :: [buffer_spec]) [ex_device; ex_unique; ex_buffer]
  /\ (snd (type_verify env_plain ex_facts [ex_device; ex_unique; ex_buffer] [buffer_spec])
      = Ret tt
      <-> forall u, In u [ex_device; ex_unique; ex_buffer] ->
                    node_passes (spec env_plain ex_facts :: [buffer_spec]) u).
Proof.
  assert (Hj : all_judged (spec env_plain ex_facts :: [buffer_spec])
                          [ex_device; ex_unique; ex_buffer]).
  { intros u s Hu Hs. simpl in Hu, Hs.
    destruct Hu as [<-|[<-|[<-|[]]]]; destruct Hs as [<-|[<-|[]]];
      eexists; unfold verdict; vm_compute; reflexivity. }
  split; [exact Hj|].
  exact (type_verify_returns_iff_all_pass env_plain ex_facts
           [ex_device; ex_unique; ex_buffer] [buffer_spec] Hj).
Defined.

Lemma type_verify_extra_order_witness :
  Permutation [buffer_spec; shape_spec ex_facts] [shape_spec ex_facts; buffer_spec]
  /\ snd (type_verify env_plain ex_facts ex_uops [buffer_spec; shape_spec ex_facts])
     = snd (type_verify env_plain ex_facts ex_uops [shape_spec ex_facts; buffer_spec]).
Proof.
  assert (Hp : Permutation [buffer_spec; shape_spec ex_facts]
                           [shape_spec ex_facts; buffer_spec]) by apply perm_swap.
  split; [exact Hp|].
  apply (type_verify_extra_order env_plain ex_facts ex_uops _ _ Hp).
  intros u s Hu Hs. unfold ex_uops in Hu. simpl in Hu, Hs.
  destruct Hu as [<-|[<-|[<-|[<-|[]]]]]; destruct Hs as [<-|[<-|[<-|[]]]];
    eexists; unfold verdict; vm_compute; reflexivity.
Defined.

Lemma type_verify_halts_at_first_failure_witness :
  snd (type_verify env_plain ex_facts ex_uops [buffer_spec])
  = Raise (RuntimeError (failure_of 3 ex_bare_buffer))
  /\ snd (type_verify env_plain ex_facts (ex_uops ++ [ex_kernel_add]) [buffer_spec])
     = Raise (RuntimeError (failure_of 3 ex_bare_buffer)).
Proof.
  assert (Hr : snd (type_verify env_plain ex_facts ex_uops [buffer_spec])
               = Raise (RuntimeError (failure_of 3 ex_bare_buffer)))
    by (vm_compute; reflexivity).
  split; [exact Hr|].
  exact (proj1 (type_verify_halts_at_first_failure env_plain ex_facts ex_uops
                  [ex_kernel_add] [buffer_spec]) _ Hr).
Defined.

Lemma type_verify_plain_outcome_witness :
  (forall u, In u [ex_noop; ex_add] -> ~ In (op u) spec_may_raise)
  /\ (snd (type_verify env_plain ex_facts [ex_noop; ex_add] [buffer_spec]) = Ret tt
      \/ exists i u, nth_error [ex_noop; ex_add] i = Some u
           /\ snd (type_verify env_plain ex_facts [ex_noop; ex_add] [buffer_spec])
              = Raise (RuntimeError (failure_of i u))).
Proof.
  assert (H1 : forall u, In u [ex_noop; ex_add] -> ~ In (op u) spec_may_raise).
  { intros u [<-|[<-|[]]]; cbn; intuition discriminate. }
  split; [exact H1|].
  apply (type_verify_plain_outcome env_plain ex_facts [ex_noop; ex_add] [buffer_spec] H1).
  intros s [<-|[]]. reflexivity.
Defined.

Lemma gated_and_image_index_accepted_witness :
  op ex_index_gated = INDEX /\ In (op ex_global) DEFINES
  /\ rewrite (spec env_plain ex_facts) ex_index_gated = ret (Some true).
Proof.
  assert (Hin : In (op ex_global) DEFINES) by (left; reflexivity).
  split; [reflexivity|]. split; [exact Hin|].
  exact (proj1 (gated_and_image_index_accepted env_plain ex_facts ex_index_gated
                  ex_global ex_const5 eq_refl Hin) ex_cond eq_refl eq_refl).
Defined.

Lemma index_form_verdicts_witness :
  op ex_index_one = INDEX /\ (List.length (src ex_index_one) < 2)%nat
  /\ rewrite (spec env_plain ex_facts) ex_index_one = ret None
  /\ dtype_scalar (dtype ex_mask_vec) = dtypes.bool
  /\ rewrite (spec env_plain ex_facts) ex_index_gated_vec = ret (Some true).
Proof.
  assert (Hl : (List.length (src ex_index_one) < 2)%nat) by apply le_n.
  split; [reflexivity|]. split; [exact Hl|]. split.
  - exact (proj1 (index_form_verdicts env_plain ex_facts ex_index_one eq_refl)
             (or_introl Hl)).
  - split; [reflexivity|].
    exact (proj2 (index_form_verdicts env_plain ex_facts ex_index_gated_vec eq_refl)
             ex_global ex_const5 ex_mask_vec eq_refl (or_introl eq_refl) eq_refl).
Defined.

Lemma bounds_check_monotone_in_size_witness :
  snd (validate_index env_plain ex_facts ex_index_ok None) = Ret true
  /\ snd (validate_index env_plain ex_facts
            (mkUOp INDEX ptr_float4
               [mkUOp DEFINE_GLOBAL (PtrDT dtypes.float32 false 1 8) [] (AInt 0);
                ex_const2] ANone) None) = Ret true.
Proof.
  assert (H : snd (validate_index env_plain ex_facts ex_index_ok None) = Ret true)
    by (vm_compute; reflexivity).
  split; [exact H|].
  apply (bounds_check_monotone_in_size env_plain ex_facts ptr_float4 dtypes.float32
           DEFINE_GLOBAL false 1 4 8 [] (AInt 0) ANone ex_const2).
  - discriminate.
  - lia.
  - exact H.
Defined.

Lemma shape_spec_sink_edges_witness :
  op ex_sink_empty = SINK
  /\ rewrite (shape_spec ex_facts) ex_sink_empty = ret None
  /\ rewrite (shape_spec ex_facts) (ex_sink [ex_noop]) = ret None.
Proof.
  split; [reflexivity|]. split.
  - exact (proj1 (proj2 (shape_spec_sink_edges ex_facts ex_sink_empty eq_refl)
                    eq_refl)).
  - apply (proj1 (shape_spec_sink_edges ex_facts (ex_sink [ex_noop]) eq_refl)).
    intros H. inversion H as [|x l Hx Hl]. discriminate Hx.
Defined.

Lemma verify_sink_dims_source_order_witness :
  Permutation [ex_store_two; ex_store_three] [ex_store_three; ex_store_two]
  /\ verify_sink_dims ex_facts (mkUOp SINK dtypes.void [ex_store_two; ex_store_three] ANone)
     = verify_sink_dims ex_facts
         (mkUOp SINK dtypes.float32 [ex_store_three; ex_store_two] (AInt 1)).
Proof.
  assert (Hp : Permutation [ex_store_two; ex_store_three] [ex_store_three; ex_store_two])
    by apply perm_swap.
  split; [exact Hp|].
  exact (verify_sink_dims_source_order ex_facts dtypes.void dtypes.float32 ANone (AInt 1)
           _ _ Hp).
Defined.

Lemma shape_spec_rejects_mismatch_witness :
  op ex_sink_sizes = SINK
  /\ Forall (fun s => op s = STORE) (src ex_sink_sizes)
  /\ size (st_arg ex_facts ex_store_two) <> size (st_arg ex_facts ex_store_three)
  /\ rewrite (shape_spec ex_facts) ex_sink_sizes = ret (Some false).
Proof.
  assert (Hs : Forall (fun s => op s = STORE) (src ex_sink_sizes)).
  { repeat constructor. }
  assert (Hd : size (st_arg ex_facts ex_store_two)
               <> size (st_arg ex_facts ex_store_three)).
  { vm_compute. discriminate. }
  split; [reflexivity|]. split; [exact Hs|]. split; [exact Hd|].
  apply (shape_spec_rejects_mismatch ex_facts ex_sink_sizes eq_refl Hs).
  left. exists ex_store_two, ex_store_three.
  split; [left; reflexivity|]. split; [right; left; reflexivity|]. exact Hd.
Defined.

Lemma where_verdict_witness :
  op ex_where = WHERE
  /\ rewrite (spec env_plain ex_facts) ex_where = ret (Some false)
  /\ dtype_scalar (dtype ex_mask_vec) = dtypes.bool
  /\ rewrite (spec env_plain ex_facts) ex_where_vec = ret (Some true).
Proof.
  split; [reflexivity|]. split.
  - exact (proj1 (where_verdict env_plain ex_facts ex_where eq_refl)
             ex_cond ex_x_int32 ex_float eq_refl eq_refl).
  - split; [reflexivity|].
    exact (proj1 (where_verdict env_plain ex_facts ex_where_vec eq_refl)
             ex_mask_vec ex_float4 ex_float4 eq_refl eq_refl).
Defined.

Lemma compare_verdict_witness :
  op ex_cmplt = CMPLT
  /\ rewrite (spec env_plain ex_facts) ex_cmplt = ret (Some true)
  /\ dtype_scalar (dtype ex_cmplt_vec) = dtypes.bool
  /\ rewrite (spec env_plain ex_facts) ex_cmplt_vec = ret (Some true).
Proof.
  split; [reflexivity|]. split.
  - exact (proj1 (compare_verdict env_plain ex_facts ex_cmplt (or_introl eq_refl))
             ex_x_int32 ex_const5 eq_refl eq_refl).
  - split; [reflexivity|].
    exact (proj1 (compare_verdict env_plain ex_facts ex_cmplt_vec (or_introl eq_refl))
             ex_float4 ex_float4 eq_refl eq_refl).
Defined.

Lemma idiv_mod_verdict_witness :
  op ex_idiv_float = IDIV /\ dtypes.is_int (dtype ex_idiv_float) = false
  /\ rewrite (spec env_plain ex_facts) ex_idiv_float = ret (Some false).
Proof.
  split; [reflexivity|]. split; [reflexivity|].
  exact (proj1 (idiv_mod_verdict env_plain ex_facts ex_idiv_float (or_introl eq_refl))
           eq_refl).
Defined.

Lemma generic_alu_verdict_witness :
  In (op ex_add) GroupOp.ALU
  /\ rewrite (spec env_plain ex_facts) ex_add = ret (Some true).
Proof.
  assert (Hin : In (op ex_add) GroupOp.ALU).
  { apply op_in_In. vm_compute. reflexivity. }
  split; [exact Hin|].
  apply (proj2 (proj2 (generic_alu_verdict env_plain ex_facts ex_add Hin))).
  - intros H. cbn in H. intuition discriminate.
  - reflexivity.
Defined.

Lemma store_never_rejected_witness :
  op (ex_store [4] ex_noop) = STORE
  /\ rewrite (spec env_plain ex_facts) (ex_store [4] ex_noop) = ret (Some true)
  /\ dtype ex_store_addr_vec <> dtypes.void
  /\ dtype_scalar (dtype ex_addr_vec) = dtypes.int64
  /\ rewrite (spec env_plain ex_facts) ex_store_addr_vec = ret (Some true).
Proof.
  split; [reflexivity|]. split.
  - apply (proj1 (proj2 (store_never_rejected env_plain ex_facts (ex_store [4] ex_noop)
                           eq_refl))
                 ex_global (ex_view [4]) ex_noop eq_refl).
    + left. reflexivity.
    + reflexivity.
  - split; [discriminate|]. split; [reflexivity|].
    exact (proj1 (proj2 (proj2 (proj2 (proj2
             (store_never_rejected env_plain ex_facts ex_store_addr_vec eq_refl)))))
             ex_addr_vec [ex_x_int32] eq_refl eq_refl).
Defined.

Lemma load_rejected_only_on_mismatch_witness :
  op ex_load_alt = LOAD /\ load_alt_mismatch ex_load_alt = true
  /\ rejects (spec env_plain ex_facts) ex_load_alt.
Proof.
  split; [reflexivity|]. split; [reflexivity|].
  exact (proj2 (proj1 (proj2 (load_rejected_only_on_mismatch env_plain ex_facts
                                ex_load_alt eq_refl))) eq_refl).
Defined.

Lemma define_global_local_verdict_witness :
  op ex_global = DEFINE_GLOBAL /\ op ex_local = DEFINE_LOCAL
  /\ dtype ex_global = dtype ex_local
  /\ rewrite (spec env_plain ex_facts) ex_global = ret (Some true)
  /\ rewrite (spec env_plain ex_facts) ex_local = ret (Some false).
Proof.
  split; [reflexivity|]. split; [reflexivity|]. split; [reflexivity|].
  split.
  - exact (proj1 (define_global_local_verdict env_plain ex_facts ex_global ex_local
                    eq_refl eq_refl eq_refl)).
  - exact (proj1 (proj2 (define_global_local_verdict env_plain ex_facts ex_global
                           ex_local eq_refl eq_refl eq_refl))).
Defined.

Lemma define_acc_verdict_witness :
  op ex_define_acc = DEFINE_ACC
  /\ rewrite (spec env_plain ex_facts) ex_define_acc = ret (Some true).
Proof.
  split; [reflexivity|].
  exact (proj2 (proj2 (define_acc_verdict env_plain ex_facts ex_define_acc eq_refl))
           ex_float eq_refl eq_refl).
Defined.

Lemma define_var_verdict_witness :
  op ex_define_var = DEFINE_VAR
  /\ rewrite (spec env_plain ex_facts) ex_define_var = ret (Some true)
  /\ rewrite (spec env_plain ex_facts) ex_define_var_none = raise TypeError.
Proof.
  split; [reflexivity|]. split.
  - exact (proj2 (proj2 (proj2 (proj2
             (define_var_verdict env_plain ex_facts ex_define_var eq_refl))))
             [AStr "n"; AInt 0; AInt 8] (AInt 0) (AInt 8)
             eq_refl eq_refl eq_refl eq_refl).
  - exact (proj1 (define_var_verdict env_plain ex_facts ex_define_var_none eq_refl) I).
Defined.

Lemma view_verdict_witness :
  op (ex_view [4]) = VIEW
  /\ rewrite (spec env_plain ex_facts) (ex_view [4]) = ret (Some true).
Proof.
  split; [reflexivity|].
  exact (proj1 (view_verdict env_plain ex_facts (ex_view [4]) eq_refl) eq_refl).
Defined.

Lemma control_flow_verdicts_witness :
  op ex_if = IF /\ rewrite (spec env_plain ex_facts) ex_if = ret (Some true).
Proof.
  split; [reflexivity|].
  exact (proj1 (proj2 (control_flow_verdicts env_plain ex_facts ex_if)) eq_refl).
Defined.

Lemma cast_verdict_witness :
  op ex_addr = CAST /\ rewrite (spec env_plain ex_facts) ex_addr = ret (Some true).
Proof.
  split; [reflexivity|].
  exact (proj1 (cast_verdict env_plain ex_facts ex_addr (or_introl eq_refl))
           ex_index_ok eq_refl).
Defined.

Lemma vectorize_rejects_bad_arity_witness :
  op ex_vectorize_one = VECTORIZE /\ (List.length (src ex_vectorize_one) < 2)%nat
  /\ rewrite (spec env_plain ex_facts) ex_vectorize_one = ret (Some false).
Proof.
  assert (Hl : (List.length (src ex_vectorize_one) < 2)%nat) by apply le_n.
  split; [reflexivity|]. split; [exact Hl|].
  exact (vectorize_rejects_bad_arity env_plain ex_facts ex_vectorize_one eq_refl
           (or_introl Hl)).
Defined.

Lemma contract_unroll_verdict_witness :
  arg ex_contract = axis_arg [(0, 2); (1, 2)]
  /\ rewrite (spec env_plain ex_facts) ex_contract = ret (Some true)
  /\ rewrite (spec env_plain ex_facts) ex_unroll_empty = raise IndexError.
Proof.
  split; [reflexivity|]. split.
  - exact (proj1 (contract_unroll_verdict env_plain ex_facts ex_contract
                    [(0, 2); (1, 2)] eq_refl) eq_refl).
  - exact (proj2 (proj2 (contract_unroll_verdict env_plain ex_facts ex_unroll_empty
                           [] eq_refl) eq_refl) eq_refl).
Defined.

Lemma layered_tables_follow_common_prefix_witness :
  snd (rewrite (buffer_spec ++ assign_spec ex_facts) ex_buffer) <> Ret None
  /\ rewrite (sched_spec ex_facts) ex_buffer
     = rewrite (buffer_spec ++ assign_spec ex_facts) ex_buffer
  /\ rewrite (tensor_uop_spec ex_facts ex_st_views ex_cvar_int) ex_buffer
     = rewrite (buffer_spec ++ assign_spec ex_facts) ex_buffer.
Proof.
  assert (H : snd (rewrite (buffer_spec ++ assign_spec ex_facts) ex_buffer) <> Ret None).
  { vm_compute. discriminate. }
  split; [exact H|].
  exact (layered_tables_follow_common_prefix ex_facts ex_st_views ex_cvar_int
           ex_buffer H).
Defined.

Lemma tensor_view_never_accepted_witness :
  op ex_view_noop = VIEW
  /\ rewrite (tensor_uop_spec ex_facts ex_st_views ex_cvar_int) ex_view_noop
     = ret (Some false).
Proof.
  split; [reflexivity|].
  exact (tensor_view_never_accepted ex_facts ex_st_views ex_cvar_int ex_view_noop
           eq_refl).
Defined.

Lemma sched_accept_implies_tensor_accept_witness :
  rewrite (sched_spec ex_facts) ex_buffer = ret (Some true)
  /\ rewrite (tensor_uop_spec ex_facts ex_st_views ex_cvar_int) ex_buffer
     = ret (Some true).
Proof.
  assert (H : rewrite (sched_spec ex_facts) ex_buffer = ret (Some true))
    by (vm_compute; reflexivity).
  split; [exact H|].
  exact (sched_accept_implies_tensor_accept ex_facts ex_st_views ex_cvar_int
           ex_buffer H).
Defined.
